(** * Borrower view of the lending dApp: a shallow embedding

    The component [src/frontend/src/components/Borrower.js] is a React
    function component.  Its handlers are embedded as programs of a small
    free monad over the calls the component makes to its environment
    (wallet provider, contract handle, price service, clock), with the
    React state as an explicit record.

    The values the handlers compute with are JavaScript values, so the
    first part of the file fixes their meaning:
    - a JS Number is an IEEE-754 binary64 value, taken from the standard
      library's [spec_float] with its correctly rounded operations;
    - a JS string is a [string];
    - an ethers [BigNumber] is an unbounded integer ([Z]). *)

From Stdlib Require Import ZArith QArith List String Ascii Bool Lia.
From Stdlib Require Import Floats.SpecFloat DecimalString.
Import ListNotations.

Local Open Scope string_scope.
Local Open Scope Z_scope.

(** ** Characters and digit strings *)

Module Chars.

Definition is_digit (c : ascii) : bool :=
  let n := N_of_ascii c in ((48 <=? n) && (n <=? 57))%N.

Definition digit_val (c : ascii) : Z := Z.of_N (N_of_ascii c) - 48.

(** Value of a hexadecimal digit, when the character is one. *)
Definition hex_val (c : ascii) : option Z :=
  let n := Z.of_N (N_of_ascii c) in
  if (48 <=? n) && (n <=? 57) then Some (n - 48)
  else if (97 <=? n) && (n <=? 102) then Some (n - 87)
  else if (65 <=? n) && (n <=? 70) then Some (n - 55)
  else None.

(** ECMAScript white space and line terminators, on the ASCII range. *)
Definition is_space (c : ascii) : bool :=
  let n := N_of_ascii c in
  ((n =? 32) || (n =? 9) || (n =? 10) || (n =? 11) || (n =? 12) || (n =? 13))%N.

(** [String.prototype.toLowerCase] on the ASCII range: only A-Z move. *)
Definition lower (c : ascii) : ascii :=
  let n := N_of_ascii c in
  if ((65 <=? n) && (n <=? 90))%N then ascii_of_N (n + 32) else c.

Fixpoint toLowerCase (s : string) : string :=
  match s with
  | EmptyString => EmptyString
  | String c r => String (lower c) (toLowerCase r)
  end.

(** Longest prefix of decimal digits, and what follows it. *)
Fixpoint span_digits (s : string) : string * string :=
  match s with
  | String c r =>
      if is_digit c then let (d, t) := span_digits r in (String c d, t)
      else (EmptyString, s)
  | EmptyString => (EmptyString, EmptyString)
  end.

(** Decimal value of a digit string, most significant digit first. *)
Fixpoint digits_acc (acc : Z) (s : string) : Z :=
  match s with
  | EmptyString => acc
  | String c r => digits_acc (10 * acc + digit_val c) r
  end.

Definition digits_value (s : string) : Z := digits_acc 0 s.

Fixpoint drop_spaces (s : string) : string :=
  match s with
  | String c r => if is_space c then drop_spaces r else s
  | EmptyString => EmptyString
  end.

Fixpoint rev_acc (acc s : string) : string :=
  match s with
  | EmptyString => acc
  | String c r => rev_acc (String c acc) r
  end.

Definition rev (s : string) : string := rev_acc EmptyString s.

(** [String.prototype.trim]. *)
Definition trim (s : string) : string :=
  rev (drop_spaces (rev (drop_spaces s))).

Fixpoint repeat_char (c : ascii) (n : nat) : string :=
  match n with
  | O => EmptyString
  | S k => String c (repeat_char c k)
  end.

(** Decimal numeral of a natural number, no leading zeros ("0" for zero). *)
Definition of_nonneg (z : Z) : string :=
  NilZero.string_of_uint (N.to_uint (Z.to_N z)).

End Chars.

(** ** JavaScript Numbers *)

Module Num.

Definition prec : Z := 53.
Definition emax : Z := 1024.

Definition number : Type := spec_float.

Definition nan : number := S754_nan.
Definition mul : number -> number -> number := SFmul prec emax.
Definition div : number -> number -> number := SFdiv prec emax.
Definition sub : number -> number -> number := SFsub prec emax.

(** What a Number other than NaN stands for: a rational or an infinity.
    Both zeros stand for 0. *)
Inductive extended : Type :=
| MinusInfinity
| Finite (q : Q)
| PlusInfinity.

Definition Qvalue (s : bool) (m : positive) (e : Z) : Q :=
  if 0 <=? e then inject_Z (cond_Zopp s (Z.pos m * 2 ^ e))
  else Qmake (cond_Zopp s (Z.pos m)) (Z.to_pos (2 ^ (- e))).

Definition value (x : number) : option extended :=
  match x with
  | S754_nan => None
  | S754_infinity s => Some (if s then MinusInfinity else PlusInfinity)
  | S754_zero _ => Some (Finite 0)
  | S754_finite s m e => Some (Finite (Qvalue s m e))
  end.

Definition compare_extended (a b : extended) : comparison :=
  match a, b with
  | MinusInfinity, MinusInfinity => Eq
  | MinusInfinity, _ => Lt
  | _, MinusInfinity => Gt
  | PlusInfinity, PlusInfinity => Eq
  | PlusInfinity, _ => Gt
  | _, PlusInfinity => Lt
  | Finite p, Finite q => Qcompare p q
  end.

(** The relational operators compare what the operands stand for; a
    comparison with NaN is false. *)
Definition compare (x y : number) : option comparison :=
  match value x, value y with
  | Some a, Some b => Some (compare_extended a b)
  | _, _ => None
  end.

Definition ltb (x y : number) : bool :=
  match compare x y with
  | Some Lt => true
  | _ => false
  end.

Definition leb (x y : number) : bool :=
  match compare x y with
  | Some Lt | Some Eq => true
  | _ => false
  end.

Definition eqb (x y : number) : bool :=
  match compare x y with
  | Some Eq => true
  | _ => false
  end.

(** The Number of an integer: the integer rounded to nearest, ties to even. *)
Definition of_Z (z : Z) : number := binary_normalize prec emax z 0 false.

(** The Number nearest to [n * 10^e10], for a natural [n]: the value a
    decimal literal denotes. *)
Definition of_decimal (neg : bool) (n : Z) (e10 : Z) : number :=
  match n with
  | Zpos p =>
      if 0 <=? e10 then binary_normalize prec emax (if neg then Z.neg (p * Z.to_pos (10 ^ e10)) else Z.pos (p * Z.to_pos (10 ^ e10))) 0 false
      else div (S754_finite neg p 0) (S754_finite false (Z.to_pos (10 ^ (- e10))) 0)
  | _ => S754_zero neg
  end.

(** [!x] on a Number: NaN and both zeros are falsy. *)
Definition falsy (x : number) : bool :=
  match x with
  | S754_nan | S754_zero _ => true
  | _ => false
  end.

(** The integer a Number denotes, when it denotes one. *)
Definition to_Z (x : number) : option Z :=
  match x with
  | S754_zero _ => Some 0
  | S754_finite s m e =>
      if 0 <=? e then Some (cond_Zopp s (Z.pos m * 2 ^ e))
      else if Z.pos m mod 2 ^ (- e) =? 0 then Some (cond_Zopp s (Z.pos m / 2 ^ (- e)))
      else None
  | _ => None
  end.

(** [Math.floor] and [Math.ceil].  A result of zero keeps the sign of the
    argument, as in ECMAScript ([Math.ceil(-0.5)] is [-0]). *)
Definition floor (x : number) : number :=
  match x with
  | S754_finite s m e =>
      if 0 <=? e then x
      else binary_normalize prec emax (cond_Zopp s (Z.pos m) / 2 ^ (- e)) 0 s
  | _ => x
  end.

Definition ceil (x : number) : number :=
  match x with
  | S754_finite s m e =>
      if 0 <=? e then x
      else binary_normalize prec emax (- ((- cond_Zopp s (Z.pos m)) / 2 ^ (- e))) 0 s
  | _ => x
  end.

(** *** Number to string

    [Number.prototype.toString] prints the shortest decimal numeral that
    reads back as the same Number, the closest one when several have that
    length.  A positive finite value is the exact fraction [a / b]. *)

Definition fraction_of (m : positive) (e : Z) : Z * Z :=
  if 0 <=? e then (Z.pos m * 2 ^ e, 1) else (Z.pos m, 2 ^ (- e)).

(** [a / b] scaled by [10^p]. *)
Definition scale10 (a b p : Z) : Z * Z :=
  if 0 <=? p then (a * 10 ^ p, b) else (a, b * 10 ^ (- p)).

(** The least [n], searched upwards from [n], with [a / b < 10^n]. *)
Fixpoint point_from (fuel : nat) (a b n : Z) : Z :=
  match fuel with
  | O => n
  | S k =>
      let (a', b') := scale10 a b (- n) in
      if a' <? b' then n else point_from k a b (n + 1)
  end.

Definition decimal_point (a b : Z) : Z :=
  point_from 8 a b ((Z.log2 a - Z.log2 b) * 30103 / 100000 - 2).

(** The digits [s] of the [k]-digit numeral for [v = a / b] with decimal
    point [n], when one reads back as [v]. *)
Definition candidate (v : number) (a b n k : Z) : option Z :=
  let (a', b') := scale10 a b (k - n) in
  let lo := a' / b' in
  let hi := lo + 1 in
  let ok s := eqb (of_decimal false s (n - k)) v in
  match ok lo, ok hi with
  | true, true =>
      match 2 * (a' mod b') ?= b' with
      | Lt => Some lo
      | Gt => Some hi
      | Eq => Some (if Z.even lo then lo else hi)
      end
  | true, false => Some lo
  | false, true => Some hi
  | false, false => None
  end.

(** Shortest digits: [(s, k, n)] with [v] the Number of [s * 10^(n-k)]. *)
Fixpoint shortest_from (fuel : nat) (v : number) (a b n k : Z) : Z * Z * Z :=
  match candidate v a b n k with
  | Some s => if s =? 10 ^ k then (1, 1, n + 1) else (s, k, n)
  | None =>
      match fuel with
      | O => (0, 1, n)
      | S f => shortest_from f v a b n (k + 1)
      end
  end.

Definition shortest (m : positive) (e : Z) : Z * Z * Z :=
  let (a, b) := fraction_of m e in
  shortest_from 17 (S754_finite false m e) a b (decimal_point a b) 1.

(** The layout of [Number::toString] for the digits [ds] of a positive
    value whose decimal point sits after [n] digits. *)
Definition layout (ds : string) (k n : Z) : string :=
  if (k <=? n) && (n <=? 21) then
    ds ++ Chars.repeat_char "0" (Z.to_nat (n - k))
  else if (0 <? n) && (n <=? 21) then
    substring 0 (Z.to_nat n) ds ++ "." ++ substring (Z.to_nat n) (Z.to_nat (k - n)) ds
  else if (-6 <? n) && (n <=? 0) then
    "0." ++ Chars.repeat_char "0" (Z.to_nat (- n)) ++ ds
  else
    let ex := (if 0 <=? n - 1 then "+" else "-") ++ Chars.of_nonneg (Z.abs (n - 1)) in
    if k =? 1 then ds ++ "e" ++ ex
    else substring 0 1 ds ++ "." ++ substring 1 (Z.to_nat (k - 1)) ds ++ "e" ++ ex.

Definition toString (x : number) : string :=
  match x with
  | S754_nan => "NaN"
  | S754_zero _ => "0"
  | S754_infinity s => if s then "-Infinity" else "Infinity"
  | S754_finite s m e =>
      let '(d, k, n) := shortest m e in
      (if s then "-" else "") ++ layout (Chars.of_nonneg d) k n
  end.

(** *** String to number *)

(** The longest prefix that is a [StrUnsignedDecimalLiteral] other than
    [Infinity]: its value as [n * 10^e10], and the rest of the string. *)
Definition scan_exponent (s : string) : Z * string :=
  match s with
  | String c r =>
      if (Ascii.eqb c "e" || Ascii.eqb c "E")%bool then
        let '(neg, r') :=
          match r with
          | String "-" t => (true, t)
          | String "+" t => (false, t)
          | _ => (false, r)
          end in
        let (ds, rest) := Chars.span_digits r' in
        match ds with
        | EmptyString => (0, s)
        | _ => (cond_Zopp neg (Chars.digits_value ds), rest)
        end
      else (0, s)
  | EmptyString => (0, s)
  end.

Definition scan_unsigned (s : string) : option (Z * Z * string) :=
  let (ip, r1) := Chars.span_digits s in
  match r1 with
  | String "." r2 =>
      let (fp, r3) := Chars.span_digits r2 in
      match ip, fp with
      | EmptyString, EmptyString => None
      | _, _ =>
          let (ex, rest) := scan_exponent r3 in
          Some (Chars.digits_value (ip ++ fp), ex - Z.of_nat (String.length fp), rest)
      end
  | _ =>
      match ip with
      | EmptyString => None
      | _ =>
          let (ex, rest) := scan_exponent r1 in
          Some (Chars.digits_value ip, ex, rest)
      end
  end.

Definition split_sign (s : string) : bool * string :=
  match s with
  | String "-" r => (true, r)
  | String "+" r => (false, r)
  | _ => (false, s)
  end.

(** The global [parseFloat]: leading white space is skipped, the longest
    prefix that is a decimal literal is read, anything after it is
    ignored; NaN when there is no such prefix. *)
Definition parseFloat (s : string) : number :=
  let (neg, r) := split_sign (Chars.drop_spaces s) in
  if prefix "Infinity" r then S754_infinity neg
  else
    match scan_unsigned r with
    | Some (n, e10, _) => of_decimal neg n e10
    | None => nan
    end.

(** Digits of a non-decimal integer literal in the given radix. *)
Fixpoint radix_acc (radix acc : Z) (s : string) : option Z :=
  match s with
  | EmptyString => Some acc
  | String c r =>
      match Chars.hex_val c with
      | Some d => if d <? radix then radix_acc radix (radix * acc + d) r else None
      | None => None
      end
  end.

Definition non_decimal (s : string) : option Z :=
  match s with
  | String "0" (String c (String d r)) =>
      let body := String d r in
      if (Ascii.eqb c "x" || Ascii.eqb c "X")%bool then radix_acc 16 0 body
      else if (Ascii.eqb c "o" || Ascii.eqb c "O")%bool then radix_acc 8 0 body
      else if (Ascii.eqb c "b" || Ascii.eqb c "B")%bool then radix_acc 2 0 body
      else None
  | _ => None
  end.

(** [Number(s)] on a string (the abstract operation StringToNumber): the
    whole trimmed string must be a numeric literal; the empty string is 0. *)
Definition of_string (s : string) : number :=
  let t := Chars.trim s in
  match t with
  | EmptyString => S754_zero false
  | _ =>
      match non_decimal t with
      | Some z => of_Z z
      | None =>
          let (neg, r) := split_sign t in
          if String.eqb r "Infinity" then S754_infinity neg
          else
            match scan_unsigned r with
            | Some (n, e10, EmptyString) => of_decimal neg n e10
            | _ => nan
            end
      end
  end.

End Num.

(** ** Exceptions *)

Module Js.

(** A thrown value.  The handlers only ever read its [reason] property,
    which ethers sets on the errors it raises (the revert reason of a
    failed call among them) and which is absent ([None]) on plain
    JavaScript errors. *)
Record Error : Type := mkError { reason : option string }.

Inductive result (A : Type) : Type :=
| Ok (a : A)
| Err (e : Error).

Arguments Ok {A} a.
Arguments Err {A} e.

Definition TypeError : Error := {| reason := None |}.

(** An error raised through the ethers logger carries its message as
    [reason]. *)
Definition fault (msg : string) : Error := {| reason := Some msg |}.

(** [error.reason || fallback]: the reason when it is a non-empty string. *)
Definition reason_or (error : Error) (fallback : string) : string :=
  match reason error with
  | Some (String c r) => String c r
  | _ => fallback
  end.

Definition bind {A B} (r : result A) (f : A -> result B) : result B :=
  match r with
  | Ok a => f a
  | Err e => Err e
  end.

End Js.

Import Js.

(** ** The ethers utilities the component calls

    These are functions of the ethers v5 library, not of the repository;
    they are written out here after the library ([utils.parseEther],
    [utils.formatEther], [utils.hexlify], [BigNumber]). *)

Module Ethers.

Import Chars.

Definition decimals : nat := 18.
Definition multiplier : Z := 10 ^ 18.

Fixpoint decimal_chars (s : string) : bool :=
  match s with
  | EmptyString => true
  | String c r => (is_digit c || Ascii.eqb c ".")%bool && decimal_chars r
  end.

(** [s.split(".")]. *)
Fixpoint split_dot (s : string) : list string :=
  match s with
  | EmptyString => [EmptyString]
  | String c r =>
      if Ascii.eqb c "." then EmptyString :: split_dot r
      else
        match split_dot r with
        | h :: t => String c h :: t
        | [] => [String c EmptyString]
        end
  end.

Fixpoint drop_zeros (s : string) : string :=
  match s with
  | String c r => if Ascii.eqb c "0" then drop_zeros r else s
  | EmptyString => EmptyString
  end.

Definition strip_trailing_zeros (s : string) : string :=
  rev (drop_zeros (rev s)).

(** [parseFixed(value, 18)], which is [parseEther(value)]. *)
Definition parseEther (value : string) : result Z :=
  let '(negative, v) :=
    match value with
    | String "-" r => (true, r)
    | _ => (false, value)
    end in
  match v with
  | EmptyString => Err (fault "invalid decimal value")
  | _ =>
      if negb (decimal_chars v) then Err (fault "invalid decimal value")
      else if String.eqb v "." then Err (fault "missing value")
      else
        match split_dot v with
        | whole :: rest =>
            match rest with
            | _ :: _ :: _ => Err (fault "too many decimal points")
            | _ =>
                let fraction := strip_trailing_zeros (hd "0" rest) in
                if (decimals <? String.length fraction)%nat then
                  Err (fault "fractional component exceeds decimals")
                else
                  let padded :=
                    fraction ++ repeat_char "0" (decimals - String.length fraction) in
                  let wei := digits_value whole * multiplier + digits_value padded in
                  Ok (if negative then - wei else wei)
            end
        | [] => Err (fault "invalid decimal value")
        end
  end.

(** [formatFixed(value, 18)], which is [formatEther(value)]. *)
Definition formatEther (value : Z) : string :=
  let negative := value <? 0 in
  let v := Z.abs value in
  let digits := of_nonneg (v mod multiplier) in
  let fraction := repeat_char "0" (decimals - String.length digits) ++ digits in
  let stripped :=
    match strip_trailing_zeros fraction with
    | EmptyString => "0"
    | f => f
    end in
  (if negative then "-" else "") ++ of_nonneg (v / multiplier) ++ "." ++ stripped.

(** [BigNumber.prototype.toNumber]: a fault above 53 bits. *)
Definition toNumber (value : Z) : result Num.number :=
  if Z.abs value <? 2 ^ 53 then Ok (Num.of_Z value)
  else Err (fault "overflow").

(** [BigNumber.prototype.div] truncates; the divisor here is never zero. *)
Definition bn_div (a b : Z) : Z := Z.quot a b.

(** [BigNumber.from] on a JS Number, as done for a numeric argument of a
    contract method. *)
Definition from_number (x : Num.number) : result Z :=
  match x with
  | S754_nan => Err (fault "invalid BigNumber string")
  | S754_infinity _ => Err (fault "overflow")
  | _ =>
      match Num.to_Z x with
      | None => Err (fault "underflow")
      | Some z =>
          if 2 ^ 53 - 1 <=? Z.abs z then Err (fault "overflow") else Ok z
      end
  end.

(** Encoding of an unsigned integer argument. *)
Definition encode_uint (z : Z) : result Z :=
  if (0 <=? z) && (z <? 2 ^ 256) then Ok z
  else Err (fault "value out-of-bounds").

Definition encode_number (x : Num.number) : result Z :=
  Js.bind (from_number x) encode_uint.

(** [hexValue] of an integer, as the signer writes the value of a
    transaction before it sends it: a negative integer has no hex string.
    The quantity itself stands for its hex string. *)
Definition hexValue (z : Z) : result Z :=
  if z <? 0 then Err (fault "invalid hex string") else Ok z.

Definition hex_digit (d : Z) : ascii :=
  ascii_of_N (Z.to_N (if d <? 10 then 48 + d else 87 + d)).

Fixpoint hex_acc (fuel : nat) (z : Z) (acc : string) : string :=
  match fuel with
  | O => acc
  | S f =>
      if z =? 0 then acc
      else hex_acc f (z / 16) (String (hex_digit (z mod 16)) acc)
  end.

(** [hexlify] of a non-negative number: an even count of hex digits. *)
Definition hexlify (z : Z) : string :=
  let h := hex_acc (S (Z.to_nat (Z.log2 z))) z EmptyString in
  match h with
  | EmptyString => "0x00"
  | _ => if Nat.even (String.length h) then "0x" ++ h else "0x0" ++ h
  end.

End Ethers.

(** ** Dates

    [new Date(s)] reads a calendar date [YYYY-MM-DD], the date-only form
    of the language's own date format, as midnight UTC, and the empty
    string as an invalid date.  Any other string, a year of more than
    four digits or a day the month does not have among them, is read by
    rules of the engine's own; the component asks the world for that
    reading (see [new_Date]). *)

Module JsDate.

Import Chars.

Definition is_leap (y : Z) : bool :=
  ((y mod 4 =? 0) && negb (y mod 100 =? 0)) || (y mod 400 =? 0).

Definition days_in_month (y m : Z) : Z :=
  if m =? 2 then (if is_leap y then 29 else 28)
  else if (m =? 4) || (m =? 6) || (m =? 9) || (m =? 11) then 30
  else 31.

(** Days from 1970-01-01 to the given civil date. *)
Definition days_from_civil (y m d : Z) : Z :=
  let y' := if m <=? 2 then y - 1 else y in
  let era := y' / 400 in
  let yoe := y' - era * 400 in
  let mp := (m + 9) mod 12 in
  let doy := (153 * mp + 2) / 5 + d - 1 in
  let doe := yoe * 365 + yoe / 4 - yoe / 100 + doy in
  era * 146097 + doe - 719468.

Definition msPerDay : Z := 1000 * 60 * 60 * 24.

(** Time value in milliseconds of a date string in the date-only form,
    [None] for any other string. *)
Definition parse (s : string) : option Z :=
  match s with
  | String y1 (String y2 (String y3 (String y4 (String "-"
      (String m1 (String m2 (String "-" (String d1 (String d2 EmptyString))))))))) =>
      if is_digit y1 && is_digit y2 && is_digit y3 && is_digit y4
         && is_digit m1 && is_digit m2 && is_digit d1 && is_digit d2 then
        let y := digits_value (String y1 (String y2 (String y3 (String y4 EmptyString)))) in
        let m := digits_value (String m1 (String m2 EmptyString)) in
        let d := digits_value (String d1 (String d2 EmptyString)) in
        if (1 <=? m) && (m <=? 12) && (1 <=? d) && (d <=? days_in_month y m) then
          Some (days_from_civil y m d * msPerDay)
        else None
      else None
  | _ => None
  end.

(** The difference of two dates, the first of which can be invalid and
    the second of which reads [now] milliseconds.  Time values are
    integers of magnitude at most 8.64e15, which Numbers hold exactly, so
    the difference of two of them is the rounding of their exact
    difference. *)
Definition minus (target : option Z) (now : Z) : Num.number :=
  match target with
  | Some t => Num.of_Z (t - now)
  | None => Num.nan
  end.

(** [new Date(s) - new Date()] for a string in the date-only form or
    empty, the clock reading [now]. *)
Definition diff (s : string) (now : Z) : Num.number := minus (parse s) now.

End JsDate.

(** ** The component's data *)

(** Modelled from the spec: the interface descriptor
    [../contracts/LendingPlatform.json] is not among the sources.  The
    spec gives identifiers, timestamps and amounts as base-unit integers,
    and the component calls [toNumber] and [formatEther] on them, so every
    numeric field is an unsigned integer that ethers hands over as a
    [BigNumber]; addresses are strings. *)
Module Loan.
Record t : Type := mk
  { borrower : string;
    loanAmount : Z;
    endTime : Z;
    interestRate : Z;
    stake : Z }.
End Loan.

Module Request.
Record t : Type := mk
  { borrower : string;
    loanAmount : Z;
    duration : Z;
    stake : Z;
    interestRate : Z }.
End Request.

(** A row of the table, the object built in [loadActiveLoans].  An active
    row has no [duration] and a pending row no [endTime].  [endTime] keeps
    the time value of the date whose [toLocaleDateString()] is shown: the
    rendering depends on the locale of the browser. *)
Module LoanRow.
Record t : Type := mk
  { loanId : Num.number;
    borrower : string;
    loanAmount : string;
    endTime : option Num.number;
    duration : option Num.number;
    interestRate : Num.number;
    stake : string;
    state : string }.
End LoanRow.

Record FormData : Type := mkFormData
  { amount : string;
    date : string;
    collateral : string;
    interestRate : string }.

Definition emptyForm : FormData :=
  {| amount := ""; date := ""; collateral := ""; interestRate := "" |}.

(** [{ ...prev, [name]: value }].  The form has four named controls; a
    name other than these four does not occur. *)
Definition set_field (name value : string) (prev : FormData) : FormData :=
  if String.eqb name "amount" then
    {| amount := value; date := date prev; collateral := collateral prev;
       interestRate := interestRate prev |}
  else if String.eqb name "date" then
    {| amount := amount prev; date := value; collateral := collateral prev;
       interestRate := interestRate prev |}
  else if String.eqb name "collateral" then
    {| amount := amount prev; date := date prev; collateral := value;
       interestRate := interestRate prev |}
  else if String.eqb name "interestRate" then
    {| amount := amount prev; date := date prev; collateral := collateral prev;
       interestRate := value |}
  else prev.

(** The handle made by [new ethers.Contract(address, abi, signer)]. *)
Record Contract : Type := mkContract { address : string }.

Definition contractAddress : string := "0x9fE46736679d2D9a65F0992F2272dE9f3c7fa6e0".

(** The React state of the component: one field per [useState].
    [account] is [None] when it holds [undefined] (an empty [accounts]
    array was indexed). *)
Record State : Type := mkState
  { formData : FormData;
    account : option string;
    balance : string;
    contract : option Contract;
    activeLoans : list LoanRow.t;
    showToast : bool;
    toastMessage : string;
    toastVariant : string }.

Definition initialState : State :=
  {| formData := emptyForm;
     account := Some "";
     balance := "";
     contract := None;
     activeLoans := [];
     showToast := false;
     toastMessage := "";
     toastVariant := "success" |}.

Definition setFormData (f : FormData -> FormData) (s : State) : State :=
  {| formData := f (formData s); account := account s; balance := balance s;
     contract := contract s; activeLoans := activeLoans s;
     showToast := showToast s; toastMessage := toastMessage s;
     toastVariant := toastVariant s |}.

Definition setAccount (a : option string) (s : State) : State :=
  {| formData := formData s; account := a; balance := balance s;
     contract := contract s; activeLoans := activeLoans s;
     showToast := showToast s; toastMessage := toastMessage s;
     toastVariant := toastVariant s |}.

Definition setBalance (b : string) (s : State) : State :=
  {| formData := formData s; account := account s; balance := b;
     contract := contract s; activeLoans := activeLoans s;
     showToast := showToast s; toastMessage := toastMessage s;
     toastVariant := toastVariant s |}.

Definition setContract (c : option Contract) (s : State) : State :=
  {| formData := formData s; account := account s; balance := balance s;
     contract := c; activeLoans := activeLoans s;
     showToast := showToast s; toastMessage := toastMessage s;
     toastVariant := toastVariant s |}.

Definition setActiveLoans (l : list LoanRow.t) (s : State) : State :=
  {| formData := formData s; account := account s; balance := balance s;
     contract := contract s; activeLoans := l;
     showToast := showToast s; toastMessage := toastMessage s;
     toastVariant := toastVariant s |}.

Definition setShowToast (b : bool) (s : State) : State :=
  {| formData := formData s; account := account s; balance := balance s;
     contract := contract s; activeLoans := activeLoans s;
     showToast := b; toastMessage := toastMessage s;
     toastVariant := toastVariant s |}.

Definition setToastMessage (m : string) (s : State) : State :=
  {| formData := formData s; account := account s; balance := balance s;
     contract := contract s; activeLoans := activeLoans s;
     showToast := showToast s; toastMessage := m;
     toastVariant := toastVariant s |}.

Definition setToastVariant (v : string) (s : State) : State :=
  {| formData := formData s; account := account s; balance := balance s;
     contract := contract s; activeLoans := activeLoans s;
     showToast := showToast s; toastMessage := toastMessage s;
     toastVariant := v |}.

(** [!account]: [undefined] and the empty string are falsy. *)
Definition connected (a : option string) : option string :=
  match a with
  | Some (String c r) => Some (String c r)
  | _ => None
  end.

(** ** Calls to the environment

    Each constructor is one operation the component asks of the world
    outside it, indexed by the type of the answer.  An operation that can
    reject or throw answers with a [result].

    A call of a contract method asks the signer for its address, a
    request to the wallet, then encodes its arguments, then reads or
    sends.  [GetAddress] is the request for the address;
    [ActiveLoans], [CreateLoanRequestTx] and [RepayLoanTx] are the read
    or the send that follows the encoding, with the arguments as encoded.
    [GetAllActiveLoans] has no argument to encode and stands for the call
    of the method as a whole.  [DateParse] is the reading of a date
    string by the rules of the engine's own. *)

(** What [response.json()] yields, as far as [data.ethereum.usd] reads it:
    [None] when [data.ethereum] is missing (reading [usd] then throws),
    [Some None] when [usd] is missing, [Some (Some p)] for a price. *)
Definition PriceData : Type := option (option Num.number).

Definition AllLoans : Type :=
  (list Z * list Loan.t * list Z * list Request.t)%type.

Inductive Call : Type -> Type :=
| RequestAccounts : Call (result (list string))
| GetAddress : Call (result string)
| Web3Provider : Call (result unit)
| GetBalance (addr : option string) : Call (result Z)
| GetTransactionCount (addr : option string) : Call (result Z)
| OnAccountsChanged : Call (result unit)
| CreateLoanRequestTx (loanAmount durationInDays rate : Z)
    (value nonce : Z) (gasLimit : string) : Call (result Z)
| RepayLoanTx (loanId : Z) (value : Z) (gasLimit : string) : Call (result Z)
| Wait (tx : Z) : Call (result unit)
| GetAllActiveLoans : Call (result AllLoans)
| ActiveLoans (loanId : Z) : Call (result Loan.t)
| Fetch (url : string) : Call (result unit)
| ResponseJson : Call (result PriceData)
| NewDate : Call Z
| DateParse (s : string) : Call (option Z)
| ConsoleError (label : string) (error : Error) : Call unit
| PreventDefault : Call unit.

(** A call together with the answer it got. *)
Inductive Entry : Type :=
| Called {X : Type} (c : Call X) (answer : X).

Definition Trace : Type := list Entry.

(** The world answers a call knowing what was asked before. *)
Definition World : Type := Trace -> forall X : Type, Call X -> X.

(** Calls that go to the network: wallet, chain and price service. *)
Definition is_network {X : Type} (c : Call X) : bool :=
  match c with
  | NewDate | DateParse _ | ConsoleError _ _ | PreventDefault => false
  | _ => true
  end.

(** Calls that submit a transaction. *)
Definition is_transaction {X : Type} (c : Call X) : bool :=
  match c with
  | CreateLoanRequestTx _ _ _ _ _ _ | RepayLoanTx _ _ _ => true
  | _ => false
  end.

(** Reads of the contract. *)
Definition is_read {X : Type} (c : Call X) : bool :=
  match c with
  | GetAllActiveLoans | ActiveLoans _ => true
  | _ => false
  end.

Definition entry_is (p : forall X : Type, Call X -> bool) (e : Entry) : bool :=
  match e with
  | Called c _ => p _ c
  end.

Definition network_calls (tr : Trace) : Trace := filter (entry_is (@is_network)) tr.
Definition transactions (tr : Trace) : Trace := filter (entry_is (@is_transaction)) tr.
Definition reads (tr : Trace) : Trace := filter (entry_is (@is_read)) tr.

(** ** Programs

    A handler is a finite tree: it returns, throws, updates the React
    state through a setter, or asks the world and goes on with the
    answer. *)

Inductive prog (A : Type) : Type :=
| Ret (a : A)
| Throw (e : Error)
| Upd (f : State -> State) (k : prog A)
| Do {X : Type} (c : Call X) (k : X -> prog A).

Arguments Ret {A} a.
Arguments Throw {A} e.
Arguments Upd {A} f k.
Arguments Do {A X} c k.

Fixpoint bind {A B : Type} (p : prog A) (f : A -> prog B) : prog B :=
  match p with
  | Ret a => f a
  | Throw e => Throw e
  | Upd g k => Upd g (bind k f)
  | Do c k => Do c (fun x => bind (k x) f)
  end.

(** [try { p } catch (error) { h error }]. *)
Fixpoint try_catch {A : Type} (p : prog A) (h : Error -> prog A) : prog A :=
  match p with
  | Ret a => Ret a
  | Throw e => h e
  | Upd g k => Upd g (try_catch k h)
  | Do c k => Do c (fun x => try_catch (k x) h)
  end.

Declare Scope prog_scope.
Delimit Scope prog_scope with prog.
Bind Scope prog_scope with prog.

Notation "x <- p ;; q" := (bind p (fun x => q))
  (at level 61, p at next level, right associativity) : prog_scope.
Notation "p ;; q" := (bind p (fun _ => q))
  (at level 61, right associativity) : prog_scope.

Local Open Scope prog_scope.

(** A setter call. *)
Definition set (f : State -> State) : prog unit := Upd f (Ret tt).

(** A call that cannot fail. *)
Definition ask {X : Type} (c : Call X) : prog X := Do c Ret.

(** [await] of a call that can reject, or a call that can throw. *)
Definition await {X : Type} (c : Call (result X)) : prog X :=
  Do c (fun r => match r with Ok x => Ret x | Err e => Throw e end).

(** A pure computation that can throw. *)
Definition lift {A : Type} (r : result A) : prog A :=
  match r with
  | Ok a => Ret a
  | Err e => Throw e
  end.

(** How a run ends. *)
Inductive Outcome (A : Type) : Type :=
| Returned (a : A)
| Threw (e : Error).

Arguments Returned {A} a.
Arguments Threw {A} e.

(** Running a program: the state it leaves, the calls it made, in order,
    after those of [tr], and how it ended. *)
Fixpoint run {A : Type} (w : World) (p : prog A) (s : State) (tr : Trace)
  : Outcome A * State * Trace :=
  match p with
  | Ret a => (Returned a, s, tr)
  | Throw e => (Threw e, s, tr)
  | Upd f k => run w k (f s) tr
  | Do c k => let x := w tr _ c in run w (k x) s (tr ++ [Called c x])%list
  end.

Definition outcome {A} (r : Outcome A * State * Trace) : Outcome A := fst (fst r).
Definition final {A} (r : Outcome A * State * Trace) : State := snd (fst r).
Definition trace {A} (r : Outcome A * State * Trace) : Trace := snd r.

(** ** The handlers of the component

    A handler is a closure made at a render: [snap] is the state of that
    render, from which it reads [contract], [account] and [formData].  The
    setters act on the live state, which [run] threads. *)

Import Ethers.

(** Show toast notifications. *)
Definition showToastMessage (message variant : string) : prog unit :=
  set (setToastMessage message) ;;
  set (setToastVariant variant) ;;
  set (setShowToast true).

(** Initialize the smart contract connection. *)
Definition loadContract : prog unit :=
  try_catch
    (_ <- await Web3Provider ;;
     set (setContract (Some (mkContract contractAddress))))
    (fun error =>
       ask (ConsoleError "Error loading contract:" error) ;;
       showToastMessage "Error loading contract" "danger").

(** The listener registered for the wallet's [accountsChanged] event. *)
Definition accountsChanged (accounts : list string) : prog unit :=
  set (setAccount (hd_error accounts)) ;;
  newBalance <- await (GetBalance (hd_error accounts)) ;;
  set (setBalance (formatEther newBalance)).

(** Connect to the wallet and set up the account change listener. *)
Definition connectWallet : prog unit :=
  try_catch
    (accounts <- await RequestAccounts ;;
     set (setAccount (hd_error accounts)) ;;
     _ <- await Web3Provider ;;
     balance <- await (GetBalance (hd_error accounts)) ;;
     set (setBalance (formatEther balance)) ;;
     await OnAccountsChanged)
    (fun error =>
       ask (ConsoleError "Error connecting:" error) ;;
       showToastMessage "Error connecting to wallet" "danger").

(** Update the user's balance. *)
Definition updateBalance (snap : State) : prog unit :=
  _ <- await Web3Provider ;;
  newBalance <- await (GetBalance (account snap)) ;;
  set (setBalance (formatEther newBalance)).

(** Handle form input changes with validation. *)
Definition handleInputChange (name value : string) : prog unit :=
  if String.eqb name "interestRate" then
    let rate := Num.parseFloat value in
    if Num.ltb (Num.of_Z 7) rate then
      showToastMessage "Interest rate cannot exceed 7%" "warning"
    else if Num.ltb rate (Num.of_Z 0) then
      showToastMessage "Interest rate cannot be negative" "warning"
    else set (setFormData (set_field name value))
  else set (setFormData (set_field name value)).

(** The object built for an active loan, and for a loan request. *)
Definition active_row (loans : list Loan.t) (id : Z) (index : nat) : result LoanRow.t :=
  Js.bind (toNumber id) (fun loanId =>
  match nth_error loans index with
  | None => Err TypeError
  | Some loan =>
      Js.bind (toNumber (Loan.endTime loan)) (fun endTime =>
      Js.bind (toNumber (Loan.interestRate loan)) (fun rate =>
      Ok {| LoanRow.loanId := loanId;
            LoanRow.borrower := Loan.borrower loan;
            LoanRow.loanAmount := formatEther (Loan.loanAmount loan);
            LoanRow.endTime := Some (Num.mul endTime (Num.of_Z 1000));
            LoanRow.duration := None;
            LoanRow.interestRate := rate;
            LoanRow.stake := formatEther (Loan.stake loan);
            LoanRow.state := "ACTIVE" |}))
  end).

Definition request_row (requests : list Request.t) (id : Z) (index : nat) : result LoanRow.t :=
  Js.bind (toNumber id) (fun loanId =>
  match nth_error requests index with
  | None => Err TypeError
  | Some request =>
      Js.bind (toNumber (Request.duration request)) (fun duration =>
      Js.bind (toNumber (Request.interestRate request)) (fun rate =>
      Ok {| LoanRow.loanId := loanId;
            LoanRow.borrower := Request.borrower request;
            LoanRow.loanAmount := formatEther (Request.loanAmount request);
            LoanRow.endTime := None;
            LoanRow.duration := Some duration;
            LoanRow.interestRate := rate;
            LoanRow.stake := formatEther (Request.stake request);
            LoanRow.state := "PENDING" |}))
  end).

(** [ids.map((id, index) => f(id, index))] with a callback that can throw. *)
Fixpoint map_index {A B : Type} (f : A -> nat -> result B) (l : list A) (index : nat)
  : result (list B) :=
  match l with
  | [] => Ok []
  | a :: r =>
      Js.bind (f a index) (fun b =>
      Js.bind (map_index f r (S index)) (fun bs => Ok (b :: bs)))
  end.

(** [loan.borrower.toLowerCase() === account.toLowerCase()]. *)
Definition same_borrower (account : string) (loan : LoanRow.t) : bool :=
  String.eqb (Chars.toLowerCase (LoanRow.borrower loan)) (Chars.toLowerCase account).

(** The guarded block of [loadActiveLoans], for a connected account. *)
Definition loadActiveLoans_try (account : string) : prog unit :=
  all <- await GetAllActiveLoans ;;
  let '(loanIds, loans, requestIds, requests) := all in
  activeLoansData <- lift (map_index (active_row loans) loanIds 0) ;;
  requestLoansData <- lift (map_index (request_row requests) requestIds 0) ;;
  let combinedLoans :=
    filter (same_borrower account) (activeLoansData ++ requestLoansData)%list in
  set (setActiveLoans combinedLoans).

Definition loadActiveLoans_catch (error : Error) : prog unit :=
  ask (ConsoleError "Error loading loans:" error) ;;
  showToastMessage "Error loading loans" "danger".

(** Load all active loans and loan requests. *)
Definition loadActiveLoans (snap : State) : prog unit :=
  match contract snap, connected (account snap) with
  | Some _, Some acct => try_catch (loadActiveLoans_try acct) loadActiveLoans_catch
  | _, _ => Ret tt
  end.

(** [new Date(s)]: the time value of the date, [None] for an invalid
    date. *)
Definition new_Date (s : string) : prog (option Z) :=
  match JsDate.parse s with
  | Some t => Ret (Some t)
  | None => if String.eqb s "" then Ret None else ask (DateParse s)
  end.

(** The guarded block of [createLoanRequest].  The contract method asks
    the signer for its address, then encodes its three arguments as
    unsigned integers; an argument that does not encode throws.  The
    value attached is written in hex before the transaction is sent; a
    negative value throws there. *)
Definition createLoanRequest_try (snap : State) : prog unit :=
  amountInWei <- lift (parseEther (amount (formData snap))) ;;
  collateralInWei <- lift (parseEther (collateral (formData snap))) ;;
  target <- new_Date (date (formData snap)) ;;
  now <- ask NewDate ;;
  let durationInDays :=
    Num.ceil (Num.div (JsDate.minus target now)
                      (Num.of_Z (1000 * 60 * 60 * 24))) in
  let rate := Num.floor (Num.of_string (interestRate (formData snap))) in
  if Num.leb durationInDays (Num.of_Z 0) then
    showToastMessage "Repayment date must be in the future" "warning"
  else
    _ <- await Web3Provider ;;
    nonce <- await (GetTransactionCount (account snap)) ;;
    _ <- await GetAddress ;;
    loanAmount <- lift (encode_uint amountInWei) ;;
    days <- lift (encode_number durationInDays) ;;
    percent <- lift (encode_number rate) ;;
    value <- lift (hexValue collateralInWei) ;;
    tx <- await (CreateLoanRequestTx loanAmount days percent
                   value nonce (hexlify 1000000)) ;;
    await (Wait tx) ;;
    updateBalance snap ;;
    loadActiveLoans snap ;;
    set (setFormData (fun _ => emptyForm)) ;;
    showToastMessage "Loan request created successfully" "success".

Definition createLoanRequest_catch (error : Error) : prog unit :=
  ask (ConsoleError "Error:" error) ;;
  showToastMessage (reason_or error "Transaction failed") "danger".

(** Create a new loan request. *)
Definition createLoanRequest (snap : State) : prog unit :=
  ask PreventDefault ;;
  match contract snap with
  | None => Ret tt
  | Some _ => try_catch (createLoanRequest_try snap) createLoanRequest_catch
  end.

Definition priceUrl : string :=
  "https://api.coingecko.com/api/v3/simple/price?ids=ethereum&vs_currencies=usd".

(** The price, or [None] for [null] and [undefined]. *)
Definition getEthPrice : prog (option Num.number) :=
  try_catch
    (_ <- await (Fetch priceUrl) ;;
     data <- await ResponseJson ;;
     match data with
     | Some usd => Ret usd
     | None => Throw TypeError
     end)
    (fun error =>
       ask (ConsoleError "Error fetching ETH price:" error) ;;
       Ret None).

(** [!currentEthPrice] fails: the price is a Number other than 0 and NaN. *)
Definition truthy_price (p : option Num.number) : option Num.number :=
  match p with
  | Some x => if Num.falsy x then None else Some x
  | None => None
  end.

(** The amount sent with a repayment, from the loan and the price. *)
Definition totalDue (loan : Loan.t) (currentEthPrice : Num.number) : result Z :=
  let loanAmountInEth := formatEther (Loan.loanAmount loan) in
  let loanAmountInUSD := Num.mul (Num.of_string loanAmountInEth) currentEthPrice in
  let requiredEthAmount := Num.div loanAmountInUSD currentEthPrice in
  Js.bind (parseEther (Num.toString requiredEthAmount)) (fun requiredEthWei =>
  let interest := bn_div (requiredEthWei * Loan.interestRate loan) 100 in
  Ok (requiredEthWei + interest)).

(** The guarded block of [repayLoan].  [loanId] is the Number kept in the
    row of the table; each of the two contract methods asks the signer
    for its address and then encodes the id as an unsigned integer.  The
    value attached is written in hex before the transaction is sent. *)
Definition repayLoan_try (snap : State) (loanId : Num.number) : prog unit :=
  _ <- await GetAddress ;;
  id <- lift (encode_number loanId) ;;
  loan <- await (ActiveLoans id) ;;
  currentEthPrice <- getEthPrice ;;
  match truthy_price currentEthPrice with
  | None => showToastMessage "Error fetching ETH price" "danger"
  | Some price =>
      due <- lift (totalDue loan price) ;;
      _ <- await GetAddress ;;
      id <- lift (encode_number loanId) ;;
      value <- lift (hexValue due) ;;
      tx <- await (RepayLoanTx id value (hexlify 1000000)) ;;
      await (Wait tx) ;;
      showToastMessage "Loan repaid successfully" "success" ;;
      updateBalance snap ;;
      loadActiveLoans snap
  end.

Definition repayLoan_catch (error : Error) : prog unit :=
  ask (ConsoleError "Error repaying loan:" error) ;;
  showToastMessage (reason_or error "Error repaying loan") "danger".

(** Repay an active loan. *)
Definition repayLoan (snap : State) (loanId : Num.number) : prog unit :=
  match contract snap with
  | None => Ret tt
  | Some _ => try_catch (repayLoan_try snap loanId) repayLoan_catch
  end.

(** The effect run on mount; its three calls are closures of the first
    render. *)
Definition init (snap : State) : prog unit :=
  connectWallet ;;
  loadContract ;;
  loadActiveLoans snap.

(** The props the render gives the toast widget, and its close callback. *)
Record ToastProps : Type := mkToastProps
  { show : bool;
    delay : Z;
    autohide : bool;
    className : string;
    body : string }.

Definition renderToast (s : State) : ToastProps :=
  {| show := showToast s;
     delay := 3000;
     autohide := true;
     className := "bg-" ++ toastVariant s ++ " text-white";
     body := toastMessage s |}.

Definition onClose : prog unit := set (setShowToast false).

(** ** The toast widget and its timeout

    The widget hides the toast by itself.  It keeps one timeout, which it
    sets anew, for [delay] milliseconds, after a render that changes
    whether the toast is both shown and to be hidden automatically, and
    after no other render: a render that only changes the message or the
    severity of a toast that is showing leaves the timeout as it is.
    When the timeout runs and the toast was shown, to be hidden
    automatically, when the timeout was set, the widget calls
    [onClose]. *)

Record Widget : Type := mkWidget
  { autohideToast : bool;
    timeout : option Z }.

(** The effect of the widget after a render at time [now]. *)
Definition afterRender (now : Z) (props : ToastProps) (wd : Widget) : Widget :=
  let hide := autohide props && show props in
  if Bool.eqb hide (autohideToast wd) then wd
  else {| autohideToast := hide; timeout := Some (now + delay props) |}.

(** The component on the screen: its state, the widget, and the time in
    milliseconds. *)
Record Screen : Type := mkScreen
  { shown : State;
    widget : Widget;
    time : Z }.

(** The first render, at time 0. *)
Definition mounted : Screen :=
  {| shown := initialState;
     widget :=
       {| autohideToast :=
            autohide (renderToast initialState) && show (renderToast initialState);
          timeout := Some (0 + delay (renderToast initialState)) |};
     time := 0 |}.

(** A state update and the render that follows it. *)
Definition update (f : State -> State) (sc : Screen) : Screen :=
  {| shown := f (shown sc);
     widget := afterRender (time sc) (renderToast (f (shown sc))) (widget sc);
     time := time sc |}.

(** The state updates a program makes before it asks the world
    anything, each followed by a render. *)
Fixpoint perform (p : prog unit) (sc : Screen) : Screen :=
  match p with
  | Upd f k => perform k (update f sc)
  | _ => sc
  end.

(** [showToastMessage] is called, by whatever handler. *)
Definition notify (message variant : string) (sc : Screen) : Screen :=
  perform (showToastMessage message variant) sc.

(** The timeout runs. *)
Definition fire (sc : Screen) : Screen :=
  match timeout (widget sc) with
  | None => sc
  | Some t =>
      let idle :=
        {| shown := shown sc;
           widget := {| autohideToast := autohideToast (widget sc); timeout := None |};
           time := t |} in
      if autohideToast (widget sc) then perform onClose idle else idle
  end.

Definition expired (until : Z) (sc : Screen) : bool :=
  match timeout (widget sc) with
  | Some t => t <=? until
  | None => false
  end.

Definition tick (until : Z) (sc : Screen) : Screen :=
  if expired until sc then fire sc else sc.

(** [ms] milliseconds pass in which nothing happens but what the timeout
    does.  A timeout that closes the toast sets one more, which does
    nothing when it runs and sets none; so no more than two run. *)
Definition elapse (ms : Z) (sc : Screen) : Screen :=
  let until := time sc + ms in
  let sc' := tick until (tick until sc) in
  {| shown := shown sc'; widget := widget sc'; time := until |}.

(** ** The component as a transition system *)

Inductive Action : Type :=
| Mount
| Refresh
| InputChange (name value : string)
| Submit
| Repay (loanId : Num.number)
| AccountsChanged (accounts : list string)
| ToastClose.

Definition handler (a : Action) (snap : State) : prog unit :=
  match a with
  | Mount => init snap
  | Refresh => loadActiveLoans snap
  | InputChange name value => handleInputChange name value
  | Submit => createLoanRequest snap
  | Repay loanId => repayLoan snap loanId
  | AccountsChanged accounts => accountsChanged accounts
  | ToastClose => onClose
  end.

(** The handlers are asynchronous: between two of its steps a handler
    that is under way can be overtaken by the steps of another.  A
    configuration is the live state with the handlers under way.  A step
    starts a handler, closed over the state of any render, or takes one
    handler under way one step further: a setter acts on the live state,
    a call gets whatever answer the world gives, a handler that has
    returned or thrown leaves. *)
Definition Pool : Type := list (prog unit).

Definition Config : Type := (State * Pool)%type.

Inductive step : Config -> Config -> Prop :=
| step_dispatch (s : State) (pool : Pool) (a : Action) (snap : State) :
    step (s, pool) (s, (pool ++ [handler a snap])%list)
| step_update (s : State) (pre post : Pool) (f : State -> State) (k : prog unit) :
    step (s, (pre ++ Upd f k :: post)%list) (f s, (pre ++ k :: post)%list)
| step_answer (s : State) (pre post : Pool) {X : Type} (c : Call X)
    (k : X -> prog unit) (x : X) :
    step (s, (pre ++ Do c k :: post)%list) (s, (pre ++ k x :: post)%list)
| step_return (s : State) (pre post : Pool) (a : unit) :
    step (s, (pre ++ Ret a :: post)%list) (s, (pre ++ post)%list)
| step_throw (s : State) (pre post : Pool) (e : Error) :
    step (s, (pre ++ Throw e :: post)%list) (s, (pre ++ post)%list).

Inductive reachable_config : Config -> Prop :=
| reach_initial : reachable_config (initialState, [])
| reach_step (c c' : Config) : reachable_config c -> step c c' -> reachable_config c'.

(** The states the component can be in. *)
Definition reachable (s : State) : Prop :=
  exists pool, reachable_config (s, pool).

(** ** The vocabulary of the properties *)

(** The state after [showToastMessage message variant]. *)
Definition toasted (message variant : string) (s : State) : State :=
  setShowToast true (setToastVariant variant (setToastMessage message s)).

(** The three severities of a notification. *)
Definition severity (v : string) : Prop :=
  v = "success" \/ v = "warning" \/ v = "danger".

(** What the claims call a value outside [[0,7]]: a Number below 0 or
    above 7.  NaN, which [parseFloat] gives for text that is no number, is
    not a value and is not outside. *)
Definition outside_0_7 (x : Num.number) : Prop :=
  match Num.value x with
  | Some (Num.Finite q) => (q < 0 \/ 7 < q)%Q
  | Some _ => True
  | None => False
  end.

(** A Number that is not NaN and has the sign [sx]. *)
Definition signed (sx : bool) (x : Num.number) : Prop :=
  match x with
  | S754_zero s | S754_finite s _ _ | S754_infinity s => s = sx
  | S754_nan => False
  end.

(** Zero, a negative Number or minus infinity. *)
Definition nonpositive (x : Num.number) : Prop :=
  match x with
  | S754_zero _ | S754_finite true _ _ | S754_infinity true => True
  | _ => False
  end.

(** The row shown for a loan and for a request, as the table describes
    them. *)
Definition active_view (p : Z * Loan.t) : LoanRow.t :=
  let (id, loan) := p in
  {| LoanRow.loanId := Num.of_Z id;
     LoanRow.borrower := Loan.borrower loan;
     LoanRow.loanAmount := formatEther (Loan.loanAmount loan);
     LoanRow.endTime := Some (Num.mul (Num.of_Z (Loan.endTime loan)) (Num.of_Z 1000));
     LoanRow.duration := None;
     LoanRow.interestRate := Num.of_Z (Loan.interestRate loan);
     LoanRow.stake := formatEther (Loan.stake loan);
     LoanRow.state := "ACTIVE" |}.

Definition request_view (p : Z * Request.t) : LoanRow.t :=
  let (id, request) := p in
  {| LoanRow.loanId := Num.of_Z id;
     LoanRow.borrower := Request.borrower request;
     LoanRow.loanAmount := formatEther (Request.loanAmount request);
     LoanRow.endTime := None;
     LoanRow.duration := Some (Num.of_Z (Request.duration request));
     LoanRow.interestRate := Num.of_Z (Request.interestRate request);
     LoanRow.stake := formatEther (Request.stake request);
     LoanRow.state := "PENDING" |}.

(** Two addresses that differ at most in the case of their letters. *)
Definition same_address (a b : string) : Prop :=
  Chars.toLowerCase a = Chars.toLowerCase b.

(** An integer that [toNumber] accepts. *)
Definition safe (z : Z) : Prop := Z.abs z < 2 ^ 53.

Definition loan_safe (loan : Loan.t) : Prop :=
  safe (Loan.endTime loan) /\ safe (Loan.interestRate loan).

Definition request_safe (request : Request.t) : Prop :=
  safe (Request.duration request) /\ safe (Request.interestRate request).

(** [total p]: no path of [p] ends in a throw. *)
Inductive total {A : Type} : prog A -> Prop :=
| total_Ret (a : A) : total (Ret a)
| total_Upd (f : State -> State) (k : prog A) : total k -> total (Upd f k)
| total_Do {X : Type} (c : Call X) (k : X -> prog A) :
    (forall x, total (k x)) -> total (Do c k).

(** [keeps P p]: every state update of [p] takes a state with [P] to a
    state with [P]. *)
Fixpoint keeps (P : State -> Prop) {A : Type} (p : prog A) : Prop :=
  match p with
  | Ret _ | Throw _ => True
  | Upd f k => (forall s, P s -> P (f s)) /\ keeps P k
  | Do c k => forall x, keeps P (k x)
  end.

(** The invariant of the notification slot. *)
Definition toast_ok (s : State) : Prop := severity (toastVariant s).


(** ** Worlds to run the handlers in

    A world that gives the same answer to a call whenever it is asked. *)

Record Answers : Type := mkAnswers
  { accounts_answer : result (list string);
    signer_answer : result string;
    provider_answer : result unit;
    balance_answer : result Z;
    nonce_answer : result Z;
    listener_answer : result unit;
    create_answer : result Z;
    repay_answer : result Z;
    wait_answer : result unit;
    loans_answer : result AllLoans;
    loan_answer : result Loan.t;
    fetch_answer : result unit;
    json_answer : result PriceData;
    clock : Z;
    date_answer : option Z }.

Definition answering (a : Answers) : World :=
  fun _ X c =>
    match c in Call T return T with
    | RequestAccounts => accounts_answer a
    | GetAddress => signer_answer a
    | Web3Provider => provider_answer a
    | GetBalance _ => balance_answer a
    | GetTransactionCount _ => nonce_answer a
    | OnAccountsChanged => listener_answer a
    | CreateLoanRequestTx _ _ _ _ _ _ => create_answer a
    | RepayLoanTx _ _ _ => repay_answer a
    | Wait _ => wait_answer a
    | GetAllActiveLoans => loans_answer a
    | ActiveLoans _ => loan_answer a
    | Fetch _ => fetch_answer a
    | ResponseJson => json_answer a
    | NewDate => clock a
    | DateParse _ => date_answer a
    | ConsoleError _ _ => tt
    | PreventDefault => tt
    end.

Definition alice : string := "0x70997970c51812dc3a010c7d01b50e0d17dc79c8".
Definition aliceChecksummed : string := "0x70997970C51812dc3A010C7d01b50e0d17dc79C8".
Definition bob : string := "0x3C44CdDdB6a900fa2b585dd299e03d12FA4293BC".

(** A loan of 1.5 ether at 5 percent. *)
Definition aliceLoan : Loan.t :=
  {| Loan.borrower := aliceChecksummed;
     Loan.loanAmount := 1500000000000000000;
     Loan.endTime := 1767225600;
     Loan.interestRate := 5;
     Loan.stake := 3000000000000000000 |}.

Definition bobRequest : Request.t :=
  {| Request.borrower := bob;
     Request.loanAmount := 1000000000000000000;
     Request.duration := 30;
     Request.stake := 2000000000000000000;
     Request.interestRate := 3 |}.

Definition aliceRequest : Request.t :=
  {| Request.borrower := alice;
     Request.loanAmount := 200000000000000000;
     Request.duration := 14;
     Request.stake := 400000000000000000;
     Request.interestRate := 7 |}.

(** Midnight UTC of 2025-01-01, in milliseconds. *)
Definition newYear2025 : Z := 1735689600000.

(** Everything succeeds; the chain holds one loan of alice and two
    requests; ether trades at [price] dollars. *)
Definition fairWeather (price : Num.number) : Answers :=
  {| accounts_answer := Ok [alice];
     signer_answer := Ok alice;
     provider_answer := Ok tt;
     balance_answer := Ok 5000000000000000000;
     nonce_answer := Ok 7;
     listener_answer := Ok tt;
     create_answer := Ok 1;
     repay_answer := Ok 2;
     wait_answer := Ok tt;
     loans_answer := Ok ([4], [aliceLoan], [5; 6], [bobRequest; aliceRequest]);
     loan_answer := Ok aliceLoan;
     fetch_answer := Ok tt;
     json_answer := Ok (Some (Some price));
     clock := newYear2025;
     date_answer := None |}.

(** A session of alice, contract bound, form empty. *)
Definition aliceSession : State :=
  {| formData := emptyForm;
     account := Some alice;
     balance := "5.0";
     contract := Some (mkContract contractAddress);
     activeLoans := [];
     showToast := false;
     toastMessage := "";
     toastVariant := "success" |}.

(** A submission dated on the very day of the clock, at midnight. *)
Definition staleSubmission : State :=
  setFormData
    (fun _ => {| amount := "1.0"; date := "2025-01-01"; collateral := "2.0";
                 interestRate := "5" |})
    aliceSession.

(** A submission dated on the day of the clock whose amount is written
    with an exponent, which the number control of the form accepts. *)
Definition exponentSubmission : State :=
  setFormData
    (fun _ => {| amount := "1e5"; date := "2025-01-01"; collateral := "2e5";
                 interestRate := "5" |})
    aliceSession.

(** The form of the end-to-end scenario: a due date ten days after the
    clock of the sample worlds. *)
Definition tenDaySubmission : State :=
  setFormData
    (fun _ => {| amount := "1.0"; date := "2025-01-11"; collateral := "2.0";
                 interestRate := "5" |})
    aliceSession.

(** A request whose duration does not fit a Number. *)
Definition endlessRequest : Request.t :=
  {| Request.borrower := bob;
     Request.loanAmount := 1000000000000000000;
     Request.duration := 9007199254740992;
     Request.stake := 2000000000000000000;
     Request.interestRate := 3 |}.

Definition endlessChain : Answers :=
  {| accounts_answer := Ok [alice];
     signer_answer := Ok alice;
     provider_answer := Ok tt;
     balance_answer := Ok 5000000000000000000;
     nonce_answer := Ok 7;
     listener_answer := Ok tt;
     create_answer := Ok 1;
     repay_answer := Ok 2;
     wait_answer := Ok tt;
     loans_answer := Ok ([4], [aliceLoan], [5], [endlessRequest]);
     loan_answer := Ok aliceLoan;
     fetch_answer := Ok tt;
     json_answer := Ok (Some (Some (Num.of_Z 2000)));
     clock := newYear2025;
     date_answer := None |}.

(** The session of alice while the table still shows a row of bob. *)
Definition staleSession : State :=
  setActiveLoans [request_view (5, bobRequest)] aliceSession.

(** The chain rejects every transaction and read with a revert reason. *)
Definition revertingChain : Answers :=
  {| accounts_answer := Ok [alice];
     signer_answer := Ok alice;
     provider_answer := Ok tt;
     balance_answer := Ok 5000000000000000000;
     nonce_answer := Ok 7;
     listener_answer := Ok tt;
     create_answer := Err (fault "Insufficient collateral");
     repay_answer := Err (fault "Insufficient repayment");
     wait_answer := Ok tt;
     loans_answer := Err (fault "Platform paused");
     loan_answer := Ok aliceLoan;
     fetch_answer := Ok tt;
     json_answer := Ok (Some (Some (Num.of_Z 2000)));
     clock := newYear2025;
     date_answer := None |}.

(** The price service is down. *)
Definition priceOutage : Answers :=
  {| accounts_answer := Ok [alice];
     signer_answer := Ok alice;
     provider_answer := Ok tt;
     balance_answer := Ok 5000000000000000000;
     nonce_answer := Ok 7;
     listener_answer := Ok tt;
     create_answer := Ok 1;
     repay_answer := Ok 2;
     wait_answer := Ok tt;
     loans_answer := Ok ([4], [aliceLoan], [5; 6], [bobRequest; aliceRequest]);
     loan_answer := Ok aliceLoan;
     fetch_answer := Err TypeError;
     json_answer := Ok None;
     clock := newYear2025;
     date_answer := None |}.

(** A loan of 100 base units. *)
Definition dustLoan : Loan.t :=
  {| Loan.borrower := aliceChecksummed;
     Loan.loanAmount := 100;
     Loan.endTime := 1767225600;
     Loan.interestRate := 5;
     Loan.stake := 200 |}.

(** ** The table of loans

    The rows the render makes of [activeLoans].  A cell holds text, the
    rendering of a date in the locale of the browser, or nothing (React
    renders [undefined] and [false] as nothing). *)

Inductive Cell : Type :=
| Text (s : string)
| LocaleDate (t : Num.number)
| Nothing.

Record TableRow : Type := mkTableRow
  { key : Num.number;
    idCell : Cell;
    amountCell : Cell;
    dueCell : Cell;
    rateCell : Cell;
    stakeCell : Cell;
    badgeBg : string;
    badgeText : string;
    repayButton : option Num.number }.

(** One [<tr>].  [repayButton] is the argument its Repay button gives
    [repayLoan], when the row has the button. *)
Definition renderRow (loan : LoanRow.t) : TableRow :=
  let active := String.eqb (LoanRow.state loan) "ACTIVE" in
  {| key := LoanRow.loanId loan;
     idCell := Text (Num.toString (LoanRow.loanId loan));
     amountCell := Text (LoanRow.loanAmount loan ++ " ETH");
     dueCell :=
       if active then
         match LoanRow.endTime loan with
         | Some t => LocaleDate t
         | None => Nothing
         end
       else
         Text (match LoanRow.duration loan with
               | Some d => Num.toString d
               | None => "undefined"
               end ++ " days");
     rateCell := Text (Num.toString (LoanRow.interestRate loan) ++ "%");
     stakeCell :=
       Text (match LoanRow.stake loan with
             | EmptyString => "N/A"
             | stake => stake
             end ++ " ETH");
     badgeBg := if active then "warning" else "info";
     badgeText := LoanRow.state loan;
     repayButton := if active then Some (LoanRow.loanId loan) else None |}.

Definition renderTable (s : State) : list TableRow :=
  map renderRow (activeLoans s).

(** The loans the Repay buttons of the table stand for, top to bottom. *)
Fixpoint repayButtons (rows : list TableRow) : list Num.number :=
  match rows with
  | [] => []
  | row :: rest =>
      match repayButton row with
      | Some id => id :: repayButtons rest
      | None => repayButtons rest
      end
  end.

(** ** More vocabulary *)

(** [never kind p]: no path of [p] makes a call of the given kind. *)
Fixpoint never (kind : forall X : Type, Call X -> bool) {A : Type} (p : prog A) : Prop :=
  match p with
  | Ret _ | Throw _ => True
  | Upd _ k => never kind k
  | Do c k => kind _ c = false /\ forall x, never kind (k x)
  end.

(** [sends_at_most n p]: no path of [p] submits more than [n]
    transactions. *)
Fixpoint sends_at_most {A : Type} (n : nat) (p : prog A) : Prop :=
  match p with
  | Ret _ | Throw _ => True
  | Upd _ k => sends_at_most n k
  | Do c k =>
      if is_transaction c then
        match n with
        | O => False
        | S m => forall x, sends_at_most m (k x)
        end
      else forall x, sends_at_most n (k x)
  end.

(** The contract handle is null or the handle at the fixed address. *)
Definition contract_ok (s : State) : Prop :=
  contract s = None \/ contract s = Some (mkContract contractAddress).

(** A row as [loadActiveLoans] builds it: tagged ACTIVE with an end time
    and no duration, or tagged PENDING with a duration and no end time;
    amount and stake are amounts of wei written in ether. *)
Definition row_ok (row : LoanRow.t) : Prop :=
  ((LoanRow.state row = "ACTIVE" /\
    LoanRow.endTime row <> None /\ LoanRow.duration row = None) \/
   (LoanRow.state row = "PENDING" /\
    LoanRow.duration row <> None /\ LoanRow.endTime row = None)) /\
  (exists wei, LoanRow.loanAmount row = formatEther wei) /\
  (exists wei, LoanRow.stake row = formatEther wei).

Definition rows_ok (s : State) : Prop := Forall row_ok (activeLoans s).

(** A table row that shows what it is meant to show: a date or a count
    of days in the due column, an amount in the stake column, and a Repay
    button exactly on a row tagged ACTIVE. *)
Definition row_shown (row : TableRow) : Prop :=
  dueCell row <> Nothing /\
  dueCell row <> Text "undefined days" /\
  stakeCell row <> Text "N/A ETH" /\
  (repayButton row <> None <-> badgeText row = "ACTIVE").

(** The balance read fails after everything before it went well. *)
Definition balanceOutage : Answers :=
  {| accounts_answer := Ok [alice];
     signer_answer := Ok alice;
     provider_answer := Ok tt;
     balance_answer := Err (fault "missing response");
     nonce_answer := Ok 7;
     listener_answer := Ok tt;
     create_answer := Ok 1;
     repay_answer := Ok 2;
     wait_answer := Ok tt;
     loans_answer := Ok ([4], [aliceLoan], [5; 6], [bobRequest; aliceRequest]);
     loan_answer := Ok aliceLoan;
     fetch_answer := Ok tt;
     json_answer := Ok (Some (Some (Num.of_Z 2000)));
     clock := newYear2025;
     date_answer := None |}.


(** A string that does not start with the letter u. *)
Definition plain (s : string) : Prop :=
  match s with
  | String c _ => Ascii.eqb c "u" = false
  | EmptyString => False
  end.

(** The ids and the detail records of a result set fit: every id is
    below 2^53, every id has a detail record, and the numbers of the
    records that have an id are below 2^53. *)
Definition details_ok {T : Type} (numbers_ok : T -> Prop)
    (ids : list Z) (details : list T) : Prop :=
  Forall safe ids /\
  (List.length ids <= List.length details)%nat /\
  Forall numbers_ok (firstn (List.length ids) details).

Definition loads_ok (all : AllLoans) : Prop :=
  let '(loanIds, loans, requestIds, requests) := all in
  details_ok loan_safe loanIds loans /\ details_ok request_safe requestIds requests.

(** The loans of an account among the active loans of the chain. *)
Definition own_loan (account : string) (p : Z * Loan.t) : bool :=
  String.eqb (Chars.toLowerCase (Loan.borrower (snd p))) (Chars.toLowerCase account).

(** A result set with two ids and the details of one loan. *)
Definition missingDetails : Answers :=
  {| accounts_answer := Ok [alice];
     signer_answer := Ok alice;
     provider_answer := Ok tt;
     balance_answer := Ok 3000000000000000000;
     nonce_answer := Ok 7;
     listener_answer := Ok tt;
     create_answer := Ok 1;
     repay_answer := Ok 2;
     wait_answer := Ok tt;
     loans_answer := Ok ([4; 5], [aliceLoan], [], []);
     loan_answer := Ok aliceLoan;
     fetch_answer := Ok tt;
     json_answer := Ok (Some (Some (Num.of_Z 2000)));
     clock := newYear2025;
     date_answer := None |}.

(** A repayment that the chain confirms: the wallet gives the signer's
    address, the loan is read, the price service answers with a price
    that is neither 0 nor NaN, the amount due is computed and is not
    negative, the transaction is accepted and mined. *)
Record repayment_confirmed (w : World) (from : string) (id : Z) (loan : Loan.t)
    (price : Num.number) (due tx : Z) : Prop := mkConfirmed
  { signer_found : forall tr, w tr (result string) GetAddress = Ok from;
    loan_read : forall tr, w tr (result Loan.t) (ActiveLoans id) = Ok loan;
    price_fetched : forall tr, w tr (result unit) (Fetch priceUrl) = Ok tt;
    price_given :
      forall tr, w tr (result PriceData) ResponseJson = Ok (Some (Some price));
    price_truthy : Num.falsy price = false;
    due_computed : totalDue loan price = Ok due;
    due_written : hexValue due = Ok due;
    repay_sent :
      forall tr, w tr (result Z) (RepayLoanTx id due (hexlify 1000000)) = Ok tx;
    repay_mined : forall tr, w tr (result unit) (Wait tx) = Ok tt }.

(** The calls of a confirmed repayment, up to the confirmation. *)
Definition confirmation (from : string) (id : Z) (loan : Loan.t)
    (price : Num.number) (due tx : Z) : Trace :=
  [Called GetAddress (Ok from);
   Called (ActiveLoans id) (Ok loan);
   Called (Fetch priceUrl) (Ok tt);
   Called ResponseJson (Ok (Some (Some price)));
   Called GetAddress (Ok from);
   Called (RepayLoanTx id due (hexlify 1000000)) (Ok tx);
   Called (Wait tx) (Ok tt)].

(** The duration and the rate [createLoanRequest] computes from the form
    of a render, at a given time. *)
Definition durationInDays (snap : State) (now : Z) : Num.number :=
  Num.ceil (Num.div (JsDate.diff (date (formData snap)) now)
                    (Num.of_Z (1000 * 60 * 60 * 24))).

Definition rateOf (snap : State) : Num.number :=
  Num.floor (Num.of_string (interestRate (formData snap))).

(** A request that the chain confirms: the form reads as two amounts, a
    calendar date in the future and a rate, the wallet gives the signer's
    address, the arguments encode, the collateral is not negative, the
    transaction is accepted and mined. *)
Record request_confirmed (w : World) (snap : State) (from : string)
    (loanAmount collateralInWei days percent now nonce tx : Z) : Prop := mkRequested
  { amount_parsed : parseEther (amount (formData snap)) = Ok loanAmount;
    collateral_parsed : parseEther (collateral (formData snap)) = Ok collateralInWei;
    date_given : JsDate.parse (date (formData snap)) <> None;
    clock_read : forall tr, w tr Z NewDate = now;
    date_ahead : Num.leb (durationInDays snap now) (Num.of_Z 0) = false;
    amount_encoded : encode_uint loanAmount = Ok loanAmount;
    days_encoded : encode_number (durationInDays snap now) = Ok days;
    percent_encoded : encode_number (rateOf snap) = Ok percent;
    value_written : hexValue collateralInWei = Ok collateralInWei;
    signer_given : forall tr, w tr (result string) GetAddress = Ok from;
    provider_found : forall tr, w tr (result unit) Web3Provider = Ok tt;
    nonce_read : forall tr, w tr (result Z) (GetTransactionCount (account snap)) = Ok nonce;
    request_sent :
      forall tr,
        w tr (result Z)
          (CreateLoanRequestTx loanAmount days percent collateralInWei nonce
             (hexlify 1000000))
        = Ok tx;
    request_mined : forall tr, w tr (result unit) (Wait tx) = Ok tt }.

#[local] Arguments Num.parseFloat : simpl never.
#[local] Arguments Num.of_string : simpl never.
#[local] Arguments Num.toString : simpl never.
#[local] Arguments Num.of_Z : simpl never.
#[local] Arguments Num.mul : simpl never.
#[local] Arguments Num.div : simpl never.
#[local] Arguments Num.ceil : simpl never.
#[local] Arguments Num.floor : simpl never.
#[local] Arguments Num.ltb : simpl never.
#[local] Arguments Num.leb : simpl never.
#[local] Arguments JsDate.diff : simpl never.
#[local] Arguments JsDate.minus : simpl never.
#[local] Arguments JsDate.parse : simpl never.
#[local] Arguments Ethers.parseEther : simpl never.
#[local] Arguments Ethers.formatEther : simpl never.
#[local] Arguments Ethers.hexlify : simpl never.
#[local] Arguments Ethers.toNumber : simpl never.
#[local] Arguments Ethers.encode_number : simpl never.
#[local] Arguments Ethers.encode_uint : simpl never.
#[local] Arguments Ethers.hexValue : simpl never.
#[local] Arguments totalDue : simpl never.
#[local] Arguments Z.mul : simpl never.
#[local] Arguments Z.pow : simpl never.

(** * Properties *)

(** ** Running compound programs *)

Lemma run_bind {A B : Type} (w : World) (p : prog A) (f : A -> prog B) :
  forall s tr,
    run w (bind p f) s tr =
    match run w p s tr with
    | (Returned a, s', tr') => run w (f a) s' tr'
    | (Threw e, s', tr') => (Threw e, s', tr')
    end.
Proof.
  induction p as [a | e | g k IH | X c k IH]; intros s tr; simpl.
  - reflexivity.
  - reflexivity.
  - apply IH.
  - apply IH.
Qed.

Lemma run_try_catch {A : Type} (w : World) (p : prog A) (h : Error -> prog A) :
  forall s tr,
    run w (try_catch p h) s tr =
    match run w p s tr with
    | (Returned a, s', tr') => (Returned a, s', tr')
    | (Threw e, s', tr') => run w (h e) s' tr'
    end.
Proof.
  induction p as [a | e | g k IH | X c k IH]; intros s tr; simpl.
  - reflexivity.
  - reflexivity.
  - apply IH.
  - apply IH.
Qed.

Lemma run_showToastMessage (w : World) (message variant : string) (s : State) (tr : Trace) :
  run w (showToastMessage message variant) s tr =
  (Returned tt, toasted message variant s, tr).
Proof. reflexivity. Qed.

Lemma run_lift (w : World) {A : Type} (r : result A) (s : State) (tr : Trace) :
  run w (lift r) s tr =
  match r with
  | Ok a => (Returned a, s, tr)
  | Err e => (Threw e, s, tr)
  end.
Proof. destruct r; reflexivity. Qed.

Lemma run_await (w : World) {X : Type} (c : Call (result X)) (s : State) (tr : Trace) :
  run w (await c) s tr =
  match w tr (result X) c with
  | Ok x => (Returned x, s, (tr ++ [Called c (Ok x)])%list)
  | Err e => (Threw e, s, (tr ++ [Called c (Err e)])%list)
  end.
Proof. unfold await. simpl. destruct (w tr (result X) c); reflexivity. Qed.

Lemma run_ask (w : World) {X : Type} (c : Call X) (s : State) (tr : Trace) :
  run w (ask c) s tr = (Returned (w tr X c), s, (tr ++ [Called c (w tr X c)])%list).
Proof. reflexivity. Qed.

Lemma run_set (w : World) (f : State -> State) (s : State) (tr : Trace) :
  run w (set f) s tr = (Returned tt, f s, tr).
Proof. reflexivity. Qed.

Ltac run_step :=
  first [ rewrite run_bind | rewrite run_try_catch | rewrite run_lift
        | rewrite run_await | rewrite run_ask | rewrite run_set
        | rewrite run_showToastMessage ];
  cbv beta iota.

(** A run only adds to the trace. *)
Lemma run_extends {A : Type} (w : World) (p : prog A) :
  forall s tr, exists more, trace (run w p s tr) = (tr ++ more)%list.
Proof.
  induction p as [a | e | g k IH | X c k IH]; intros s tr; simpl.
  - exists []. unfold trace. simpl. now rewrite app_nil_r.
  - exists []. unfold trace. simpl. now rewrite app_nil_r.
  - apply IH.
  - destruct (IH (w tr X c) s (tr ++ [Called c (w tr X c)])%list) as [more Hm].
    exists (Called c (w tr X c) :: more). rewrite Hm. now rewrite <- app_assoc.
Qed.

(** ** Comparisons with the bounds of the rate *)

Lemma value_of_7 : Num.value (Num.of_Z 7) = Some (Num.Finite (7 * 2 ^ 50 # Z.to_pos (2 ^ 50))).
Proof. reflexivity. Qed.

Lemma value_of_0 : Num.value (Num.of_Z 0) = Some (Num.Finite 0).
Proof. reflexivity. Qed.

Lemma seven_as_fraction : (7 * 2 ^ 50 # Z.to_pos (2 ^ 50) == 7)%Q.
Proof. reflexivity. Qed.

Lemma above_7_spec (x : Num.number) :
  Num.ltb (Num.of_Z 7) x = true <->
  match Num.value x with
  | Some (Num.Finite q) => (7 < q)%Q
  | Some Num.PlusInfinity => True
  | _ => False
  end.
Proof.
  unfold Num.ltb, Num.compare. rewrite value_of_7.
  destruct (Num.value x) as [[ | q | ] | ]; cbn [Num.compare_extended];
    try (split; (discriminate || tauto)).
  - rewrite (Qcompare_comp _ _ seven_as_fraction q q (Qeq_refl q)).
    destruct (Qcompare_spec 7 q) as [H | H | H]; split; intro G;
      try discriminate; try reflexivity; try assumption.
    + rewrite H in G. exfalso. revert G. apply Qlt_irrefl.
    + exfalso. apply (Qlt_irrefl q). now apply Qlt_trans with 7%Q.
Qed.

Lemma below_0_spec (x : Num.number) :
  Num.ltb x (Num.of_Z 0) = true <->
  match Num.value x with
  | Some (Num.Finite q) => (q < 0)%Q
  | Some Num.MinusInfinity => True
  | _ => False
  end.
Proof.
  unfold Num.ltb, Num.compare. rewrite value_of_0.
  destruct (Num.value x) as [[ | q | ] | ]; cbn [Num.compare_extended];
    try (split; (discriminate || tauto)).
  destruct (Qcompare_spec q 0) as [H | H | H]; split; intro G;
    try discriminate; try reflexivity; try assumption.
  - rewrite H in G. exfalso. revert G. apply Qlt_irrefl.
  - exfalso. apply (Qlt_irrefl q). now apply Qlt_trans with 0%Q.
Qed.

Lemma outside_0_7_spec (x : Num.number) :
  outside_0_7 x <->
  Num.ltb (Num.of_Z 7) x = true \/ Num.ltb x (Num.of_Z 0) = true.
Proof.
  rewrite above_7_spec, below_0_spec. unfold outside_0_7.
  destruct (Num.value x) as [[ | q | ] | ]; tauto.
Qed.

(** ** Signs of rounded results

    Rounding keeps the sign it is given: the results below are used for a
    due date that is not after the clock, where every intermediate value
    is zero or negative. *)

Lemma shr_1_nonneg (mrs : shr_record) : 0 <= shr_m mrs -> 0 <= shr_m (shr_1 mrs).
Proof.
  destruct mrs as [m r t]. simpl. intros H.
  destruct m as [ | [p | p | ] | p]; simpl; lia.
Qed.

Lemma iter_shr_1_nonneg (p : positive) :
  forall mrs, 0 <= shr_m mrs -> 0 <= shr_m (iter_pos shr_1 p mrs).
Proof.
  induction p as [p IH | p IH | ]; intros mrs H; simpl.
  - apply IH, IH, shr_1_nonneg, H.
  - apply IH, IH, H.
  - apply shr_1_nonneg, H.
Qed.

Lemma shr_fexp_nonneg (m e : Z) (l : location) :
  0 <= m -> 0 <= shr_m (fst (shr_fexp Num.prec Num.emax m e l)).
Proof.
  intros H. unfold shr_fexp, shr.
  assert (H0 : 0 <= shr_m (shr_record_of_loc m l)).
  { destruct l as [ | [ | | ]]; exact H. }
  destruct (fexp Num.prec Num.emax (Zdigits2 m + e) - e) as [ | p | p]; simpl;
    try exact H0.
  apply iter_shr_1_nonneg, H0.
Qed.

Lemma round_nearest_even_nonneg (m : Z) (l : location) :
  0 <= m -> 0 <= round_nearest_even m l.
Proof.
  intros H. destruct l as [ | [ | | ]]; simpl; try lia.
  destruct (Z.even m); lia.
Qed.

Lemma binary_round_aux_signed (sx : bool) (mx ex : Z) (lx : location) :
  0 <= mx -> signed sx (binary_round_aux Num.prec Num.emax sx mx ex lx).
Proof.
  intros H. unfold binary_round_aux.
  pose proof (shr_fexp_nonneg mx ex lx H) as H1.
  destruct (shr_fexp Num.prec Num.emax mx ex lx) as [mrs' e'].
  simpl in H1.
  pose proof (shr_fexp_nonneg _ e' loc_Exact
                (round_nearest_even_nonneg _ (loc_of_shr_record mrs') H1)) as H2.
  destruct (shr_fexp Num.prec Num.emax
              (round_nearest_even (shr_m mrs') (loc_of_shr_record mrs')) e' loc_Exact)
    as [mrs'' e''].
  simpl in H2.
  destruct (shr_m mrs'') as [ | m | m].
  - reflexivity.
  - destruct (e'' <=? Num.emax - Num.prec); reflexivity.
  - lia.
Qed.

Lemma signed_true_nonpositive (x : Num.number) : signed true x -> nonpositive x.
Proof. destruct x as [s | s | | s m e]; simpl; intros H; subst; tauto. Qed.

Lemma binary_normalize_nonpositive (z : Z) (szero : bool) :
  z <= 0 -> nonpositive (binary_normalize Num.prec Num.emax z 0 szero).
Proof.
  intros H. destruct z as [ | p | p]; simpl.
  - exact I.
  - lia.
  - apply signed_true_nonpositive. unfold binary_round.
    destruct (shl_align p 0 (fexp Num.prec Num.emax (Z.pos (digits2_pos p) + 0))) as [mz ez].
    apply binary_round_aux_signed. lia.
Qed.

Lemma of_Z_nonpositive (z : Z) : z <= 0 -> nonpositive (Num.of_Z z).
Proof. apply binary_normalize_nonpositive. Qed.

Lemma div_nonpositive (x : Num.number) (m : positive) (e : Z) :
  nonpositive x -> nonpositive (Num.div x (S754_finite false m e)).
Proof.
  destruct x as [s | [ | ] | | [ | ] mx ex]; simpl; intros H; try tauto.
  apply signed_true_nonpositive.
  unfold Num.div, SFdiv, SFdiv_core_binary.
  set (m' := match _ - _ - _ with Z0 => _ | Z.pos _ => _ | Z.neg _ => _ end).
  assert (Hm : 0 <= m').
  { subst m'. destruct (_ - _ - _); try lia. apply Z.shiftl_nonneg. lia. }
  pose proof (Z.div_eucl_eq m' (Z.pos m) ltac:(lia)) as Heq.
  pose proof (Z.mod_pos_bound m' (Z.pos m) ltac:(lia)) as Hb.
  unfold Z.modulo in Hb.
  destruct (Z.div_eucl m' (Z.pos m)) as [q r]. simpl in Hb.
  apply binary_round_aux_signed. nia.
Qed.

Lemma ceil_nonpositive (x : Num.number) : nonpositive x -> nonpositive (Num.ceil x).
Proof.
  destruct x as [s | [ | ] | | [ | ] m e]; simpl; intros H; try tauto.
  unfold Num.ceil. destruct (0 <=? e) eqn:He.
  - exact I.
  - apply Z.leb_gt in He. apply binary_normalize_nonpositive. simpl.
    assert (0 <= Z.pos m / 2 ^ (- e)).
    { apply Z.div_pos; [lia | ]. apply Z.pow_pos_nonneg; lia. }
    lia.
Qed.

Lemma leb_nonpositive_0 (x : Num.number) :
  nonpositive x -> Num.leb x (Num.of_Z 0) = true.
Proof.
  unfold Num.leb, Num.compare. rewrite value_of_0.
  destruct x as [s | [ | ] | | [ | ] m e]; simpl; intros H; try tauto; try reflexivity.
  unfold Num.Qvalue. destruct (0 <=? e) eqn:He.
  - apply Z.leb_le in He.
    assert (Hp : 0 < 2 ^ e) by (apply Z.pow_pos_nonneg; lia).
    unfold Qcompare. simpl Qnum. simpl Qden. simpl cond_Zopp.
    replace (- (Z.pos m * 2 ^ e) * 1 ?= 0 * 1) with Lt; [reflexivity | ].
    symmetry. apply Z.compare_lt_iff. nia.
  - reflexivity.
Qed.

(** The difference of two time values, taken as Numbers, is the Number of
    their difference; here for midnight of 2025-01-11 and a clock one
    millisecond past midnight of 2025-01-01. *)
Lemma diff_is_subtraction :
  Num.sub (Num.of_Z 1736553600000) (Num.of_Z 1735689600001)
  = JsDate.diff "2025-01-11" 1735689600001.
Proof. reflexivity. Qed.

(** The duration computed for a due date that is not after the clock
    passes the test [durationInDays <= 0]. *)
Lemma duration_not_positive (t now : Z) :
  t <= now ->
  Num.leb (Num.ceil (Num.div (JsDate.minus (Some t) now) (Num.of_Z (1000 * 60 * 60 * 24))))
          (Num.of_Z 0) = true.
Proof.
  intros Hle.
  apply leb_nonpositive_0, ceil_nonpositive.
  change (Num.of_Z (1000 * 60 * 60 * 24))
    with (S754_finite false 5798205849600000 (-26)).
  apply div_nonpositive.
  unfold JsDate.minus. apply of_Z_nonpositive. lia.
Qed.

(** ** Validation of the interest rate *)

(** C2.  On a change of the interest-rate field, [handleInputChange]
    rejects the new value, leaving the form state as it was and showing a
    warning notification, exactly when the value, as the Number that
    [parseFloat] reads from the text of the field, lies outside [[0,7]]
    (is greater than 7 or less than 0); otherwise it stores the new value
    and shows nothing.  Text that reads as no number (the empty field) is
    NaN, fails both comparisons and is stored. *)
Theorem handleInputChange_validates_rate
    (w : World) (value : string) (s : State) (tr : Trace) :
  let r := run w (handleInputChange "interestRate" value) s tr in
  outcome r = Returned tt /\ trace r = tr /\
  (outside_0_7 (Num.parseFloat value) ->
     formData (final r) = formData s /\
     showToast (final r) = true /\
     toastVariant (final r) = "warning" /\
     final r = setShowToast true
                 (setToastVariant "warning"
                    (setToastMessage (toastMessage (final r)) s))) /\
  (~ outside_0_7 (Num.parseFloat value) ->
     interestRate (formData (final r)) = value /\
     final r = setFormData (set_field "interestRate" value) s).
Proof.
  intros r. subst r. unfold handleInputChange.
  change (String.eqb "interestRate" "interestRate") with true. cbv iota.
  destruct (Num.ltb (Num.of_Z 7) (Num.parseFloat value)) eqn:Hhi;
    [ | destruct (Num.ltb (Num.parseFloat value) (Num.of_Z 0)) eqn:Hlo ].
  - rewrite run_showToastMessage.
    split; [reflexivity | split; [reflexivity | split]].
    + intros _. repeat split; reflexivity.
    + intros Hin. exfalso. apply Hin. apply outside_0_7_spec. now left.
  - rewrite run_showToastMessage.
    split; [reflexivity | split; [reflexivity | split]].
    + intros _. repeat split; reflexivity.
    + intros Hin. exfalso. apply Hin. apply outside_0_7_spec. now right.
  - split; [reflexivity | split; [reflexivity | split]].
    + intros Hout. apply outside_0_7_spec in Hout.
      rewrite Hhi, Hlo in Hout. destruct Hout; discriminate.
    + intros _. split; reflexivity.
Qed.

Lemma handleInputChange_validates_rate_witness :
  formData (final (run (answering (fairWeather (Num.of_Z 2000)))
                       (handleInputChange "interestRate" "7.5") aliceSession []))
  = formData aliceSession /\
  interestRate (formData (final (run (answering (fairWeather (Num.of_Z 2000)))
                                     (handleInputChange "interestRate" "6.5") aliceSession [])))
  = "6.5".
Proof.
  split.
  - apply (handleInputChange_validates_rate
             (answering (fairWeather (Num.of_Z 2000))) "7.5" aliceSession []).
    right. reflexivity.
  - apply (handleInputChange_validates_rate
             (answering (fairWeather (Num.of_Z 2000))) "6.5" aliceSession []).
    intros [H | H]; discriminate H.
Defined.

(** The field emptied, and a value that exceeds 7 by less than Numbers
    tell apart: neither is rejected. *)
Lemma handleInputChange_edge_values :
  Num.parseFloat "" = Num.nan /\
  ~ outside_0_7 (Num.parseFloat "") /\
  Num.parseFloat "7.0000000000000001" = Num.of_Z 7 /\
  ~ outside_0_7 (Num.parseFloat "7.0000000000000001") /\
  outside_0_7 (Num.parseFloat "7.000000000000001") /\
  outside_0_7 (Num.parseFloat "-0.1").
Proof.
  split; [vm_compute; reflexivity | ].
  split; [vm_compute; tauto | ].
  split; [vm_compute; reflexivity | ].
  split; [vm_compute; intros [H | H]; discriminate H | ].
  split; [vm_compute; right; reflexivity | ].
  vm_compute. left. reflexivity.
Qed.

(** ** Submission with a due date that is not in the future *)

(** C3, as amended.  For a form submission whose due date is not strictly
    after the current date, [createLoanRequest] returns without any
    network call: no nonce fetch, no transaction.  When the contract
    handle is bound and the two amounts parse, so that the handler gets as
    far as the duration, the computed duration is at most 0 and the only
    effect is the warning notification "Repayment date must be in the
    future".  Otherwise no warning is shown: with a null handle the
    handler returns and leaves the state as it was, and an amount that
    does not parse is shown as a danger notification with the reason of
    the parse error. *)
Theorem createLoanRequest_blocks_past_date
    (w : World) (snap s : State) (t now : Z) :
  JsDate.parse (date (formData snap)) = Some t ->
  (forall tr, w tr Z NewDate = now) ->
  t <= now ->
  let r := run w (createLoanRequest snap) s [] in
  outcome r = Returned tt /\
  network_calls (trace r) = [] /\
  (forall c a b,
      contract snap = Some c ->
      parseEther (amount (formData snap)) = Ok a ->
      parseEther (collateral (formData snap)) = Ok b ->
      final r = toasted "Repayment date must be in the future" "warning" s /\
      trace r = [Called PreventDefault (w [] unit PreventDefault);
                 Called NewDate now]) /\
  (contract snap = None -> final r = s) /\
  (forall c e,
      contract snap = Some c ->
      parseEther (amount (formData snap)) = Err e ->
      final r = toasted (reason_or e "Transaction failed") "danger" s) /\
  (forall c a e,
      contract snap = Some c ->
      parseEther (amount (formData snap)) = Ok a ->
      parseEther (collateral (formData snap)) = Err e ->
      final r = toasted (reason_or e "Transaction failed") "danger" s).
Proof.
  intros Hparse Hclock Hle r. subst r.
  unfold createLoanRequest.
  do 2 run_step.
  destruct (contract snap) as [c | ].
  2:{ repeat split; try reflexivity; congruence. }
  cbv beta iota. unfold createLoanRequest_try, createLoanRequest_catch.
  do 3 run_step.
  destruct (parseEther (amount (formData snap))) as [a | ea]; cbv beta iota.
  2:{ do 3 run_step.
      split; [reflexivity | split; [reflexivity | ]].
      split; [intros; discriminate | ].
      split; [intros; discriminate | ].
      split; [ | intros; discriminate].
      intros c0 e _ He. now injection He as ->. }
  do 2 run_step.
  destruct (parseEther (collateral (formData snap))) as [b | eb]; cbv beta iota.
  2:{ do 3 run_step.
      split; [reflexivity | split; [reflexivity | ]].
      split; [intros; discriminate | ].
      split; [intros; discriminate | ].
      split; [intros; discriminate | ].
      intros c0 a0 e _ _ He. now injection He as ->. }
  run_step. unfold new_Date. rewrite Hparse.
  change (run w (Ret (Some t)) ?s0 ?tr0) with (Returned (Some t), s0, tr0).
  cbv beta iota.
  do 2 run_step. rewrite Hclock.
  cbv zeta.
  rewrite (duration_not_positive _ _ Hle).
  run_step.
  split; [reflexivity | split; [reflexivity | ]].
  split; [intros; split; reflexivity | ].
  split; [intros; discriminate | ].
  split; intros; discriminate.
Qed.

Lemma createLoanRequest_blocks_past_date_witness :
  let r := run (answering (fairWeather (Num.of_Z 2000)))
               (createLoanRequest staleSubmission) staleSubmission [] in
  outcome r = Returned tt /\
  network_calls (trace r) = [] /\
  final r = toasted "Repayment date must be in the future" "warning" staleSubmission.
Proof.
  destruct (createLoanRequest_blocks_past_date
              (answering (fairWeather (Num.of_Z 2000)))
              staleSubmission staleSubmission newYear2025 newYear2025)
    as (Hout & Hnet & Hwarn & _).
  - reflexivity.
  - reflexivity.
  - lia.
  - split; [exact Hout | split; [exact Hnet | ]].
    apply (Hwarn (mkContract contractAddress) 1000000000000000000 2000000000000000000);
      reflexivity.
Defined.

(** C3 fails as stated.  The due date is not after the clock, and the
    amount is "1e5": [parseEther] throws before the duration is computed,
    and the notification is a danger notification with the reason of that
    error, not the warning.  No network call is made. *)
Lemma createLoanRequest_past_date_without_warning :
  let r := run (answering (fairWeather (Num.of_Z 2000)))
               (createLoanRequest exponentSubmission) exponentSubmission [] in
  JsDate.parse (date (formData exponentSubmission)) = Some newYear2025 /\
  clock (fairWeather (Num.of_Z 2000)) = newYear2025 /\
  toastVariant (final r) = "danger" /\
  toastMessage (final r) = "invalid decimal value" /\
  toastVariant (final r) <> "warning" /\
  network_calls (trace r) = [].
Proof.
  vm_compute. repeat split; try reflexivity. discriminate.
Qed.

(** ** An unbound contract handle *)

(** C7.  While the contract handle is null, [createLoanRequest],
    [loadActiveLoans] and [repayLoan] do nothing: each returns at once,
    sends no transaction, makes no read or other network call, and leaves
    the state as it was. *)
Theorem handlers_idle_without_contract
    (w : World) (snap s : State) (loanId : Num.number) :
  contract snap = None ->
  (let r := run w (createLoanRequest snap) s [] in
   outcome r = Returned tt /\ final r = s /\ network_calls (trace r) = []) /\
  (let r := run w (loadActiveLoans snap) s [] in
   outcome r = Returned tt /\ final r = s /\ trace r = []) /\
  (let r := run w (repayLoan snap loanId) s [] in
   outcome r = Returned tt /\ final r = s /\ trace r = []).
Proof.
  intros Hnull.
  unfold createLoanRequest, loadActiveLoans, repayLoan.
  rewrite Hnull. simpl. repeat split; reflexivity.
Qed.

Lemma handlers_idle_without_contract_witness :
  (let r := run (answering (fairWeather (Num.of_Z 2000)))
                (createLoanRequest initialState) aliceSession [] in
   outcome r = Returned tt /\ final r = aliceSession /\ network_calls (trace r) = []) /\
  (let r := run (answering (fairWeather (Num.of_Z 2000)))
                (loadActiveLoans initialState) aliceSession [] in
   outcome r = Returned tt /\ final r = aliceSession /\ trace r = []) /\
  (let r := run (answering (fairWeather (Num.of_Z 2000)))
                (repayLoan initialState (Num.of_Z 4)) aliceSession [] in
   outcome r = Returned tt /\ final r = aliceSession /\ trace r = []).
Proof.
  apply (handlers_idle_without_contract
           (answering (fairWeather (Num.of_Z 2000))) initialState aliceSession (Num.of_Z 4)).
  reflexivity.
Defined.

(** ** A change of account *)

(** C10.  The listener for the wallet's account-change event sets the
    connected address and, once the balance read answers, the balance;
    every other part of the state, the loan list among them, is left as
    it was, and the only call made is that balance read: the list is not
    fetched again. *)
Theorem accountsChanged_keeps_loan_list
    (w : World) (accounts : list string) (s : State) :
  let r := run w (accountsChanged accounts) s [] in
  let answer := w [] (result Z) (GetBalance (hd_error accounts)) in
  account (final r) = hd_error accounts /\
  activeLoans (final r) = activeLoans s /\
  formData (final r) = formData s /\
  contract (final r) = contract s /\
  showToast (final r) = showToast s /\
  toastMessage (final r) = toastMessage s /\
  toastVariant (final r) = toastVariant s /\
  trace r = [Called (GetBalance (hd_error accounts)) answer] /\
  reads (trace r) = [] /\
  match answer with
  | Ok newBalance =>
      outcome r = Returned tt /\ balance (final r) = formatEther newBalance
  | Err e => outcome r = Threw e /\ balance (final r) = balance s
  end.
Proof.
  intros r answer. subst r answer. unfold accountsChanged. simpl.
  destruct (w [] (result Z) (GetBalance (hd_error accounts))) as [b | e];
    simpl; repeat split; reflexivity.
Qed.

(** ** The loan list *)

Lemma toNumber_safe (z : Z) : safe z -> toNumber z = Ok (Num.of_Z z).
Proof.
  unfold safe, toNumber. intros H.
  destruct (Z.ltb_spec (Z.abs z) (2 ^ 53)) as [_ | G]; [reflexivity | lia].
Qed.

Lemma nth_error_middle {A : Type} (pre : list A) (x : A) (rest : list A) :
  nth_error (pre ++ x :: rest) (List.length pre) = Some x.
Proof. induction pre as [ | y pre IH]; simpl; [reflexivity | exact IH]. Qed.

Lemma map_index_active (ids : list Z) :
  forall (pre rest : list Loan.t),
    List.length rest = List.length ids ->
    Forall safe ids -> Forall loan_safe rest ->
    map_index (active_row (pre ++ rest)) ids (List.length pre)
    = Ok (map active_view (combine ids rest)).
Proof.
  induction ids as [ | id ids IH]; intros pre rest Hlen Hids Hrest.
  - reflexivity.
  - destruct rest as [ | loan rest]; [discriminate Hlen | ].
    inversion Hids as [ | ? ? Hid Hids']; subst.
    inversion Hrest as [ | ? ? [Hend Hrate] Hrest']; subst.
    simpl map_index. unfold active_row at 1.
    rewrite (toNumber_safe _ Hid). simpl Js.bind.
    rewrite nth_error_middle.
    rewrite (toNumber_safe _ Hend), (toNumber_safe _ Hrate). simpl Js.bind.
    specialize (IH (pre ++ [loan])%list rest).
    rewrite <- app_assoc in IH. simpl app in IH.
    rewrite length_app in IH. simpl List.length in IH.
    rewrite Nat.add_1_r in IH.
    rewrite IH; [reflexivity | | assumption | assumption].
    simpl in Hlen. congruence.
Qed.

Lemma map_index_request (ids : list Z) :
  forall (pre rest : list Request.t),
    List.length rest = List.length ids ->
    Forall safe ids -> Forall request_safe rest ->
    map_index (request_row (pre ++ rest)) ids (List.length pre)
    = Ok (map request_view (combine ids rest)).
Proof.
  induction ids as [ | id ids IH]; intros pre rest Hlen Hids Hrest.
  - reflexivity.
  - destruct rest as [ | request rest]; [discriminate Hlen | ].
    inversion Hids as [ | ? ? Hid Hids']; subst.
    inversion Hrest as [ | ? ? [Hdur Hrate] Hrest']; subst.
    simpl map_index. unfold request_row at 1.
    rewrite (toNumber_safe _ Hid). simpl Js.bind.
    rewrite nth_error_middle.
    rewrite (toNumber_safe _ Hdur), (toNumber_safe _ Hrate). simpl Js.bind.
    specialize (IH (pre ++ [request])%list rest).
    rewrite <- app_assoc in IH. simpl app in IH.
    rewrite length_app in IH. simpl List.length in IH.
    rewrite Nat.add_1_r in IH.
    rewrite IH; [reflexivity | | assumption | assumption].
    simpl in Hlen. congruence.
Qed.

Lemma same_borrower_spec (acct : string) (row : LoanRow.t) :
  same_borrower acct row = true <-> same_address (LoanRow.borrower row) acct.
Proof. unfold same_borrower, same_address. apply String.eqb_eq. Qed.

(** C4, as amended.  For result sets that pair every id with a detail
    record and whose ids, end times, durations and rates are below 2^53,
    and for a connected account, [loadActiveLoans] replaces the displayed
    list with exactly the rows whose borrower equals the connected address
    up to the case of letters, the active rows first and the pending rows
    after them, each in the order of its result set, the former tagged
    ACTIVE and the latter PENDING. *)
Theorem loadActiveLoans_shows_own_loans
    (w : World) (snap s : State) (c : Contract) (acct : string)
    (loanIds : list Z) (loans : list Loan.t)
    (requestIds : list Z) (requests : list Request.t) :
  contract snap = Some c ->
  connected (account snap) = Some acct ->
  w [] (result AllLoans) GetAllActiveLoans = Ok (loanIds, loans, requestIds, requests) ->
  List.length loans = List.length loanIds ->
  List.length requests = List.length requestIds ->
  Forall safe loanIds -> Forall loan_safe loans ->
  Forall safe requestIds -> Forall request_safe requests ->
  let r := run w (loadActiveLoans snap) s [] in
  let active := map active_view (combine loanIds loans) in
  let pending := map request_view (combine requestIds requests) in
  outcome r = Returned tt /\
  final r = setActiveLoans (filter (same_borrower acct) (active ++ pending)) s /\
  activeLoans (final r)
    = (filter (same_borrower acct) active ++ filter (same_borrower acct) pending)%list /\
  (forall row, In row (activeLoans (final r)) <->
               In row (active ++ pending) /\ same_address (LoanRow.borrower row) acct) /\
  Forall (fun row => LoanRow.state row = "ACTIVE") active /\
  Forall (fun row => LoanRow.state row = "PENDING") pending.
Proof.
  intros Hc Ha Hw Hl Hr Hli Hlo Hri Hro r active pending.
  assert (Hrun : run w (loadActiveLoans snap) s []
                 = (Returned tt,
                    setActiveLoans (filter (same_borrower acct) (active ++ pending)) s,
                    [Called GetAllActiveLoans (Ok (loanIds, loans, requestIds, requests))])).
  { unfold loadActiveLoans. rewrite Hc, Ha. unfold loadActiveLoans_try. simpl.
    rewrite Hw. simpl.
    pose proof (map_index_active loanIds [] loans Hl Hli Hlo) as Hactive.
    pose proof (map_index_request requestIds [] requests Hr Hri Hro) as Hpending.
    simpl in Hactive, Hpending.
    rewrite Hactive. simpl. rewrite Hpending. reflexivity. }
  subst r. rewrite Hrun. unfold outcome, final. simpl.
  split; [reflexivity | split; [reflexivity | split; [ | split; [ | split]]]].
  - apply filter_app.
  - intros row. rewrite filter_In, same_borrower_spec. reflexivity.
  - subst active. apply Forall_forall. intros row Hin.
    apply in_map_iff in Hin. destruct Hin as [[id loan] [Heq _]]. now subst row.
  - subst pending. apply Forall_forall. intros row Hin.
    apply in_map_iff in Hin. destruct Hin as [[id request] [Heq _]]. now subst row.
Qed.

Lemma loadActiveLoans_shows_own_loans_witness :
  let r := run (answering (fairWeather (Num.of_Z 2000)))
               (loadActiveLoans aliceSession) aliceSession [] in
  activeLoans (final r)
  = [active_view (4, aliceLoan); request_view (6, aliceRequest)].
Proof.
  apply (loadActiveLoans_shows_own_loans
           (answering (fairWeather (Num.of_Z 2000))) aliceSession aliceSession
           (mkContract contractAddress) alice
           [4] [aliceLoan] [5; 6] [bobRequest; aliceRequest]);
    try reflexivity;
    repeat constructor; unfold safe; simpl; lia.
Defined.

(** C4 fails as stated.  The chain holds a loan of alice and a request of
    bob whose duration is 2^53.  The conversion of that duration throws,
    the list is not replaced, and the table goes on showing a row of bob
    instead of the loan of alice. *)
Lemma loadActiveLoans_keeps_stale_list_on_overflow :
  let r := run (answering endlessChain) (loadActiveLoans staleSession) staleSession [] in
  activeLoans (final r) = [request_view (5, bobRequest)] /\
  same_borrower alice (request_view (5, bobRequest)) = false /\
  same_borrower alice (active_view (4, aliceLoan)) = true /\
  ~ In (active_view (4, aliceLoan)) (activeLoans (final r)) /\
  toastMessage (final r) = "Error loading loans".
Proof.
  vm_compute. repeat split; try reflexivity.
  intros [H | []]. discriminate H.
Qed.

(** ** Programs that cannot throw, programs that keep an invariant *)

Lemma total_returns {A : Type} (w : World) (p : prog A) :
  total p -> forall s tr, exists a, outcome (run w p s tr) = Returned a.
Proof.
  induction 1 as [a | f k _ IH | X c k _ IH]; intros s tr; simpl.
  - now exists a.
  - apply IH.
  - apply IH.
Qed.

Lemma total_bind {A B : Type} (p : prog A) (f : A -> prog B) :
  total p -> (forall a, total (f a)) -> total (bind p f).
Proof.
  intros Hp Hf. induction Hp as [a | g k _ IH | X c k _ IH]; simpl.
  - apply Hf.
  - now constructor.
  - now constructor.
Qed.

(** Whatever the guarded block does, a handler that cannot throw makes the
    whole statement unable to throw. *)
Lemma total_try_catch {A : Type} (p : prog A) (h : Error -> prog A) :
  (forall e, total (h e)) -> total (try_catch p h).
Proof.
  intros Hh. induction p as [a | e | g k IH | X c k IH]; simpl.
  - constructor.
  - apply Hh.
  - now constructor.
  - now constructor.
Qed.

Lemma total_showToastMessage (message variant : string) :
  total (showToastMessage message variant).
Proof. repeat constructor. Qed.

Lemma total_report (label : string) (error : Error) (p : prog unit) :
  total p -> total (ask (ConsoleError label error) ;; p).
Proof. intros Hp. simpl. constructor. intros []. exact Hp. Qed.

Create HintDb total_db.
#[local] Hint Resolve total_showToastMessage total_report total_try_catch : total_db.
#[local] Hint Constructors total : total_db.

Lemma total_loadActiveLoans (snap : State) : total (loadActiveLoans snap).
Proof.
  unfold loadActiveLoans, loadActiveLoans_catch.
  destruct (contract snap); destruct (connected (account snap)); auto with total_db.
Qed.

Lemma total_createLoanRequest (snap : State) : total (createLoanRequest snap).
Proof.
  unfold createLoanRequest, createLoanRequest_catch. simpl.
  constructor. intros [].
  destruct (contract snap); auto with total_db.
Qed.

Lemma total_repayLoan (snap : State) (loanId : Num.number) :
  total (repayLoan snap loanId).
Proof.
  unfold repayLoan, repayLoan_catch.
  destruct (contract snap); auto with total_db.
Qed.

Lemma keeps_run (P : State -> Prop) {A : Type} (w : World) (p : prog A) :
  keeps P p -> forall s tr, P s -> P (final (run w p s tr)).
Proof.
  induction p as [a | e | f k IH | X c k IH]; simpl; intros Hp s tr Hs.
  - exact Hs.
  - exact Hs.
  - destruct Hp as [Hf Hk]. apply IH; [exact Hk | apply Hf, Hs].
  - apply IH; [apply Hp | exact Hs].
Qed.

Lemma keeps_bind (P : State -> Prop) {A B : Type} (p : prog A) (f : A -> prog B) :
  keeps P p -> (forall a, keeps P (f a)) -> keeps P (bind p f).
Proof.
  intros Hp Hf. induction p as [a | e | g k IH | X c k IH]; simpl in Hp |- *.
  - apply Hf.
  - exact I.
  - destruct Hp as [Hg Hk]. split; [exact Hg | apply IH, Hk].
  - intros x. apply IH, Hp.
Qed.

Lemma keeps_try_catch (P : State -> Prop) {A : Type} (p : prog A) (h : Error -> prog A) :
  keeps P p -> (forall e, keeps P (h e)) -> keeps P (try_catch p h).
Proof.
  intros Hp Hh. induction p as [a | e | g k IH | X c k IH]; simpl in Hp |- *.
  - exact I.
  - apply Hh.
  - destruct Hp as [Hg Hk]. split; [exact Hg | apply IH, Hk].
  - intros x. apply IH, Hp.
Qed.

Lemma keeps_ret (P : State -> Prop) {A : Type} (a : A) : keeps P (Ret a).
Proof. exact I. Qed.

Lemma keeps_throw (P : State -> Prop) {A : Type} (e : Error) : keeps P (@Throw A e).
Proof. exact I. Qed.

Lemma keeps_lift (P : State -> Prop) {A : Type} (r : result A) : keeps P (lift r).
Proof. destruct r; exact I. Qed.

Lemma keeps_await (P : State -> Prop) {X : Type} (c : Call (result X)) :
  keeps P (await c).
Proof. intros [x | e]; exact I. Qed.

Lemma keeps_ask (P : State -> Prop) {X : Type} (c : Call X) : keeps P (ask c).
Proof. intros x. exact I. Qed.

Lemma keeps_set (P : State -> Prop) (f : State -> State) :
  (forall s, P s -> P (f s)) -> keeps P (set f).
Proof. intros H. split; [exact H | exact I]. Qed.

Lemma keeps_showToastMessage (message variant : string) :
  severity variant -> keeps toast_ok (showToastMessage message variant).
Proof.
  intros Hv. unfold showToastMessage. simpl.
  repeat split; intros s Hs; unfold toast_ok; simpl; (exact Hv || exact Hs).
Qed.

Lemma severity_success : severity "success".
Proof. now left. Qed.

Lemma severity_warning : severity "warning".
Proof. right. now left. Qed.

Lemma severity_danger : severity "danger".
Proof. right. now right. Qed.

Create HintDb keeps_db.
#[local] Hint Resolve keeps_bind keeps_try_catch keeps_ret keeps_throw keeps_lift
  keeps_await keeps_ask keeps_showToastMessage
  severity_success severity_warning severity_danger : keeps_db.

Lemma keeps_frame (f : State -> State) :
  (forall s, toastVariant (f s) = toastVariant s) -> keeps toast_ok (set f).
Proof.
  intros H. apply keeps_set. intros s Hs. unfold toast_ok. now rewrite H.
Qed.

Ltac keeps_step :=
  match goal with
  | |- keeps _ (bind _ _) => apply keeps_bind
  | |- keeps _ (try_catch _ _) => apply keeps_try_catch
  | |- keeps _ (set _) => apply keeps_frame; intros; reflexivity
  | |- keeps _ (match ?x with _ => _ end) => destruct x
  | |- forall _, _ => intro
  | |- _ => solve [auto with keeps_db]
  end.

Lemma keeps_updateBalance (snap : State) : keeps toast_ok (updateBalance snap).
Proof. unfold updateBalance. repeat keeps_step. Qed.

Lemma keeps_loadActiveLoans (snap : State) : keeps toast_ok (loadActiveLoans snap).
Proof.
  unfold loadActiveLoans, loadActiveLoans_try, loadActiveLoans_catch.
  repeat keeps_step.
Qed.

Lemma keeps_getEthPrice : keeps toast_ok getEthPrice.
Proof. unfold getEthPrice. repeat keeps_step. Qed.

Lemma keeps_new_Date (P : State -> Prop) (s : string) : keeps P (new_Date s).
Proof.
  unfold new_Date. destruct (JsDate.parse s); [exact I | ].
  destruct (String.eqb s ""); [exact I | ]. intros x. exact I.
Qed.

#[local] Hint Resolve keeps_updateBalance keeps_loadActiveLoans keeps_getEthPrice
  keeps_new_Date : keeps_db.

Lemma keeps_handler (a : Action) (snap : State) : keeps toast_ok (handler a snap).
Proof.
  destruct a; unfold handler.
  - unfold init, connectWallet, loadContract. repeat keeps_step.
  - auto with keeps_db.
  - unfold handleInputChange. repeat keeps_step.
  - unfold createLoanRequest, createLoanRequest_try, createLoanRequest_catch.
    repeat keeps_step.
  - unfold repayLoan, repayLoan_try, repayLoan_catch. repeat keeps_step.
  - unfold accountsChanged. repeat keeps_step.
  - unfold onClose. repeat keeps_step.
Qed.

(** The invariant of a configuration: the live state has it, and every
    handler under way keeps it. *)
Lemma step_toast_ok (c c' : Config) :
  step c c' ->
  toast_ok (fst c) /\ Forall (keeps toast_ok) (snd c) ->
  toast_ok (fst c') /\ Forall (keeps toast_ok) (snd c').
Proof.
  intros Hstep [Hs Hpool].
  destruct Hstep as [s pool a snap | s pre post f k | s pre post X c k x
                     | s pre post a | s pre post e];
    simpl in Hs, Hpool |- *.
  - split; [exact Hs | ].
    apply Forall_app. split; [exact Hpool | ].
    constructor; [apply keeps_handler | constructor].
  - apply Forall_app in Hpool. destruct Hpool as [Hpre Hrest].
    inversion Hrest as [ | ? ? Hupd Hpost]; subst.
    destruct Hupd as [Hf Hk].
    split; [apply Hf, Hs | ].
    apply Forall_app. split; [exact Hpre | now constructor].
  - apply Forall_app in Hpool. destruct Hpool as [Hpre Hrest].
    inversion Hrest as [ | ? ? Hk Hpost]; subst.
    split; [exact Hs | ].
    apply Forall_app. split; [exact Hpre | ]. constructor; [apply Hk | exact Hpost].
  - apply Forall_app in Hpool. destruct Hpool as [Hpre Hrest].
    inversion Hrest; subst.
    split; [exact Hs | ]. apply Forall_app. now split.
  - apply Forall_app in Hpool. destruct Hpool as [Hpre Hrest].
    inversion Hrest; subst.
    split; [exact Hs | ]. apply Forall_app. now split.
Qed.

Lemma reachable_config_toast_ok (c : Config) :
  reachable_config c -> toast_ok (fst c) /\ Forall (keeps toast_ok) (snd c).
Proof.
  induction 1 as [ | c c' _ IH Hstep].
  - split; [apply severity_success | constructor].
  - exact (step_toast_ok c c' Hstep IH).
Qed.

Lemma reachable_toast_ok (s : State) : reachable s -> toast_ok s.
Proof.
  intros [pool H]. exact (proj1 (reachable_config_toast_ok _ H)).
Qed.

(** A handler under way that runs to its end without being overtaken
    leaves the state its run computes. *)
Lemma run_reachable (w : World) (p : prog unit) :
  forall s tr pre post,
    reachable_config (s, (pre ++ p :: post)%list) ->
    reachable_config (final (run w p s tr), (pre ++ post)%list).
Proof.
  induction p as [a | e | f k IH | X c k IH]; intros s tr pre post H; simpl.
  - exact (reach_step _ _ H (step_return s pre post a)).
  - exact (reach_step _ _ H (step_throw s pre post e)).
  - apply IH. exact (reach_step _ _ H (step_update s pre post f k)).
  - apply IH. exact (reach_step _ _ H (step_answer s pre post c k (w tr X c))).
Qed.

Lemma reachable_run (w : World) (a : Action) (snap s : State) (tr : Trace) :
  reachable s -> reachable (final (run w (handler a snap) s tr)).
Proof.
  intros [pool H]. exists (pool ++ [])%list.
  apply run_reachable.
  exact (reach_step _ _ H (step_dispatch s pool a snap)).
Qed.

Lemma reachable_initial : reachable initialState.
Proof. exists []. exact reach_initial. Qed.

(** ** Errors *)

Lemma outcome_total (w : World) (p : prog unit) (s : State) (tr : Trace) :
  total p -> outcome (run w p s tr) = Returned tt.
Proof.
  intros Hp. destruct (total_returns w p Hp s tr) as [[] H]. exact H.
Qed.

Lemma final_try_catch (w : World) (p : prog unit) (h : Error -> prog unit)
    (s s' : State) (tr tr' : Trace) (error : Error) :
  run w p s tr = (Threw error, s', tr') ->
  run w (try_catch p h) s tr = run w (h error) s' tr'.
Proof. intros H. rewrite run_try_catch, H. reflexivity. Qed.

(** C8, as amended.  No exception escapes [createLoanRequest],
    [loadActiveLoans] or [repayLoan].  An error that the guarded block of
    [createLoanRequest] or of [repayLoan] throws is caught and shown as a
    danger notification that carries the reason of the error when it has
    one and the fallback of the handler otherwise.  An error that the
    guarded block of [loadActiveLoans] throws is caught and shown as a
    danger notification with the fixed text "Error loading loans". *)
Theorem handlers_catch_every_error
    (w : World) (snap s : State) (loanId : Num.number) (tr : Trace) :
  outcome (run w (createLoanRequest snap) s tr) = Returned tt /\
  outcome (run w (loadActiveLoans snap) s tr) = Returned tt /\
  outcome (run w (repayLoan snap loanId) s tr) = Returned tt /\
  (forall c error s' tr',
      contract snap = Some c ->
      run w (createLoanRequest_try snap) s
          (tr ++ [Called PreventDefault (w tr unit PreventDefault)])%list
      = (Threw error, s', tr') ->
      final (run w (createLoanRequest snap) s tr)
      = toasted (reason_or error "Transaction failed") "danger" s') /\
  (forall c error s' tr',
      contract snap = Some c ->
      run w (repayLoan_try snap loanId) s tr = (Threw error, s', tr') ->
      final (run w (repayLoan snap loanId) s tr)
      = toasted (reason_or error "Error repaying loan") "danger" s') /\
  (forall c acct error s' tr',
      contract snap = Some c ->
      connected (account snap) = Some acct ->
      run w (loadActiveLoans_try acct) s tr = (Threw error, s', tr') ->
      final (run w (loadActiveLoans snap) s tr)
      = toasted "Error loading loans" "danger" s') /\
  (forall c r fallback, reason_or (fault (String c r)) fallback = String c r) /\
  (forall fallback, reason_or TypeError fallback = fallback).
Proof.
  split; [apply outcome_total, total_createLoanRequest | ].
  split; [apply outcome_total, total_loadActiveLoans | ].
  split; [apply outcome_total, total_repayLoan | ].
  split; [ | split; [ | split; [ | split]]].
  - intros c error s' tr' Hc Hthrow.
    unfold createLoanRequest. simpl. rewrite Hc.
    rewrite (final_try_catch _ _ _ _ _ _ _ _ Hthrow). reflexivity.
  - intros c error s' tr' Hc Hthrow.
    unfold repayLoan. rewrite Hc.
    rewrite (final_try_catch _ _ _ _ _ _ _ _ Hthrow). reflexivity.
  - intros c acct error s' tr' Hc Ha Hthrow.
    unfold loadActiveLoans. rewrite Hc, Ha.
    rewrite (final_try_catch _ _ _ _ _ _ _ _ Hthrow). reflexivity.
  - reflexivity.
  - reflexivity.
Qed.

Lemma handlers_catch_every_error_witness :
  final (run (answering revertingChain) (createLoanRequest tenDaySubmission)
             tenDaySubmission [])
  = toasted "Insufficient collateral" "danger" tenDaySubmission.
Proof.
  destruct (handlers_catch_every_error (answering revertingChain)
              tenDaySubmission tenDaySubmission (Num.of_Z 4) [])
    as (_ & _ & _ & H & _).
  apply (H (mkContract contractAddress) (fault "Insufficient collateral")
           tenDaySubmission
           [Called PreventDefault tt; Called NewDate newYear2025;
            Called Web3Provider (Ok tt);
            Called (GetTransactionCount (Some alice)) (Ok 7);
            Called GetAddress (Ok alice);
            Called (CreateLoanRequestTx 1000000000000000000 10 5
                      2000000000000000000 7 "0x0f4240")
                   (Err (fault "Insufficient collateral"))]).
  - reflexivity.
  - vm_compute. reflexivity.
Defined.

(** C8 fails as stated.  The read of [loadActiveLoans] is rejected with
    the reason "Platform paused"; the notification shows the fixed text
    and not the reason. *)
Lemma loadActiveLoans_hides_reason :
  let w := answering revertingChain in
  let error := fault "Platform paused" in
  run w (loadActiveLoans_try alice) aliceSession []
  = (Threw error, aliceSession, [Called GetAllActiveLoans (Err error)]) /\
  reason error = Some "Platform paused" /\
  toastVariant (final (run w (loadActiveLoans aliceSession) aliceSession [])) = "danger" /\
  toastMessage (final (run w (loadActiveLoans aliceSession) aliceSession []))
  = "Error loading loans" /\
  toastMessage (final (run w (loadActiveLoans aliceSession) aliceSession []))
  <> reason_or error "Error loading loans".
Proof.
  vm_compute. repeat split; try reflexivity. discriminate.
Qed.

(** ** The notification slot *)

(** A notification shown while none is showing sets the timeout of the
    widget; one shown while another is showing leaves it as it is. *)
Lemma notify_hidden (m v : string) (sc : Screen) :
  showToast (shown sc) = false ->
  autohideToast (widget sc) = false ->
  notify m v sc
  = {| shown := toasted m v (shown sc);
       widget := {| autohideToast := true; timeout := Some (time sc + 3000) |};
       time := time sc |}.
Proof.
  destruct sc as [s [a t] now]. simpl. intros Hs ->.
  unfold notify. simpl. unfold update, afterRender. simpl. rewrite Hs. reflexivity.
Qed.

Lemma notify_showing (m v : string) (sc : Screen) :
  showToast (shown sc) = true ->
  autohideToast (widget sc) = true ->
  notify m v sc
  = {| shown := toasted m v (shown sc); widget := widget sc; time := time sc |}.
Proof.
  destruct sc as [s [a t] now]. simpl. intros Hs ->.
  unfold notify. simpl. unfold update, afterRender. simpl. rewrite Hs. reflexivity.
Qed.

Lemma elapse_armed (s : State) (t now d : Z) :
  elapse d {| shown := s;
              widget := {| autohideToast := true; timeout := Some t |};
              time := now |}
  = if t <=? now + d then
      {| shown := setShowToast false s;
         widget :=
           {| autohideToast := false;
              timeout := if t + 3000 <=? now + d then None else Some (t + 3000) |};
         time := now + d |}
    else
      {| shown := s;
         widget := {| autohideToast := true; timeout := Some t |};
         time := now + d |}.
Proof.
  cbv [elapse tick expired]. cbn [time widget timeout].
  destruct (t <=? now + d) eqn:E.
  - cbv [fire perform onClose set update afterRender renderToast].
    cbn [widget timeout autohideToast shown time autohide show delay
         setShowToast showToast andb Bool.eqb].
    destruct (t + 3000 <=? now + d); reflexivity.
  - cbn [widget timeout]. rewrite E. reflexivity.
Qed.

Lemma elapse_showing (s : State) (t now d : Z) :
  shown (elapse d {| shown := s;
                     widget := {| autohideToast := true; timeout := Some t |};
                     time := now |})
  = if t <=? now + d then setShowToast false s else s.
Proof. rewrite elapse_armed. destruct (t <=? now + d); reflexivity. Qed.

Lemma elapse_widget (s : State) (t now d : Z) :
  t <= now + d ->
  autohideToast
    (widget (elapse d {| shown := s;
                         widget := {| autohideToast := true; timeout := Some t |};
                         time := now |}))
  = false.
Proof.
  intros H. rewrite elapse_armed.
  destruct (Z.leb_spec t (now + d)) as [_ | G]; [reflexivity | lia].
Qed.

Lemma elapse_pending (s : State) (t now d : Z) :
  now + d < t ->
  elapse d {| shown := s;
              widget := {| autohideToast := true; timeout := Some t |};
              time := now |}
  = {| shown := s;
       widget := {| autohideToast := true; timeout := Some t |};
       time := now + d |}.
Proof.
  intros H. rewrite elapse_armed.
  destruct (Z.leb_spec t (now + d)) as [G | _]; [lia | reflexivity].
Qed.

(** C9, as amended.  The notification is a single slot: a call of
    [showToastMessage] overwrites the message and the severity left by the
    call before it, so the latest notification wins; in every state the
    component can reach, however its handlers overtake one another, the
    severity is one of success, warning and danger.  A notification shown
    while none is showing is dismissed by the toast widget 3000
    milliseconds after it is shown, and the slot is then free again.  A
    notification shown while another is still showing takes its place and
    is dismissed with it, 3000 milliseconds after the first was shown. *)
Theorem notification_single_slot
    (w : World) (s : State) (m1 v1 m2 v2 : string) (tr : Trace) :
  final (run w (showToastMessage m1 v1 ;; showToastMessage m2 v2) s tr)
  = final (run w (showToastMessage m2 v2) s tr) /\
  toastMessage (final (run w (showToastMessage m2 v2) s tr)) = m2 /\
  toastVariant (final (run w (showToastMessage m2 v2) s tr)) = v2 /\
  showToast (final (run w (showToastMessage m2 v2) s tr)) = true /\
  (reachable s -> severity (toastVariant s)) /\
  showToast (shown mounted) = false /\
  autohideToast (widget mounted) = false /\
  (forall (sc : Screen) (d1 d2 : Z),
      showToast (shown sc) = false ->
      autohideToast (widget sc) = false ->
      0 <= d1 -> 0 <= d2 ->
      let first := elapse d1 (notify m1 v1 sc) in
      let second := elapse d2 (notify m2 v2 first) in
      shown (notify m1 v1 sc) = final (run w (showToastMessage m1 v1) (shown sc) tr) /\
      (d1 < 3000 -> shown first = toasted m1 v1 (shown sc)) /\
      (3000 <= d1 ->
       shown first = setShowToast false (toasted m1 v1 (shown sc)) /\
       autohideToast (widget first) = false) /\
      (d1 < 3000 -> d1 + d2 < 3000 -> shown second = toasted m2 v2 (shown sc)) /\
      (d1 < 3000 -> 3000 <= d1 + d2 ->
       shown second = setShowToast false (toasted m2 v2 (shown sc)) /\
       autohideToast (widget second) = false)).
Proof.
  split; [reflexivity | ].
  split; [reflexivity | ].
  split; [reflexivity | ].
  split; [reflexivity | ].
  split; [apply reachable_toast_ok | ].
  split; [reflexivity | ].
  split; [reflexivity | ].
  intros sc d1 d2 Hhidden Hidle Hd1 Hd2 first second. subst first second.
  rewrite (notify_hidden m1 v1 sc Hhidden Hidle).
  split; [reflexivity | ].
  split; [ | split; [ | split]].
  - intros Hlt. rewrite elapse_showing.
    destruct (Z.leb_spec (time sc + 3000) (time sc + d1)); [lia | reflexivity].
  - intros Hge. split.
    + rewrite elapse_showing.
      destruct (Z.leb_spec (time sc + 3000) (time sc + d1)); [reflexivity | lia].
    + apply elapse_widget. lia.
  - intros Hlt Hsum.
    rewrite elapse_pending by lia.
    rewrite notify_showing by reflexivity.
    cbn [shown widget time]. rewrite elapse_showing.
    destruct (Z.leb_spec (time sc + 3000) (time sc + d1 + d2)); [lia | reflexivity].
  - intros Hlt Hsum.
    rewrite elapse_pending by lia.
    rewrite notify_showing by reflexivity.
    cbn [shown widget time]. split.
    + rewrite elapse_showing.
      destruct (Z.leb_spec (time sc + 3000) (time sc + d1 + d2)); [reflexivity | lia].
    + apply elapse_widget. lia.
Qed.

Lemma notification_single_slot_witness :
  severity
    (toastVariant
       (final (run (answering revertingChain) (handler Submit tenDaySubmission)
                   initialState []))) /\
  shown (elapse 2999 (notify "Loan repaid successfully" "success" mounted))
  = toasted "Loan repaid successfully" "success" initialState /\
  showToast (shown (elapse 3000 (notify "Loan repaid successfully" "success" mounted)))
  = false.
Proof.
  destruct (notification_single_slot (answering revertingChain)
              (final (run (answering revertingChain) (handler Submit tenDaySubmission)
                          initialState []))
              "Loan repaid successfully" "success" "" "" [])
    as (_ & _ & _ & _ & Hseverity & Hhidden & Hidle & Htimer).
  split; [apply Hseverity; apply reachable_run; apply reachable_initial | ].
  split.
  - destruct (Htimer mounted 2999 0 Hhidden Hidle) as (_ & H & _); [lia | lia | ].
    apply H. lia.
  - destruct (Htimer mounted 3000 0 Hhidden Hidle) as (_ & _ & H & _); [lia | lia | ].
    destruct H as [H _]; [lia | ]. rewrite H. reflexivity.
Defined.

(** C9 fails as stated.  The first render is at time 0 and a
    notification is shown at once; 2000 milliseconds later a second
    notification takes its place.  The widget dismisses it 1000
    milliseconds after it was shown, not 3000. *)
Lemma notification_replaced_is_dismissed_early :
  let first := elapse 2000 (notify "Loan repaid successfully" "success" mounted) in
  let second := notify "Error loading loans" "danger" first in
  showToast (shown first) = true /\
  shown second = toasted "Error loading loans" "danger" initialState /\
  showToast (shown (elapse 1000 second)) = false /\
  toastMessage (shown (elapse 1000 second)) = "Error loading loans" /\
  time (elapse 1000 second) - time second = 1000 /\
  time (elapse 1000 second) - time second < 3000.
Proof. vm_compute. repeat split; reflexivity. Qed.

(** ** Repayment without a price *)

(** [getEthPrice] returns, leaves the state alone and sends no
    transaction. *)
Lemma getEthPrice_run (w : World) (s : State) (tr : Trace) :
  exists price more,
    run w getEthPrice s tr = (Returned price, s, (tr ++ more)%list) /\
    transactions more = [].
Proof.
  unfold getEthPrice. simpl.
  destruct (w tr (result unit) (Fetch priceUrl)) as [[] | e] eqn:Hf; simpl.
  - destruct (w (tr ++ [Called (Fetch priceUrl) (Ok tt)])%list (result PriceData) ResponseJson)
      as [[usd | ] | e] eqn:Hj; simpl.
    + exists usd. eexists. rewrite <- app_assoc. split; reflexivity.
    + exists None. eexists. rewrite <- !app_assoc. split; reflexivity.
    + exists None. eexists. rewrite <- !app_assoc. split; reflexivity.
  - exists None. eexists. rewrite <- app_assoc. split; reflexivity.
Qed.

(** C5.  When the price fetch of a repayment fails, that is, when
    [getEthPrice], reached with the contract bound and the loan read
    (the wallet gives the signer's address, the id encodes, the read
    answers), returns null, [repayLoan] shows the danger notification
    "Error fetching ETH price" and returns: no transaction is sent, and
    the loan list and the balance stay as they were. *)
Theorem repayLoan_aborts_without_price
    (w : World) (snap s : State) (loanId : Num.number)
    (c : Contract) (from : string) (id : Z) (loan : Loan.t) :
  contract snap = Some c ->
  w [] (result string) GetAddress = Ok from ->
  encode_number loanId = Ok id ->
  w [Called GetAddress (Ok from)] (result Loan.t) (ActiveLoans id) = Ok loan ->
  outcome (run w getEthPrice s
             [Called GetAddress (Ok from); Called (ActiveLoans id) (Ok loan)])
  = Returned None ->
  let r := run w (repayLoan snap loanId) s [] in
  outcome r = Returned tt /\
  final r = toasted "Error fetching ETH price" "danger" s /\
  transactions (trace r) = [] /\
  activeLoans (final r) = activeLoans s /\
  balance (final r) = balance s.
Proof.
  intros Hc Hfrom Hid Hloan Hnull r. subst r.
  destruct (getEthPrice_run w s
              [Called GetAddress (Ok from); Called (ActiveLoans id) (Ok loan)])
    as (price & more & Hrun & Hnone).
  rewrite Hrun in Hnull. unfold outcome in Hnull. simpl in Hnull.
  injection Hnull as ->.
  unfold repayLoan. rewrite Hc. unfold repayLoan_try.
  do 3 run_step. rewrite Hfrom. cbv beta iota. change ([] ++ ?l)%list with l.
  do 2 run_step. rewrite Hid. cbv beta iota.
  do 2 run_step. rewrite Hloan. cbv beta iota. change ([?x] ++ ?l)%list with (x :: l).
  run_step. rewrite Hrun. cbv beta iota.
  change (truthy_price None) with (@None Num.number). cbv beta iota.
  run_step.
  repeat split; try reflexivity.
  unfold trace. simpl. exact Hnone.
Qed.

Lemma repayLoan_aborts_without_price_witness :
  let r := run (answering priceOutage) (repayLoan aliceSession (Num.of_Z 4)) aliceSession [] in
  outcome r = Returned tt /\
  final r = toasted "Error fetching ETH price" "danger" aliceSession /\
  transactions (trace r) = [] /\
  activeLoans (final r) = activeLoans aliceSession /\
  balance (final r) = balance aliceSession.
Proof.
  apply (repayLoan_aborts_without_price (answering priceOutage) aliceSession aliceSession
           (Num.of_Z 4) (mkContract contractAddress) alice 4 aliceLoan);
    reflexivity.
Defined.

(** ** A submission, end to end *)
















(** ** The amount of a repayment *)

(** C1.  The claim is that the value attached to a repayment is
    P + floor(P * R / 100) whatever the positive price fetched.  The code
    takes the principal through Numbers, as ether times price divided by
    price, and reads the printed quotient back.  For the loan of 1.5
    ether at 5 percent the amount due is 1575000000000000000 base units,
    and that is what is sent at a price of 2000; at a price of 3500.12
    the quotient is 1.5000000000000002 and the value sent is
    1575000000000000210.  For a loan of 100 base units the quotient prints
    as 1e-16, which [parseEther] rejects, and no amount is computed. *)
Theorem repayLoan_value_depends_on_price :
  let principal := Loan.loanAmount aliceLoan in
  let rate := Loan.interestRate aliceLoan in
  principal + principal * rate / 100 = 1575000000000000000 /\
  totalDue aliceLoan (Num.of_string "2000") = Ok 1575000000000000000 /\
  totalDue aliceLoan (Num.of_string "3500.12") = Ok 1575000000000000210 /\
  transactions
    (trace (run (answering (fairWeather (Num.of_string "3500.12")))
                (repayLoan aliceSession (Num.of_Z 4)) aliceSession []))
  = [Called (RepayLoanTx 4 1575000000000000210 "0x0f4240") (Ok 2)] /\
  totalDue dustLoan (Num.of_string "2000") = Err (fault "invalid decimal value").
Proof.
  vm_compute. repeat split; reflexivity.
Qed.

(** * Further properties of the component *)

(** ** Calls a program never makes *)

Lemma never_run (kind : forall X : Type, Call X -> bool) {A : Type} (w : World) (p : prog A) :
  never kind p ->
  forall s tr,
    filter (entry_is kind) (trace (run w p s tr)) = filter (entry_is kind) tr.
Proof.
  induction p as [a | e | f k IH | X c k IH]; simpl; intros Hp s tr.
  - reflexivity.
  - reflexivity.
  - apply IH, Hp.
  - destruct Hp as [Hc Hk]. rewrite IH by apply Hk.
    rewrite filter_app. simpl. rewrite Hc. apply app_nil_r.
Qed.

Lemma never_bind (kind : forall X : Type, Call X -> bool) {A B : Type}
    (p : prog A) (f : A -> prog B) :
  never kind p -> (forall a, never kind (f a)) -> never kind (bind p f).
Proof.
  intros Hp Hf. induction p as [a | e | g k IH | X c k IH]; simpl in Hp |- *.
  - apply Hf.
  - exact I.
  - apply IH, Hp.
  - destruct Hp as [Hc Hk]. split; [exact Hc | ]. intros x. apply IH, Hk.
Qed.

Lemma never_try_catch (kind : forall X : Type, Call X -> bool) {A : Type}
    (p : prog A) (h : Error -> prog A) :
  never kind p -> (forall e, never kind (h e)) -> never kind (try_catch p h).
Proof.
  intros Hp Hh. induction p as [a | e | g k IH | X c k IH]; simpl in Hp |- *.
  - exact I.
  - apply Hh.
  - apply IH, Hp.
  - destruct Hp as [Hc Hk]. split; [exact Hc | ]. intros x. apply IH, Hk.
Qed.

Lemma never_lift (kind : forall X : Type, Call X -> bool) {A : Type} (r : result A) :
  never kind (lift r).
Proof. destruct r; exact I. Qed.

Lemma never_await (kind : forall X : Type, Call X -> bool) {X : Type} (c : Call (result X)) :
  kind _ c = false -> never kind (await c).
Proof. intros H. split; [exact H | ]. intros [x | e]; exact I. Qed.

Lemma never_ask (kind : forall X : Type, Call X -> bool) {X : Type} (c : Call X) :
  kind _ c = false -> never kind (ask c).
Proof. intros H. split; [exact H | ]. intros x. exact I. Qed.

Lemma never_set (kind : forall X : Type, Call X -> bool) (f : State -> State) :
  never kind (set f).
Proof. exact I. Qed.

Lemma never_showToastMessage (kind : forall X : Type, Call X -> bool) (message variant : string) :
  never kind (showToastMessage message variant).
Proof. exact I. Qed.

Lemma never_new_Date (kind : forall X : Type, Call X -> bool) (s : string) :
  (forall x, kind _ (DateParse x) = false) -> never kind (new_Date s).
Proof.
  intros H. unfold new_Date. destruct (JsDate.parse s); [exact I | ].
  destruct (String.eqb s ""); [exact I | ]. split; [apply H | intros x; exact I].
Qed.

Ltac never_step :=
  match goal with
  | |- never _ (new_Date _) => apply never_new_Date; intros; reflexivity
  | |- never _ (bind _ _) => apply never_bind
  | |- never _ (try_catch _ _) => apply never_try_catch
  | |- never _ (await _) => apply never_await; reflexivity
  | |- never _ (ask _) => apply never_ask; reflexivity
  | |- never _ (lift _) => apply never_lift
  | |- never _ (set _) => apply never_set
  | |- never _ (showToastMessage _ _) => apply never_showToastMessage
  | |- never _ (Ret _) => exact I
  | |- never _ (Throw _) => exact I
  | |- never _ (match ?x with _ => _ end) => destruct x
  | |- forall _, _ => intro
  end.

Lemma quiet_updateBalance (snap : State) : never (@is_transaction) (updateBalance snap).
Proof. unfold updateBalance. repeat never_step. Qed.

Lemma quiet_loadActiveLoans (snap : State) : never (@is_transaction) (loadActiveLoans snap).
Proof.
  unfold loadActiveLoans, loadActiveLoans_try, loadActiveLoans_catch.
  repeat never_step.
Qed.

Lemma quiet_getEthPrice : never (@is_transaction) getEthPrice.
Proof. unfold getEthPrice. repeat never_step. Qed.

Lemma quiet_connectWallet : never (@is_transaction) connectWallet.
Proof. unfold connectWallet. repeat never_step. Qed.

Lemma quiet_loadContract : never (@is_transaction) loadContract.
Proof. unfold loadContract. repeat never_step. Qed.

(** ** At most one transaction *)

Lemma sends_at_most_run {A : Type} (w : World) (p : prog A) :
  forall n s tr,
    sends_at_most n p ->
    (List.length (transactions (trace (run w p s tr)))
     <= List.length (transactions tr) + n)%nat.
Proof.
  induction p as [a | e | f k IH | X c k IH]; simpl; intros n s tr Hp.
  - unfold trace. simpl. lia.
  - unfold trace. simpl. lia.
  - apply IH, Hp.
  - destruct (is_transaction c) eqn:Hc.
    + destruct n as [ | m]; [contradiction | ].
      specialize (IH (w tr X c) m s (tr ++ [Called c (w tr X c)])%list (Hp _)).
      unfold transactions in IH |- *. rewrite filter_app in IH. simpl in IH.
      rewrite Hc in IH. rewrite length_app in IH. simpl in IH. lia.
    + specialize (IH (w tr X c) n s (tr ++ [Called c (w tr X c)])%list (Hp _)).
      unfold transactions in IH |- *. rewrite filter_app in IH. simpl in IH.
      rewrite Hc in IH. rewrite app_nil_r in IH. exact IH.
Qed.

Lemma never_sends_none {A : Type} (p : prog A) :
  never (@is_transaction) p -> forall n, sends_at_most n p.
Proof.
  induction p as [a | e | f k IH | X c k IH]; simpl; intros Hp n.
  - exact I.
  - exact I.
  - apply IH, Hp.
  - destruct Hp as [Hc Hk]. rewrite Hc. intros x. apply IH, Hk.
Qed.

Lemma sends_bind_quiet {A B : Type} (n : nat) (p : prog A) (f : A -> prog B) :
  never (@is_transaction) p -> (forall a, sends_at_most n (f a)) ->
  sends_at_most n (bind p f).
Proof.
  intros Hp Hf. induction p as [a | e | g k IH | X c k IH]; simpl in Hp |- *.
  - apply Hf.
  - exact I.
  - apply IH, Hp.
  - destruct Hp as [Hc Hk]. rewrite Hc. intros x. apply IH, Hk.
Qed.

Lemma sends_bind_transaction {X B : Type} (n : nat) (c : Call (result X))
    (f : X -> prog B) :
  is_transaction c = true -> (forall a, never (@is_transaction) (f a)) ->
  sends_at_most (S n) (bind (await c) f).
Proof.
  intros Hc Hf. simpl. rewrite Hc. intros [x | e]; simpl.
  - apply never_sends_none, Hf.
  - exact I.
Qed.

Lemma sends_try_catch {A : Type} (n : nat) (p : prog A) (h : Error -> prog A) :
  sends_at_most n p -> (forall e, never (@is_transaction) (h e)) ->
  sends_at_most n (try_catch p h).
Proof.
  revert n. induction p as [a | e | g k IH | X c k IH]; simpl; intros n Hp Hh.
  - exact I.
  - apply never_sends_none, Hh.
  - apply IH; [exact Hp | exact Hh].
  - destruct (is_transaction c).
    + destruct n as [ | m]; [contradiction | ]. intros x. apply IH; [apply Hp | exact Hh].
    + intros x. apply IH; [apply Hp | exact Hh].
Qed.

Lemma createLoanRequest_sends_at_most_one (snap : State) :
  sends_at_most 1 (createLoanRequest snap).
Proof.
  unfold createLoanRequest.
  apply sends_bind_quiet; [repeat never_step | intros _].
  destruct (contract snap); [ | exact I].
  apply sends_try_catch; [ | intros e; unfold createLoanRequest_catch; repeat never_step].
  unfold createLoanRequest_try.
  apply sends_bind_quiet; [repeat never_step | intros amountInWei].
  apply sends_bind_quiet; [repeat never_step | intros collateralInWei].
  apply sends_bind_quiet; [repeat never_step | intros target].
  apply sends_bind_quiet; [repeat never_step | intros now].
  cbv zeta.
  match goal with |- sends_at_most _ (if ?b then _ else _) => destruct b end.
  { apply never_sends_none. repeat never_step. }
  apply sends_bind_quiet; [repeat never_step | intros _].
  apply sends_bind_quiet; [repeat never_step | intros nonce].
  apply sends_bind_quiet; [repeat never_step | intros from].
  apply sends_bind_quiet; [repeat never_step | intros loanAmount].
  apply sends_bind_quiet; [repeat never_step | intros days].
  apply sends_bind_quiet; [repeat never_step | intros percent].
  apply sends_bind_quiet; [repeat never_step | intros value].
  apply sends_bind_transaction; [reflexivity | intros tx].
  repeat first [ apply quiet_updateBalance | apply quiet_loadActiveLoans | never_step ].
Qed.

Lemma repayLoan_sends_at_most_one (snap : State) (loanId : Num.number) :
  sends_at_most 1 (repayLoan snap loanId).
Proof.
  unfold repayLoan.
  destruct (contract snap); [ | exact I].
  apply sends_try_catch; [ | intros e; unfold repayLoan_catch; repeat never_step].
  unfold repayLoan_try.
  apply sends_bind_quiet; [repeat never_step | intros from].
  apply sends_bind_quiet; [repeat never_step | intros id].
  apply sends_bind_quiet; [repeat never_step | intros loan].
  apply sends_bind_quiet; [apply quiet_getEthPrice | intros currentEthPrice].
  destruct (truthy_price currentEthPrice) as [price | ].
  2:{ apply never_sends_none. repeat never_step. }
  apply sends_bind_quiet; [repeat never_step | intros due].
  apply sends_bind_quiet; [repeat never_step | intros from'].
  apply sends_bind_quiet; [repeat never_step | intros id'].
  apply sends_bind_quiet; [repeat never_step | intros value].
  apply sends_bind_transaction; [reflexivity | intros tx].
  repeat first [ apply quiet_updateBalance | apply quiet_loadActiveLoans | never_step ].
Qed.

(** X1.  One user action sends at most one transaction, whatever the
    world answers: a submission or a click on Repay sends none or one,
    and mounting, refreshing, typing in the form, a change of account
    and the closing of the notification send none. *)
Theorem one_transaction_per_action (w : World) (a : Action) (snap s : State) :
  let r := run w (handler a snap) s [] in
  (List.length (transactions (trace r)) <= 1)%nat /\
  match a with
  | Submit | Repay _ => True
  | _ => transactions (trace r) = []
  end.
Proof.
  intros r. subst r. split.
  - apply (sends_at_most_run w (handler a snap) 1 s []).
    destruct a; unfold handler.
    + apply never_sends_none. unfold init.
      repeat first [ apply quiet_connectWallet | apply quiet_loadContract
                   | apply quiet_loadActiveLoans | never_step ].
    + apply never_sends_none, quiet_loadActiveLoans.
    + apply never_sends_none. unfold handleInputChange. repeat never_step.
    + apply createLoanRequest_sends_at_most_one.
    + apply repayLoan_sends_at_most_one.
    + apply never_sends_none. unfold accountsChanged. repeat never_step.
    + exact I.
  - destruct a; try exact I; unfold handler;
      apply (never_run (@is_transaction) w _) with (tr := @nil Entry).
    + unfold init.
      repeat first [ apply quiet_connectWallet | apply quiet_loadContract
                   | apply quiet_loadActiveLoans | never_step ].
    + apply quiet_loadActiveLoans.
    + unfold handleInputChange. repeat never_step.
    + unfold accountsChanged. repeat never_step.
    + exact I.
Qed.

(** ** Parts of the state a program leaves alone *)

Lemma keeps_set_frame {T : Type} (proj : State -> T) (Q : T -> Prop) (f : State -> State) :
  (forall s, proj (f s) = proj s) -> keeps (fun s => Q (proj s)) (set f).
Proof.
  intros H. split; [ | exact I]. intros s Hs. now rewrite H.
Qed.

Ltac frame_step proj Q :=
  match goal with
  | |- keeps _ (new_Date _) => apply keeps_new_Date
  | |- keeps _ (bind _ _) => apply keeps_bind
  | |- keeps _ (try_catch _ _) => apply keeps_try_catch
  | |- keeps _ (await _) => apply keeps_await
  | |- keeps _ (ask _) => apply keeps_ask
  | |- keeps _ (lift _) => apply keeps_lift
  | |- keeps _ (Ret _) => exact I
  | |- keeps _ (Throw _) => exact I
  | |- keeps _ (set _) => apply (keeps_set_frame proj Q); intros; reflexivity
  | |- keeps _ (showToastMessage _ _) => unfold showToastMessage
  | |- keeps _ (match ?x with _ => _ end) => destruct x
  | |- forall _, _ => intro
  end.

Lemma connectWallet_keeps_loans (Q : list LoanRow.t -> Prop) :
  keeps (fun s => Q (activeLoans s)) connectWallet.
Proof. unfold connectWallet. repeat frame_step activeLoans Q. Qed.

Lemma loadContract_keeps_loans (Q : list LoanRow.t -> Prop) :
  keeps (fun s => Q (activeLoans s)) loadContract.
Proof. unfold loadContract. repeat frame_step activeLoans Q. Qed.

Lemma connectWallet_reads_nothing : never (@is_read) connectWallet.
Proof. unfold connectWallet. repeat never_step. Qed.

Lemma loadContract_reads_nothing : never (@is_read) loadContract.
Proof. unfold loadContract. repeat never_step. Qed.

Lemma total_connectWallet : total connectWallet.
Proof.
  unfold connectWallet. apply total_try_catch. intros e.
  apply total_report, total_showToastMessage.
Qed.

Lemma total_loadContract : total loadContract.
Proof.
  unfold loadContract. apply total_try_catch. intros e.
  apply total_report, total_showToastMessage.
Qed.

(** ** Mounting *)

(** X2.  The effect run on mount connects the wallet and binds the
    contract but never loads the loans: its call of [loadActiveLoans] is
    the closure of the first render, in which the contract handle is still
    null, so it returns at once.  Whatever the world answers, mounting
    makes no read of the contract and leaves the list as it was; it does
    not throw. *)
Theorem mount_does_not_load_loans (w : World) (s : State) :
  let r := run w (init initialState) s [] in
  outcome r = Returned tt /\
  reads (trace r) = [] /\
  activeLoans (final r) = activeLoans s.
Proof.
  intros r. subst r.
  change (init initialState) with (connectWallet ;; loadContract ;; Ret tt).
  split; [ | split].
  - apply outcome_total.
    apply total_bind; [apply total_connectWallet | intros _].
    apply total_bind; [apply total_loadContract | intros _]. constructor.
  - apply (never_run (@is_read) w _) with (tr := @nil Entry).
    repeat first [ apply connectWallet_reads_nothing
                 | apply loadContract_reads_nothing | never_step ].
  - apply (keeps_run (fun st => activeLoans st = activeLoans s)); [ | reflexivity].
    apply keeps_bind; [apply (connectWallet_keeps_loans (fun l => l = activeLoans s)) | intros _].
    apply keeps_bind; [apply (loadContract_keeps_loans (fun l => l = activeLoans s)) | intros _].
    exact I.
Qed.

(** ** Connecting the wallet *)


(** ** The contract handle *)

(** Every handler keeps a property that all its state updates keep, also
    when handlers overtake one another. *)
Lemma step_keeps (P : State -> Prop) :
  (forall a snap, keeps P (handler a snap)) ->
  forall c c',
    step c c' ->
    P (fst c) /\ Forall (keeps P) (snd c) ->
    P (fst c') /\ Forall (keeps P) (snd c').
Proof.
  intros Hh c c' Hstep [Hs Hpool].
  destruct Hstep as [s pool a snap | s pre post f k | s pre post X c k x
                     | s pre post a | s pre post e];
    simpl in Hs, Hpool |- *.
  - split; [exact Hs | ].
    apply Forall_app. split; [exact Hpool | ].
    constructor; [apply Hh | constructor].
  - apply Forall_app in Hpool. destruct Hpool as [Hpre Hrest].
    inversion Hrest as [ | ? ? Hupd Hpost]; subst.
    destruct Hupd as [Hf Hk].
    split; [apply Hf, Hs | ].
    apply Forall_app. split; [exact Hpre | now constructor].
  - apply Forall_app in Hpool. destruct Hpool as [Hpre Hrest].
    inversion Hrest as [ | ? ? Hk Hpost]; subst.
    split; [exact Hs | ].
    apply Forall_app. split; [exact Hpre | ]. constructor; [apply Hk | exact Hpost].
  - apply Forall_app in Hpool. destruct Hpool as [Hpre Hrest].
    inversion Hrest; subst.
    split; [exact Hs | ]. apply Forall_app. now split.
  - apply Forall_app in Hpool. destruct Hpool as [Hpre Hrest].
    inversion Hrest; subst.
    split; [exact Hs | ]. apply Forall_app. now split.
Qed.

Lemma pool_keeps (P : State -> Prop) :
  (forall a snap, keeps P (handler a snap)) ->
  forall c, reachable_config c -> Forall (keeps P) (snd c).
Proof.
  intros Hh c Hc. induction Hc as [ | c c' _ IH Hstep].
  - constructor.
  - destruct Hstep as [s pool a snap | s pre post f k | s pre post X c0 k x
                       | s pre post a | s pre post e];
      simpl in IH |- *.
    + apply Forall_app. split; [exact IH | ]. constructor; [apply Hh | constructor].
    + apply Forall_app in IH. destruct IH as [Hpre Hrest].
      inversion Hrest as [ | ? ? Hupd Hpost]; subst. destruct Hupd as [_ Hk].
      apply Forall_app. split; [exact Hpre | now constructor].
    + apply Forall_app in IH. destruct IH as [Hpre Hrest].
      inversion Hrest as [ | ? ? Hk Hpost]; subst.
      apply Forall_app. split; [exact Hpre | ]. constructor; [apply Hk | exact Hpost].
    + apply Forall_app in IH. destruct IH as [Hpre Hrest]. inversion Hrest; subst.
      apply Forall_app. now split.
    + apply Forall_app in IH. destruct IH as [Hpre Hrest]. inversion Hrest; subst.
      apply Forall_app. now split.
Qed.

Lemma reachable_keeps (P : State -> Prop) :
  P initialState ->
  (forall a snap, keeps P (handler a snap)) ->
  forall s, reachable s -> P s.
Proof.
  intros H0 Hh s [pool Hc].
  assert (H : P (fst (s, pool)) /\ Forall (keeps P) (snd (s, pool))).
  { induction Hc as [ | c c' _ IH Hstep].
    - split; [exact H0 | constructor].
    - exact (step_keeps P Hh c c' Hstep IH). }
  exact (proj1 H).
Qed.

Lemma keeps_setContract (Q : option Contract -> Prop) :
  Q (Some (mkContract contractAddress)) ->
  keeps (fun s => Q (contract s)) (set (setContract (Some (mkContract contractAddress)))).
Proof. intros H. split; [ | exact I]. intros s _. exact H. Qed.

Lemma handler_keeps_contract (Q : option Contract -> Prop) (a : Action) (snap : State) :
  Q (Some (mkContract contractAddress)) ->
  keeps (fun s => Q (contract s)) (handler a snap).
Proof.
  intros HQ. destruct a; unfold handler.
  - unfold init, connectWallet, loadContract, loadActiveLoans, loadActiveLoans_try,
      loadActiveLoans_catch.
    repeat first [ apply (keeps_setContract Q HQ) | frame_step contract Q ].
  - unfold loadActiveLoans, loadActiveLoans_try, loadActiveLoans_catch.
    repeat frame_step contract Q.
  - unfold handleInputChange. repeat frame_step contract Q.
  - unfold createLoanRequest, createLoanRequest_try, createLoanRequest_catch,
      updateBalance, loadActiveLoans, loadActiveLoans_try, loadActiveLoans_catch.
    repeat frame_step contract Q.
  - unfold repayLoan, repayLoan_try, repayLoan_catch, getEthPrice,
      updateBalance, loadActiveLoans, loadActiveLoans_try, loadActiveLoans_catch.
    repeat frame_step contract Q.
  - unfold accountsChanged. repeat frame_step contract Q.
  - unfold onClose. repeat frame_step contract Q.
Qed.

(** X4.  In every state the component can reach, however its handlers
    overtake one another, the contract handle is null or is the handle at
    the fixed address; and a handle that is bound stays bound: no step of
    any handler sets it back to null or to another address. *)
Theorem contract_handle_is_fixed :
  (forall s, reachable s -> contract_ok s) /\
  (forall c c',
      reachable_config c -> step c c' ->
      contract (fst c) = Some (mkContract contractAddress) ->
      contract (fst c') = Some (mkContract contractAddress)).
Proof.
  split.
  - intros s Hs.
    apply (reachable_keeps (fun st => (fun o => o = None \/ o = Some (mkContract contractAddress))
                                        (contract st))); [now left | | exact Hs].
    intros a snap.
    apply (handler_keeps_contract
             (fun o => o = None \/ o = Some (mkContract contractAddress))).
    now right.
  - intros c c' Hc Hstep Hbound.
    set (Q := fun o : option Contract => o = Some (mkContract contractAddress)).
    assert (Hh : forall a snap, keeps (fun st => Q (contract st)) (handler a snap)).
    { intros a snap. apply (handler_keeps_contract Q). reflexivity. }
    exact (proj1 (step_keeps _ Hh c c' Hstep (conj Hbound (pool_keeps _ Hh c Hc)))).
Qed.

Lemma contract_handle_is_fixed_witness :
  contract_ok (final (run (answering (fairWeather (Num.of_Z 2000)))
                          (handler Mount initialState) initialState [])).
Proof.
  apply (proj1 contract_handle_is_fixed).
  apply reachable_run. apply reachable_initial.
Defined.

(** ** A submission without a date *)




(** ** The price *)

(** X6.  [getEthPrice] never throws and never touches the state.  It
    gives the [usd] entry of the answer when the request succeeds, the
    body reads as JSON and has an [ethereum] entry; a failed request, an
    unreadable body or a body without that entry all give null, after a
    message on the console. *)
Theorem getEthPrice_never_throws (w : World) (s : State) (tr : Trace) :
  let r := run w getEthPrice s tr in
  let fetched := w tr (result unit) (Fetch priceUrl) in
  let body := w (tr ++ [Called (Fetch priceUrl) fetched])%list (result PriceData) ResponseJson in
  final r = s /\
  outcome r
  = Returned match fetched, body with
             | Ok _, Ok (Some usd) => usd
             | _, _ => None
             end /\
  network_calls (trace r)
  = (network_calls tr ++
     match fetched with
     | Ok _ => [Called (Fetch priceUrl) fetched; Called ResponseJson body]
     | Err _ => [Called (Fetch priceUrl) fetched]
     end)%list.
Proof.
  intros r fetched body. subst r fetched body. unfold getEthPrice. simpl.
  destruct (w tr (result unit) (Fetch priceUrl)) as [[] | e]; simpl.
  - destruct (w (tr ++ [Called (Fetch priceUrl) (Ok tt)])%list (result PriceData) ResponseJson)
      as [[usd | ] | e]; simpl;
      (split; [reflexivity | split; [reflexivity | ]]);
      unfold trace, network_calls; simpl; rewrite !filter_app; simpl;
      rewrite <- ?app_assoc; simpl; rewrite ?app_nil_r; reflexivity.
  - split; [reflexivity | split; [reflexivity | ]].
    unfold trace, network_calls. simpl. rewrite !filter_app. simpl.
    rewrite <- ?app_assoc. simpl. rewrite ?app_nil_r. reflexivity.
Qed.

(** X7.  A price of zero, or a price that is NaN, stops a repayment like
    a failed fetch does: [repayLoan] shows the danger notification
    "Error fetching ETH price", sends no transaction and leaves the loan
    list and the balance as they were. *)
Theorem repayLoan_aborts_on_falsy_price
    (w : World) (snap s : State) (loanId : Num.number)
    (c : Contract) (from : string) (id : Z) (loan : Loan.t) (price : Num.number) :
  contract snap = Some c ->
  w [] (result string) GetAddress = Ok from ->
  encode_number loanId = Ok id ->
  w [Called GetAddress (Ok from)] (result Loan.t) (ActiveLoans id) = Ok loan ->
  outcome (run w getEthPrice s
             [Called GetAddress (Ok from); Called (ActiveLoans id) (Ok loan)])
  = Returned (Some price) ->
  Num.falsy price = true ->
  let r := run w (repayLoan snap loanId) s [] in
  outcome r = Returned tt /\
  final r = toasted "Error fetching ETH price" "danger" s /\
  transactions (trace r) = [].
Proof.
  intros Hc Hfrom Hid Hloan Hprice Hfalsy r. subst r.
  destruct (getEthPrice_run w s
              [Called GetAddress (Ok from); Called (ActiveLoans id) (Ok loan)])
    as (p & more & Hrun & Hnone).
  rewrite Hrun in Hprice. unfold outcome in Hprice. simpl in Hprice.
  injection Hprice as ->.
  unfold repayLoan. rewrite Hc. unfold repayLoan_try.
  do 3 run_step. rewrite Hfrom. cbv beta iota. change ([] ++ ?l)%list with l.
  do 2 run_step. rewrite Hid. cbv beta iota.
  do 2 run_step. rewrite Hloan. cbv beta iota. change ([?x] ++ ?l)%list with (x :: l).
  run_step. rewrite Hrun. cbv beta iota.
  unfold truthy_price. rewrite Hfalsy.
  run_step.
  repeat split; try reflexivity.
  unfold trace. simpl. exact Hnone.
Qed.

Lemma repayLoan_aborts_on_falsy_price_witness :
  let r := run (answering (fairWeather (Num.of_Z 0)))
               (repayLoan aliceSession (Num.of_Z 4)) aliceSession [] in
  outcome r = Returned tt /\
  final r = toasted "Error fetching ETH price" "danger" aliceSession /\
  transactions (trace r) = [].
Proof.
  apply (repayLoan_aborts_on_falsy_price (answering (fairWeather (Num.of_Z 0)))
           aliceSession aliceSession (Num.of_Z 4) (mkContract contractAddress)
           alice 4 aliceLoan (Num.of_Z 0));
    reflexivity.
Defined.

(** ** The rows of the table *)

Lemma formatEther_is_an_amount (z : Z) : formatEther z <> "" /\ formatEther z <> "N/A".
Proof.
  unfold formatEther, Chars.of_nonneg.
  destruct (z <? 0); [split; discriminate | ].
  destruct (N.to_uint (Z.to_N (Z.abs z / multiplier))); split; discriminate.
Qed.

Lemma map_index_Forall {A B : Type} (f : A -> nat -> result B) (P : B -> Prop) :
  (forall a index b, f a index = Ok b -> P b) ->
  forall l index bs, map_index f l index = Ok bs -> Forall P bs.
Proof.
  intros Hf l. induction l as [ | a l IH]; intros index bs H; simpl in H.
  - injection H as <-. constructor.
  - destruct (f a index) as [b | e] eqn:Hb; [ | discriminate H]. simpl in H.
    destruct (map_index f l (S index)) as [rest | e] eqn:Hrest; [ | discriminate H].
    simpl in H. injection H as <-.
    constructor; [exact (Hf _ _ _ Hb) | exact (IH _ _ Hrest)].
Qed.

Lemma active_row_ok (loans : list Loan.t) (id : Z) (index : nat) (row : LoanRow.t) :
  active_row loans id index = Ok row -> row_ok row.
Proof.
  unfold active_row. intros H.
  destruct (toNumber id); [ | discriminate H]. simpl in H.
  destruct (nth_error loans index) as [loan | ]; [ | discriminate H].
  destruct (toNumber (Loan.endTime loan)); [ | discriminate H]. simpl in H.
  destruct (toNumber (Loan.interestRate loan)); [ | discriminate H]. simpl in H.
  injection H as <-. unfold row_ok. simpl.
  split; [left; repeat split; discriminate | ].
  split; eexists; reflexivity.
Qed.

Lemma request_row_ok (requests : list Request.t) (id : Z) (index : nat) (row : LoanRow.t) :
  request_row requests id index = Ok row -> row_ok row.
Proof.
  unfold request_row. intros H.
  destruct (toNumber id); [ | discriminate H]. simpl in H.
  destruct (nth_error requests index) as [request | ]; [ | discriminate H].
  destruct (toNumber (Request.duration request)); [ | discriminate H]. simpl in H.
  destruct (toNumber (Request.interestRate request)); [ | discriminate H]. simpl in H.
  injection H as <-. unfold row_ok. simpl.
  split; [right; repeat split; discriminate | ].
  split; eexists; reflexivity.
Qed.

Lemma keeps_bind_lift (P : State -> Prop) {A B : Type} (r : result A) (f : A -> prog B) :
  (forall a, r = Ok a -> keeps P (f a)) -> keeps P (bind (lift r) f).
Proof.
  intros H. destruct r as [a | e]; simpl; [now apply H | exact I].
Qed.

Lemma Forall_filter {A : Type} (P : A -> Prop) (f : A -> bool) (l : list A) :
  Forall P l -> Forall P (filter f l).
Proof.
  intros H. apply Forall_forall. intros x Hx. apply filter_In in Hx.
  rewrite Forall_forall in H. now apply H.
Qed.

Lemma keeps_rows_loadActiveLoans (snap : State) : keeps rows_ok (loadActiveLoans snap).
Proof.
  unfold loadActiveLoans.
  destruct (contract snap); [ | exact I].
  destruct (connected (account snap)) as [acct | ]; [ | exact I].
  apply keeps_try_catch.
  - unfold loadActiveLoans_try. apply keeps_bind; [apply keeps_await | ].
    intros [[[loanIds loans] requestIds] requests].
    apply keeps_bind_lift. intros active Hactive.
    apply keeps_bind_lift. intros pending Hpending.
    split; [ | exact I]. intros s _. unfold rows_ok. simpl.
    apply Forall_filter, Forall_app. split.
    + exact (map_index_Forall _ _ (active_row_ok loans) _ _ _ Hactive).
    + exact (map_index_Forall _ _ (request_row_ok requests) _ _ _ Hpending).
  - intros e. unfold loadActiveLoans_catch, rows_ok.
    repeat frame_step activeLoans (Forall row_ok).
Qed.

Ltac rows_step :=
  first [ apply keeps_rows_loadActiveLoans
        | frame_step activeLoans (Forall row_ok) ].

Lemma handler_keeps_rows (a : Action) (snap : State) : keeps rows_ok (handler a snap).
Proof.
  destruct a; unfold handler.
  - unfold init, connectWallet, loadContract. change rows_ok with (fun s => Forall row_ok (activeLoans s)). repeat rows_step.
  - apply keeps_rows_loadActiveLoans.
  - unfold handleInputChange. change rows_ok with (fun s => Forall row_ok (activeLoans s)). repeat rows_step.
  - unfold createLoanRequest, createLoanRequest_try, createLoanRequest_catch, updateBalance.
    change rows_ok with (fun s => Forall row_ok (activeLoans s)). repeat rows_step.
  - unfold repayLoan, repayLoan_try, repayLoan_catch, getEthPrice, updateBalance.
    change rows_ok with (fun s => Forall row_ok (activeLoans s)). repeat rows_step.
  - unfold accountsChanged. change rows_ok with (fun s => Forall row_ok (activeLoans s)). repeat rows_step.
  - unfold onClose. change rows_ok with (fun s => Forall row_ok (activeLoans s)). repeat rows_step.
Qed.


Lemma plain_app (s t : string) : plain s -> plain (s ++ t).
Proof. destruct s; [intros [] | exact (fun H => H)]. Qed.

Lemma plain_of_nonneg (z : Z) : plain (Chars.of_nonneg z).
Proof.
  unfold Chars.of_nonneg.
  destruct (N.to_uint (Z.to_N z)); reflexivity.
Qed.

Lemma plain_prefix (ds rest : string) (n : nat) :
  plain ds -> plain (substring 0 n ds ++ "." ++ rest).
Proof.
  destruct ds as [ | c ds]; [intros [] | ]. intros H.
  destruct n; [reflexivity | exact H].
Qed.

Lemma plain_layout (ds : string) (k n : Z) : plain ds -> plain (Num.layout ds k n).
Proof.
  intros H. unfold Num.layout.
  destruct ((k <=? n) && (n <=? 21))%bool; [now apply plain_app | ].
  destruct ((0 <? n) && (n <=? 21))%bool; [now apply plain_prefix | ].
  destruct ((-6 <? n) && (n <=? 0))%bool; [reflexivity | ].
  destruct (k =? 1); [now apply plain_app | now apply plain_prefix].
Qed.

Lemma plain_toString (x : Num.number) : plain (Num.toString x).
Proof.
  destruct x as [s | s | | s m e]; try reflexivity.
  - destruct s; reflexivity.
  - unfold Num.toString.
    destruct (Num.shortest m e) as [[d k] n].
    destruct s; [reflexivity | ].
    apply plain_layout, plain_of_nonneg.
Qed.

Lemma length_append (s t : string) :
  String.length (s ++ t) = (String.length s + String.length t)%nat.
Proof. induction s as [ | c s IH]; simpl; [reflexivity | now rewrite IH]. Qed.

Lemma append_cancel (t : string) : forall a b : string, (a ++ t = b ++ t)%string -> a = b.
Proof.
  induction a as [ | c a IH]; intros [ | d b] H; simpl in H.
  - reflexivity.
  - apply (f_equal String.length) in H. simpl in H. rewrite length_append in H. lia.
  - apply (f_equal String.length) in H. simpl in H. rewrite length_append in H. lia.
  - injection H as -> H. now rewrite (IH b H).
Qed.

Lemma row_ok_shown (row : LoanRow.t) : row_ok row -> row_shown (renderRow row).
Proof.
  intros [Htag [_ [wei Hstake]]].
  destruct (formatEther_is_an_amount wei) as [Hsome Hna].
  rewrite <- Hstake in Hsome, Hna.
  assert (Hcell : Text (match LoanRow.stake row with
                        | EmptyString => "N/A"
                        | stake => stake
                        end ++ " ETH") <> Text "N/A ETH").
  { destruct (LoanRow.stake row) as [ | c r] eqn:Hs; [contradiction | ].
    intros H.
    apply (f_equal (fun cell => match cell with Text x => x | _ => "" end)) in H.
    now apply (append_cancel " ETH" _ "N/A") in H. }
  destruct Htag as [(Hstate & Hend & Hduration) | (Hstate & Hduration & Hend)];
    unfold row_shown, renderRow; simpl; rewrite Hstate; simpl.
  - destruct (LoanRow.endTime row) as [t | ]; [ | contradiction].
    repeat split; try discriminate; exact Hcell.
  - destruct (LoanRow.duration row) as [d | ]; [ | contradiction].
    split; [discriminate | ].
    split; [ | split; [exact Hcell | split; [intros H; now elim H | discriminate]]].
    intros H.
    apply (f_equal (fun cell => match cell with Text x => x | _ => "" end)) in H.
    apply (append_cancel " days" _ "undefined") in H.
    pose proof (plain_toString d) as Hplain.
    rewrite H in Hplain. discriminate Hplain.
Qed.

(** X8.  In every state the component can be in, every row of the table
    shows what it is meant to show: a due date on an ACTIVE row and a
    count of days on a PENDING row, never an empty cell and never
    "undefined days"; a stake, never the fallback N/A; and a Repay button
    exactly on the rows tagged ACTIVE. *)
Theorem table_rows_complete (s : State) :
  reachable s -> Forall row_shown (renderTable s).
Proof.
  intros H.
  assert (Hrows : rows_ok s).
  { apply (reachable_keeps rows_ok); [constructor | apply handler_keeps_rows | exact H]. }
  unfold renderTable. apply Forall_forall. intros row Hin.
  apply in_map_iff in Hin. destruct Hin as [loan [<- Hin]].
  apply row_ok_shown. unfold rows_ok in Hrows. rewrite Forall_forall in Hrows.
  now apply Hrows.
Qed.

Lemma table_rows_complete_witness :
  let w := answering (fairWeather (Num.of_Z 2000)) in
  let loaded := final (run w (handler Refresh aliceSession) initialState []) in
  List.length (renderTable loaded) = 2%nat /\ Forall row_shown (renderTable loaded).
Proof.
  split; [reflexivity | ].
  apply (table_rows_complete
           (final (run (answering (fairWeather (Num.of_Z 2000)))
                       (handler Refresh aliceSession) initialState []))).
  apply reachable_run. apply reachable_initial.
Defined.

(** ** Result sets that load, and result sets that do not *)

Lemma toNumber_inv (z : Z) (x : Num.number) :
  toNumber z = Ok x -> safe z /\ x = Num.of_Z z.
Proof.
  unfold toNumber, safe.
  destruct (Z.ltb_spec (Z.abs z) (2 ^ 53)) as [H | H]; [ | discriminate].
  intros E. injection E as <-. now split.
Qed.

Lemma nth_error_end {A : Type} (pre : list A) :
  nth_error (pre ++ []) (List.length pre) = None.
Proof. apply nth_error_None. rewrite app_nil_r. apply Nat.le_refl. Qed.

Lemma map_index_active_inv (ids : list Z) :
  forall (pre rest : list Loan.t) (rows : list LoanRow.t),
    map_index (active_row (pre ++ rest)) ids (List.length pre) = Ok rows ->
    details_ok loan_safe ids rest /\ rows = map active_view (combine ids rest).
Proof.
  induction ids as [ | id ids IH]; intros pre rest rows H.
  - simpl in H. injection H as <-.
    split; [ | reflexivity].
    split; [constructor | split; [apply Nat.le_0_l | constructor]].
  - simpl map_index in H. unfold active_row at 1 in H.
    destruct (toNumber id) as [n | e] eqn:Hid; [ | discriminate H].
    apply toNumber_inv in Hid. destruct Hid as [Hid ->]. simpl Js.bind in H.
    destruct rest as [ | loan rest].
    { rewrite nth_error_end in H. discriminate H. }
    rewrite nth_error_middle in H.
    destruct (toNumber (Loan.endTime loan)) as [t | e] eqn:Hend; [ | discriminate H].
    apply toNumber_inv in Hend. destruct Hend as [Hend ->]. simpl Js.bind in H.
    destruct (toNumber (Loan.interestRate loan)) as [q | e] eqn:Hrate; [ | discriminate H].
    apply toNumber_inv in Hrate. destruct Hrate as [Hrate ->]. simpl Js.bind in H.
    specialize (IH (pre ++ [loan])%list rest).
    rewrite <- app_assoc in IH. simpl app in IH.
    rewrite length_app in IH. simpl List.length in IH.
    rewrite Nat.add_1_r in IH.
    destruct (map_index (active_row (pre ++ loan :: rest)) ids (S (List.length pre)))
      as [tail | e]; [ | discriminate H].
    simpl in H. injection H as <-.
    destruct (IH tail eq_refl) as [(Hids & Hlen & Hrest) ->].
    split; [ | reflexivity].
    split; [now constructor | split; [simpl; lia | ]].
    simpl. constructor; [now split | exact Hrest].
Qed.

Lemma map_index_request_inv (ids : list Z) :
  forall (pre rest : list Request.t) (rows : list LoanRow.t),
    map_index (request_row (pre ++ rest)) ids (List.length pre) = Ok rows ->
    details_ok request_safe ids rest /\ rows = map request_view (combine ids rest).
Proof.
  induction ids as [ | id ids IH]; intros pre rest rows H.
  - simpl in H. injection H as <-.
    split; [ | reflexivity].
    split; [constructor | split; [apply Nat.le_0_l | constructor]].
  - simpl map_index in H. unfold request_row at 1 in H.
    destruct (toNumber id) as [n | e] eqn:Hid; [ | discriminate H].
    apply toNumber_inv in Hid. destruct Hid as [Hid ->]. simpl Js.bind in H.
    destruct rest as [ | request rest].
    { rewrite nth_error_end in H. discriminate H. }
    rewrite nth_error_middle in H.
    destruct (toNumber (Request.duration request)) as [t | e] eqn:Hend; [ | discriminate H].
    apply toNumber_inv in Hend. destruct Hend as [Hend ->]. simpl Js.bind in H.
    destruct (toNumber (Request.interestRate request)) as [q | e] eqn:Hrate;
      [ | discriminate H].
    apply toNumber_inv in Hrate. destruct Hrate as [Hrate ->]. simpl Js.bind in H.
    specialize (IH (pre ++ [request])%list rest).
    rewrite <- app_assoc in IH. simpl app in IH.
    rewrite length_app in IH. simpl List.length in IH.
    rewrite Nat.add_1_r in IH.
    destruct (map_index (request_row (pre ++ request :: rest)) ids (S (List.length pre)))
      as [tail | e]; [ | discriminate H].
    simpl in H. injection H as <-.
    destruct (IH tail eq_refl) as [(Hids & Hlen & Hrest) ->].
    split; [ | reflexivity].
    split; [now constructor | split; [simpl; lia | ]].
    simpl. constructor; [now split | exact Hrest].
Qed.

Lemma map_index_active_ok (ids : list Z) :
  forall (pre rest : list Loan.t),
    details_ok loan_safe ids rest ->
    map_index (active_row (pre ++ rest)) ids (List.length pre)
    = Ok (map active_view (combine ids rest)).
Proof.
  induction ids as [ | id ids IH]; intros pre rest (Hids & Hlen & Hrest).
  - reflexivity.
  - destruct rest as [ | loan rest]; [simpl in Hlen; lia | ].
    inversion Hids as [ | ? ? Hid Hids']; subst.
    simpl in Hrest. inversion Hrest as [ | ? ? [Hend Hrate] Hrest']; subst.
    simpl map_index. unfold active_row at 1.
    rewrite (toNumber_safe _ Hid). simpl Js.bind.
    rewrite nth_error_middle.
    rewrite (toNumber_safe _ Hend), (toNumber_safe _ Hrate). simpl Js.bind.
    specialize (IH (pre ++ [loan])%list rest).
    rewrite <- app_assoc in IH. simpl app in IH.
    rewrite length_app in IH. simpl List.length in IH.
    rewrite Nat.add_1_r in IH.
    rewrite IH; [reflexivity | ].
    split; [exact Hids' | split; [simpl in Hlen; lia | exact Hrest']].
Qed.

Lemma map_index_request_ok (ids : list Z) :
  forall (pre rest : list Request.t),
    details_ok request_safe ids rest ->
    map_index (request_row (pre ++ rest)) ids (List.length pre)
    = Ok (map request_view (combine ids rest)).
Proof.
  induction ids as [ | id ids IH]; intros pre rest (Hids & Hlen & Hrest).
  - reflexivity.
  - destruct rest as [ | request rest]; [simpl in Hlen; lia | ].
    inversion Hids as [ | ? ? Hid Hids']; subst.
    simpl in Hrest. inversion Hrest as [ | ? ? [Hend Hrate] Hrest']; subst.
    simpl map_index. unfold request_row at 1.
    rewrite (toNumber_safe _ Hid). simpl Js.bind.
    rewrite nth_error_middle.
    rewrite (toNumber_safe _ Hend), (toNumber_safe _ Hrate). simpl Js.bind.
    specialize (IH (pre ++ [request])%list rest).
    rewrite <- app_assoc in IH. simpl app in IH.
    rewrite length_app in IH. simpl List.length in IH.
    rewrite Nat.add_1_r in IH.
    rewrite IH; [reflexivity | ].
    split; [exact Hids' | split; [simpl in Hlen; lia | exact Hrest']].
Qed.

(** What [loadActiveLoans] does with the result set the chain gives. *)
Lemma run_loadActiveLoans (w : World) (snap s : State) (tr : Trace)
    (c : Contract) (acct : string)
    (loanIds : list Z) (loans : list Loan.t)
    (requestIds : list Z) (requests : list Request.t) :
  contract snap = Some c ->
  connected (account snap) = Some acct ->
  w tr (result AllLoans) GetAllActiveLoans = Ok (loanIds, loans, requestIds, requests) ->
  (loads_ok (loanIds, loans, requestIds, requests) /\
   final (run w (loadActiveLoans snap) s tr)
   = setActiveLoans
       (filter (same_borrower acct)
          (map active_view (combine loanIds loans)
             ++ map request_view (combine requestIds requests))) s) \/
  (~ loads_ok (loanIds, loans, requestIds, requests) /\
   final (run w (loadActiveLoans snap) s tr)
   = toasted "Error loading loans" "danger" s).
Proof.
  intros Hc Ha Hw. unfold loadActiveLoans. rewrite Hc, Ha.
  unfold loadActiveLoans_try, loadActiveLoans_catch.
  do 3 run_step. rewrite Hw. cbv beta iota.
  do 2 run_step.
  destruct (map_index (active_row loans) loanIds 0) as [active | e] eqn:Hactive;
    cbv beta iota.
  - apply (map_index_active_inv loanIds [] loans) in Hactive.
    destruct Hactive as [Hloans ->].
    do 2 run_step.
    destruct (map_index (request_row requests) requestIds 0) as [pending | e] eqn:Hpending;
      cbv beta iota.
    + apply (map_index_request_inv requestIds [] requests) in Hpending.
      destruct Hpending as [Hrequests ->].
      run_step. left. split; [now split | reflexivity].
    + do 3 run_step. right. split; [ | reflexivity].
      intros [_ Hrequests].
      pose proof (map_index_request_ok requestIds [] requests Hrequests) as H.
      simpl in H. congruence.
  - do 3 run_step. right. split; [ | reflexivity].
    intros [Hloans _].
    pose proof (map_index_active_ok loanIds [] loans Hloans) as H.
    simpl in H. congruence.
Qed.

(** X9.  A result set that does not fit is not shown at all: when an id,
    an end time, a duration or a rate that is read does not fit 53 bits,
    or an id has no detail record, [loadActiveLoans] shows "Error loading
    loans" as a danger notification and leaves the list as it was, also
    when every other row of the result set could have been shown. *)
Theorem loadActiveLoans_rejects_misfit
    (w : World) (snap s : State) (tr : Trace) (c : Contract) (acct : string)
    (all : AllLoans) :
  contract snap = Some c ->
  connected (account snap) = Some acct ->
  w tr (result AllLoans) GetAllActiveLoans = Ok all ->
  ~ loads_ok all ->
  let r := run w (loadActiveLoans snap) s tr in
  final r = toasted "Error loading loans" "danger" s /\
  activeLoans (final r) = activeLoans s.
Proof.
  destruct all as [[[loanIds loans] requestIds] requests].
  intros Hc Ha Hw Hbad r. subst r.
  destruct (run_loadActiveLoans w snap s tr c acct _ _ _ _ Hc Ha Hw) as [[Hok _] | [_ ->]].
  - contradiction.
  - split; reflexivity.
Qed.

Lemma loadActiveLoans_rejects_misfit_witness :
  let r := run (answering missingDetails) (loadActiveLoans aliceSession) aliceSession [] in
  final r = toasted "Error loading loans" "danger" aliceSession /\
  activeLoans (final r) = activeLoans aliceSession.
Proof.
  apply (loadActiveLoans_rejects_misfit (answering missingDetails) aliceSession aliceSession
           [] (mkContract contractAddress) alice ([4; 5], [aliceLoan], [], []));
    try reflexivity.
  intros [(_ & Hlen & _) _]. simpl in Hlen. lia.
Defined.

Lemma repayButtons_app (a b : list TableRow) :
  repayButtons (a ++ b) = (repayButtons a ++ repayButtons b)%list.
Proof.
  induction a as [ | row a IH]; simpl; [reflexivity | ].
  destruct (repayButton row); simpl; now rewrite IH.
Qed.

Lemma repayButtons_active (acct : string) (l : list (Z * Loan.t)) :
  repayButtons (map renderRow (filter (same_borrower acct) (map active_view l)))
  = map (fun p => Num.of_Z (fst p)) (filter (own_loan acct) l).
Proof.
  induction l as [ | [id loan] l IH]; simpl; [reflexivity | ].
  unfold same_borrower at 1, own_loan at 1. simpl.
  destruct (String.eqb (Chars.toLowerCase (Loan.borrower loan)) (Chars.toLowerCase acct));
    simpl; now rewrite IH.
Qed.

Lemma repayButtons_pending (acct : string) (l : list (Z * Request.t)) :
  repayButtons (map renderRow (filter (same_borrower acct) (map request_view l))) = [].
Proof.
  induction l as [ | [id request] l IH]; simpl; [reflexivity | ].
  unfold same_borrower at 1. simpl.
  destruct (String.eqb (Chars.toLowerCase (Request.borrower request))
              (Chars.toLowerCase acct));
    simpl; exact IH.
Qed.

(** X10.  After a load that goes well, the Repay buttons of the table
    are, top to bottom, the active loans of the chain whose borrower is
    the connected account, in the order of the chain; each button passes
    [repayLoan] the id of its loan as a Number.  No request has a Repay
    button. *)
Theorem repay_buttons_are_own_loans
    (w : World) (snap s : State) (tr : Trace) (c : Contract) (acct : string)
    (loanIds : list Z) (loans : list Loan.t)
    (requestIds : list Z) (requests : list Request.t) :
  contract snap = Some c ->
  connected (account snap) = Some acct ->
  w tr (result AllLoans) GetAllActiveLoans = Ok (loanIds, loans, requestIds, requests) ->
  loads_ok (loanIds, loans, requestIds, requests) ->
  repayButtons (renderTable (final (run w (loadActiveLoans snap) s tr)))
  = map (fun p => Num.of_Z (fst p)) (filter (own_loan acct) (combine loanIds loans)).
Proof.
  intros Hc Ha Hw Hok.
  destruct (run_loadActiveLoans w snap s tr c acct _ _ _ _ Hc Ha Hw) as [[_ ->] | [Hbad _]];
    [ | contradiction].
  unfold renderTable. simpl activeLoans.
  rewrite filter_app, map_app, repayButtons_app.
  rewrite repayButtons_active, repayButtons_pending. apply app_nil_r.
Qed.

Lemma repay_buttons_are_own_loans_witness :
  repayButtons
    (renderTable
       (final (run (answering (fairWeather (Num.of_Z 2000)))
                   (loadActiveLoans aliceSession) aliceSession [])))
  = [Num.of_Z 4].
Proof.
  apply (repay_buttons_are_own_loans (answering (fairWeather (Num.of_Z 2000)))
           aliceSession aliceSession [] (mkContract contractAddress) alice
           [4] [aliceLoan] [5; 6] [bobRequest; aliceRequest]);
    try reflexivity.
  split; (split; [ | split; [simpl; lia | ]]);
    repeat constructor; unfold safe; simpl; lia.
Defined.

(** ** Repayments *)

Lemma run_repayLoan_confirmed (w : World) (snap s : State) (loanId : Num.number)
    (from : string) (id : Z) (loan : Loan.t) (price : Num.number) (due tx : Z) :
  encode_number loanId = Ok id ->
  repayment_confirmed w from id loan price due tx ->
  run w (repayLoan_try snap loanId) s []
  = run w (updateBalance snap ;; loadActiveLoans snap)
        (toasted "Loan repaid successfully" "success" s)
        (confirmation from id loan price due tx).
Proof.
  intros Hid H. unfold repayLoan_try.
  match goal with |- _ = ?rhs => set (paid := rhs) end.
  do 2 run_step. rewrite (signer_found _ _ _ _ _ _ _ H). cbv beta iota.
  do 2 run_step. rewrite Hid. cbv beta iota.
  do 2 run_step. rewrite (loan_read _ _ _ _ _ _ _ H). cbv beta iota.
  run_step. unfold getEthPrice at 1.
  do 3 run_step. rewrite (price_fetched _ _ _ _ _ _ _ H). cbv beta iota.
  do 2 run_step. rewrite (price_given _ _ _ _ _ _ _ H). cbv beta iota.
  change (run w (Ret (Some price)) ?s0 ?tr0) with (Returned (Some price), s0, tr0).
  cbv beta iota.
  unfold truthy_price. rewrite (price_truthy _ _ _ _ _ _ _ H).
  do 2 run_step. rewrite (due_computed _ _ _ _ _ _ _ H). cbv beta iota.
  do 2 run_step. rewrite (signer_found _ _ _ _ _ _ _ H). cbv beta iota.
  do 2 run_step.
  do 2 run_step. rewrite (due_written _ _ _ _ _ _ _ H). cbv beta iota.
  do 2 run_step. rewrite (repay_sent _ _ _ _ _ _ _ H). cbv beta iota.
  do 2 run_step. rewrite (repay_mined _ _ _ _ _ _ _ H). cbv beta iota.
  do 2 run_step.
  reflexivity.
Qed.

(** X11.  A repayment that the chain has confirmed is reported as failed
    when the balance cannot be read afterwards: the success notification
    is replaced by a danger notification with the reason of the failed
    read, or "Error repaying loan" when it has none, and the list of
    loans is not fetched again.  The repayment transaction has been sent
    and mined all the same. *)
Theorem repayLoan_reports_failed_refresh
    (w : World) (snap s : State) (loanId : Num.number) (c : Contract)
    (from : string) (id : Z) (loan : Loan.t) (price : Num.number) (due tx : Z)
    (e : Error) :
  contract snap = Some c ->
  encode_number loanId = Ok id ->
  repayment_confirmed w from id loan price due tx ->
  (forall tr, w tr (result unit) Web3Provider = Ok tt) ->
  (forall tr, w tr (result Z) (GetBalance (account snap)) = Err e) ->
  let r := run w (repayLoan snap loanId) s [] in
  outcome r = Returned tt /\
  transactions (trace r) = [Called (RepayLoanTx id due (hexlify 1000000)) (Ok tx)] /\
  reads (trace r) = [Called (ActiveLoans id) (Ok loan)] /\
  final r = toasted (reason_or e "Error repaying loan") "danger" s.
Proof.
  intros Hc Hid Hpaid Hprovider Hbalance r. subst r.
  unfold repayLoan. rewrite Hc.
  rewrite run_try_catch, (run_repayLoan_confirmed w snap s loanId _ _ _ _ _ _ Hid Hpaid).
  unfold updateBalance, repayLoan_catch.
  do 3 run_step. rewrite Hprovider. cbv beta iota.
  do 2 run_step. rewrite Hbalance. cbv beta iota.
  do 3 run_step.
  repeat split; reflexivity.
Qed.

Lemma repayLoan_reports_failed_refresh_witness :
  let r := run (answering balanceOutage) (repayLoan aliceSession (Num.of_Z 4))
               aliceSession [] in
  outcome r = Returned tt /\
  transactions (trace r)
  = [Called (RepayLoanTx 4 1575000000000000000 (hexlify 1000000)) (Ok 2)] /\
  reads (trace r) = [Called (ActiveLoans 4) (Ok aliceLoan)] /\
  final r = toasted "missing response" "danger" aliceSession.
Proof.
  apply (repayLoan_reports_failed_refresh (answering balanceOutage) aliceSession aliceSession
           (Num.of_Z 4) (mkContract contractAddress) alice 4 aliceLoan (Num.of_Z 2000)
           1575000000000000000 2 (fault "missing response"));
    try reflexivity.
  constructor; reflexivity.
Defined.

(** X12.  A repayment that goes well from end to end: one transaction is
    sent, for the loan of the row and with the amount due as its value;
    after its confirmation the balance is read again for the account of
    the render and the list of loans is fetched again and filtered for
    that account.  The notification "Loan repaid successfully" is shown
    before the two refreshes and is still shown at the end. *)
Theorem repayLoan_end_to_end
    (w : World) (snap s : State) (loanId : Num.number) (c : Contract)
    (acct from : string)
    (id : Z) (loan : Loan.t) (price : Num.number) (due tx newBalance : Z)
    (loanIds : list Z) (loans : list Loan.t)
    (requestIds : list Z) (requests : list Request.t) :
  contract snap = Some c ->
  connected (account snap) = Some acct ->
  encode_number loanId = Ok id ->
  repayment_confirmed w from id loan price due tx ->
  (forall tr, w tr (result unit) Web3Provider = Ok tt) ->
  (forall tr, w tr (result Z) (GetBalance (account snap)) = Ok newBalance) ->
  (forall tr, w tr (result AllLoans) GetAllActiveLoans
              = Ok (loanIds, loans, requestIds, requests)) ->
  loads_ok (loanIds, loans, requestIds, requests) ->
  let r := run w (repayLoan snap loanId) s [] in
  outcome r = Returned tt /\
  trace r
  = (confirmation from id loan price due tx
       ++ [Called Web3Provider (Ok tt);
           Called (GetBalance (account snap)) (Ok newBalance);
           Called GetAllActiveLoans (Ok (loanIds, loans, requestIds, requests))])%list /\
  transactions (trace r) = [Called (RepayLoanTx id due (hexlify 1000000)) (Ok tx)] /\
  final r
  = setActiveLoans
      (filter (same_borrower acct)
         (map active_view (combine loanIds loans)
            ++ map request_view (combine requestIds requests)))
      (setBalance (formatEther newBalance)
         (toasted "Loan repaid successfully" "success" s)).
Proof.
  intros Hc Ha Hid Hpaid Hprovider Hbalance Hall [Hloans Hrequests] r. subst r.
  unfold repayLoan. rewrite Hc.
  rewrite run_try_catch, (run_repayLoan_confirmed w snap s loanId _ _ _ _ _ _ Hid Hpaid).
  unfold updateBalance.
  do 3 run_step. rewrite Hprovider. cbv beta iota.
  do 2 run_step. rewrite Hbalance. cbv beta iota.
  run_step.
  unfold loadActiveLoans. rewrite Hc, Ha.
  unfold loadActiveLoans_try.
  do 3 run_step. rewrite Hall. cbv beta iota.
  pose proof (map_index_active_ok loanIds [] loans Hloans) as Hactive.
  pose proof (map_index_request_ok requestIds [] requests Hrequests) as Hpending.
  simpl in Hactive, Hpending.
  do 2 run_step. rewrite Hactive. cbv beta iota.
  do 2 run_step. rewrite Hpending. cbv beta iota.
  run_step.
  repeat split; reflexivity.
Qed.

Lemma repayLoan_end_to_end_witness :
  let r := run (answering (fairWeather (Num.of_Z 2000)))
               (repayLoan aliceSession (Num.of_Z 4)) aliceSession [] in
  transactions (trace r)
  = [Called (RepayLoanTx 4 1575000000000000000 (hexlify 1000000)) (Ok 2)] /\
  toastMessage (final r) = "Loan repaid successfully" /\
  List.length (activeLoans (final r)) = 2%nat.
Proof.
  destruct (repayLoan_end_to_end (answering (fairWeather (Num.of_Z 2000)))
              aliceSession aliceSession (Num.of_Z 4) (mkContract contractAddress) alice
              alice 4 aliceLoan (Num.of_Z 2000) 1575000000000000000 2 5000000000000000000
              [4] [aliceLoan] [5; 6] [bobRequest; aliceRequest])
    as (_ & _ & Htx & Hfinal);
    try reflexivity.
  - constructor; reflexivity.
  - split; (split; [ | split; [simpl; lia | ]]);
      repeat constructor; unfold safe; simpl; lia.
  - split; [exact Htx | ]. rewrite Hfinal. split; reflexivity.
Defined.

Lemma transactions_app (a b : Trace) :
  transactions (a ++ b)%list = (transactions a ++ transactions b)%list.
Proof. apply filter_app. Qed.

Ltac unchanged_but how :=
  unfold final, trace; cbn [fst snd];
  rewrite ?transactions_app; cbn [transactions filter entry_is is_transaction];
  rewrite ?app_nil_r;
  repeat split; try reflexivity; how.

(** X13.  [loadActiveLoans] is all or nothing, whatever the chain
    answers: it returns, and it either leaves the state as it was, or
    replaces the list of loans and nothing else, or leaves the list as it
    was and shows "Error loading loans" as a danger notification.  It
    never changes the form, the account, the balance or the contract
    handle, and it sends no transaction. *)
Theorem loadActiveLoans_all_or_nothing
    (w : World) (snap s : State) (tr : Trace) :
  let r := run w (loadActiveLoans snap) s tr in
  outcome r = Returned tt /\
  (final r = s \/
   (exists rows, final r = setActiveLoans rows s) \/
   final r = toasted "Error loading loans" "danger" s) /\
  formData (final r) = formData s /\
  account (final r) = account s /\
  balance (final r) = balance s /\
  contract (final r) = contract s /\
  transactions (trace r) = transactions tr.
Proof.
  intros r. subst r.
  split; [apply outcome_total, total_loadActiveLoans | ].
  unfold loadActiveLoans.
  destruct (contract snap) as [c | ];
    [ | repeat split; try reflexivity; now left].
  destruct (connected (account snap)) as [acct | ];
    [ | repeat split; try reflexivity; now left].
  unfold loadActiveLoans_try, loadActiveLoans_catch.
  do 3 run_step.
  destruct (w tr (result AllLoans) GetAllActiveLoans)
    as [[[[loanIds loans] requestIds] requests] | e]; cbv beta iota.
  - do 2 run_step.
    destruct (map_index (active_row loans) loanIds 0) as [active | e]; cbv beta iota.
    + do 2 run_step.
      destruct (map_index (request_row requests) requestIds 0) as [pending | e];
        cbv beta iota.
      * run_step. unchanged_but ltac:(right; left; eexists; reflexivity).
      * do 3 run_step. unchanged_but ltac:(now right; right).
    + do 3 run_step. unchanged_but ltac:(now right; right).
  - do 3 run_step. unchanged_but ltac:(now right; right).
Qed.

(** ** Loan ids, from the chain to the table and back *)

Lemma iter_xO_value (p n : positive) :
  Z.pos (Pos.iter xO p n) = Z.pos p * 2 ^ Z.pos n.
Proof.
  induction n as [ | n IH] using Pos.peano_ind.
  - simpl. lia.
  - rewrite Pos.iter_succ, Pos2Z.inj_succ, Z.pow_succ_r by lia.
    rewrite Pos2Z.inj_xO, IH. lia.
Qed.

Lemma iter_xO_digits (p n : positive) :
  digits2_pos (Pos.iter xO p n) = (digits2_pos p + n)%positive.
Proof.
  induction n as [ | n IH] using Pos.peano_ind.
  - simpl. lia.
  - rewrite Pos.iter_succ. simpl. rewrite IH. lia.
Qed.

Lemma digits2_pos_lower (p : positive) : 2 ^ (Z.pos (digits2_pos p) - 1) <= Z.pos p.
Proof.
  induction p as [p IH | p IH | ]; simpl digits2_pos.
  - rewrite Pos2Z.inj_succ.
    replace (Z.succ (Z.pos (digits2_pos p)) - 1) with (Z.succ (Z.pos (digits2_pos p) - 1))
      by lia.
    rewrite Z.pow_succ_r by lia. lia.
  - rewrite Pos2Z.inj_succ.
    replace (Z.succ (Z.pos (digits2_pos p)) - 1) with (Z.succ (Z.pos (digits2_pos p) - 1))
      by lia.
    rewrite Z.pow_succ_r by lia. lia.
  - simpl. lia.
Qed.

Lemma digits2_pos_safe (p : positive) : Z.pos p < 2 ^ 53 -> Z.pos (digits2_pos p) <= 53.
Proof.
  intros H. pose proof (digits2_pos_lower p) as Hlow.
  destruct (Z.le_gt_cases (Z.pos (digits2_pos p)) 53) as [Hle | Hgt]; [exact Hle | ].
  assert (2 ^ 53 <= 2 ^ (Z.pos (digits2_pos p) - 1)) by (apply Z.pow_le_mono_r; lia).
  lia.
Qed.

(** The Number of an integer below 2^53 is that integer: a mantissa of
    53 bits and the exponent that goes with it. *)
Lemma binary_round_exact (sx : bool) (p : positive) :
  Z.pos p < 2 ^ 53 ->
  exists (m : positive) (e : Z),
    binary_round Num.prec Num.emax sx p 0 = S754_finite sx m e /\
    -52 <= e <= 0 /\ Z.pos m = Z.pos p * 2 ^ (- e).
Proof.
  intros H. pose proof (digits2_pos_safe p H) as Hd.
  unfold binary_round, fexp, emin, Num.prec, Num.emax.
  rewrite Z.add_0_r.
  assert (Hmax : Z.max (Z.pos (digits2_pos p) - 53) (3 - 1024 - 53)
                 = Z.pos (digits2_pos p) - 53) by lia.
  rewrite Hmax. unfold shl_align. rewrite Z.sub_0_r.
  destruct (Z.pos (digits2_pos p) - 53) as [ | q | q] eqn:Hq; [ | lia | ].
  - exists p, 0.
    assert (Hdigits : digits2_pos p = 53%positive) by lia.
    unfold binary_round_aux, shr_fexp, fexp, emin. cbn [Zdigits2].
    rewrite Hdigits.
    assert (Hfexp : Z.max (53 + 0 - 53) (3 - 1024 - 53) - 0 = 0) by lia.
    rewrite Hfexp. cbn [shr_record_of_loc shr shr_m loc_of_shr_record round_nearest_even].
    cbn [Zdigits2]. rewrite Hdigits, Hfexp. cbn [shr shr_m].
    assert (Hle : (0 <=? 1024 - 53) = true) by (apply Z.leb_le; lia).
    rewrite Hle.
    split; [reflexivity | ]. split; lia.
  - exists (Pos.iter xO p q), (Z.neg q).
    assert (Hdigits : digits2_pos (Pos.iter xO p q) = 53%positive)
      by (rewrite iter_xO_digits; lia).
    assert (Hrange : -52 <= Z.neg q <= 0) by lia.
    unfold binary_round_aux, shr_fexp, fexp, emin. cbn [Zdigits2].
    rewrite Hdigits.
    assert (Hfexp : Z.max (53 + Z.neg q - 53) (3 - 1024 - 53) - Z.neg q = 0) by lia.
    rewrite Hfexp. cbn [shr_record_of_loc shr shr_m loc_of_shr_record round_nearest_even].
    cbn [Zdigits2]. rewrite Hdigits, Hfexp. cbn [shr shr_m].
    assert (Hle : (Z.neg q <=? 1024 - 53) = true) by (apply Z.leb_le; lia).
    rewrite Hle.
    split; [reflexivity | ]. split; [exact Hrange | ].
    rewrite iter_xO_value. reflexivity.
Qed.

Lemma of_Z_exact (z : Z) :
  Z.abs z < 2 ^ 53 ->
  Num.to_Z (Num.of_Z z) = Some z /\
  Num.of_Z z <> S754_nan /\ (forall s, Num.of_Z z <> S754_infinity s).
Proof.
  intros H. unfold Num.of_Z, binary_normalize.
  destruct z as [ | p | p].
  - repeat split; discriminate.
  - destruct (binary_round_exact false p H) as (m & e & -> & He & Hm).
    split; [ | split; [discriminate | intros; discriminate]].
    unfold Num.to_Z. rewrite Hm.
    destruct (Z.leb_spec 0 e) as [H0 | H0].
    + assert (e = 0) by lia. subst e. simpl. f_equal. lia.
    + rewrite Z.mod_mul by lia. simpl Z.eqb. cbv iota.
      rewrite Z.div_mul by lia. reflexivity.
  - destruct (binary_round_exact true p H) as (m & e & -> & He & Hm).
    split; [ | split; [discriminate | intros; discriminate]].
    unfold Num.to_Z. rewrite Hm.
    destruct (Z.leb_spec 0 e) as [H0 | H0].
    + assert (e = 0) by lia. subst e. simpl. f_equal. lia.
    + rewrite Z.mod_mul by lia. simpl Z.eqb. cbv iota.
      rewrite Z.div_mul by lia. reflexivity.
Qed.

Lemma encode_number_of_Z (id : Z) :
  0 <= id < 2 ^ 53 ->
  encode_number (Num.of_Z id)
  = if id =? 2 ^ 53 - 1 then Err (fault "overflow") else Ok id.
Proof.
  intros Hid.
  assert (Habs : Z.abs id < 2 ^ 53) by lia.
  destruct (of_Z_exact id Habs) as (Hz & Hnan & Hinf).
  unfold encode_number, from_number.
  destruct (Num.of_Z id) as [s | s | | s m e] eqn:Hn;
    [ | now elim (Hinf s) | now elim Hnan | ];
    rewrite Hz.
  - destruct (Z.leb_spec (2 ^ 53 - 1) (Z.abs id)) as [H | H];
      destruct (Z.eqb_spec id (2 ^ 53 - 1)) as [E | E]; try lia; try reflexivity.
    simpl Js.bind. unfold encode_uint.
    destruct (Z.leb_spec 0 id); [ | lia].
    destruct (Z.ltb_spec id (2 ^ 256)); [reflexivity | lia].
  - destruct (Z.leb_spec (2 ^ 53 - 1) (Z.abs id)) as [H | H];
      destruct (Z.eqb_spec id (2 ^ 53 - 1)) as [E | E]; try lia; try reflexivity.
    simpl Js.bind. unfold encode_uint.
    destruct (Z.leb_spec 0 id); [ | lia].
    destruct (Z.ltb_spec id (2 ^ 256)); [reflexivity | lia].
Qed.

(** X14.  The id of a loan makes the round trip from the chain to the
    table and back.  [loadActiveLoans] keeps an id below 2^53 as the
    Number of that id, and the Repay button gives that Number to
    [repayLoan], which encodes it for the chain: for an id below 2^53 - 1
    the encoding is the id, and once the wallet has given the signer's
    address [repayLoan] reads the loan with that id.  The id 2^53 - 1 is
    shown in the table and cannot be repaid from it: once the wallet has
    given the signer's address the encoding fails, and [repayLoan] shows
    "overflow" as a danger notification; the contract is not read and no
    other call goes to the network. *)
Theorem loan_id_round_trip
    (w : World) (snap s : State) (c : Contract) (from : string) (id : Z) :
  contract snap = Some c ->
  w [] (result string) GetAddress = Ok from ->
  0 <= id < 2 ^ 53 ->
  let r := run w (repayLoan snap (Num.of_Z id)) s [] in
  toNumber id = Ok (Num.of_Z id) /\
  Js.bind (toNumber id) encode_number
  = (if id =? 2 ^ 53 - 1 then Err (fault "overflow") else Ok id) /\
  (id < 2 ^ 53 - 1 ->
   exists more,
     trace r
     = Called GetAddress (Ok from)
         :: Called (ActiveLoans id)
              (w [Called GetAddress (Ok from)] (result Loan.t) (ActiveLoans id))
         :: more) /\
  (id = 2 ^ 53 - 1 ->
   final r = toasted "overflow" "danger" s /\
   network_calls (trace r) = [Called GetAddress (Ok from)] /\
   reads (trace r) = []).
Proof.
  intros Hc Hfrom Hid r. subst r.
  assert (Hsafe : safe id) by (unfold safe; lia).
  pose proof (encode_number_of_Z id Hid) as Henc.
  split; [exact (toNumber_safe id Hsafe) | ].
  split; [rewrite (toNumber_safe id Hsafe); exact Henc | ].
  unfold repayLoan. rewrite Hc. unfold repayLoan_try, repayLoan_catch.
  split.
  - intros Hlt.
    destruct (Z.eqb_spec id (2 ^ 53 - 1)) as [E | _]; [lia | ].
    do 3 run_step. rewrite Hfrom. cbv beta iota. change ([] ++ ?l)%list with l.
    do 2 run_step. rewrite Henc. cbv beta iota.
    do 2 run_step.
    destruct (w [Called GetAddress (Ok from)] (result Loan.t) (ActiveLoans id))
      as [loan | e]; cbv beta iota.
    + match goal with
      | |- context [run w ?p s ?tr] =>
          destruct (run_extends w p s tr) as [more Hmore];
          destruct (run w p s tr) as [[[a | e] s'] tr'];
          unfold trace in Hmore; cbn [snd] in Hmore; subst tr'
      end.
      * exists more. reflexivity.
      * do 3 run_step. eexists. unfold trace. cbn [snd].
        rewrite <- app_assoc. reflexivity.
    + do 3 run_step. eexists. reflexivity.
  - intros E.
    destruct (Z.eqb_spec id (2 ^ 53 - 1)) as [_ | N]; [ | lia].
    do 3 run_step. rewrite Hfrom. cbv beta iota. change ([] ++ ?l)%list with l.
    do 2 run_step. rewrite Henc. cbv beta iota.
    do 3 run_step. repeat split; reflexivity.
Qed.

Lemma loan_id_round_trip_witness :
  Js.bind (toNumber 4) encode_number = Ok 4 /\
  final (run (answering (fairWeather (Num.of_Z 2000)))
             (repayLoan aliceSession (Num.of_Z (2 ^ 53 - 1))) aliceSession [])
  = toasted "overflow" "danger" aliceSession.
Proof.
  split.
  - apply (loan_id_round_trip (answering (fairWeather (Num.of_Z 2000)))
             aliceSession aliceSession (mkContract contractAddress) alice 4);
      [reflexivity | reflexivity | lia].
  - apply (loan_id_round_trip (answering (fairWeather (Num.of_Z 2000)))
             aliceSession aliceSession (mkContract contractAddress) alice (2 ^ 53 - 1));
      [reflexivity | reflexivity | lia | reflexivity].
Defined.

(** ** Requests *)

Lemma run_createLoanRequest_confirmed (w : World) (snap s : State) (from : string)
    (loanAmount collateralInWei days percent now nonce tx : Z) :
  request_confirmed w snap from loanAmount collateralInWei days percent now nonce tx ->
  run w (createLoanRequest_try snap) s [Called PreventDefault tt]
  = run w (updateBalance snap ;;
           loadActiveLoans snap ;;
           set (setFormData (fun _ => emptyForm)) ;;
           showToastMessage "Loan request created successfully" "success")
        s
        [Called PreventDefault tt;
         Called NewDate now;
         Called Web3Provider (Ok tt);
         Called (GetTransactionCount (account snap)) (Ok nonce);
         Called GetAddress (Ok from);
         Called (CreateLoanRequestTx loanAmount days percent collateralInWei nonce
                   (hexlify 1000000)) (Ok tx);
         Called (Wait tx) (Ok tt)].
Proof.
  intros H. unfold createLoanRequest_try.
  match goal with |- _ = ?rhs => set (confirmed := rhs) end.
  do 2 run_step. rewrite (amount_parsed _ _ _ _ _ _ _ _ _ _ H). cbv beta iota.
  do 2 run_step. rewrite (collateral_parsed _ _ _ _ _ _ _ _ _ _ H). cbv beta iota.
  run_step. unfold new_Date.
  destruct (JsDate.parse (date (formData snap))) as [t | ] eqn:Hdate;
    [ | now elim (date_given _ _ _ _ _ _ _ _ _ _ H)].
  change (run w (Ret (Some t)) ?s0 ?tr0) with (Returned (Some t), s0, tr0).
  cbv beta iota.
  do 2 run_step. rewrite (clock_read _ _ _ _ _ _ _ _ _ _ H).
  assert (Hduration :
            Num.ceil (Num.div (JsDate.minus (Some t) now) (Num.of_Z (1000 * 60 * 60 * 24)))
            = durationInDays snap now).
  { unfold durationInDays, JsDate.diff. now rewrite Hdate. }
  rewrite Hduration. fold (rateOf snap). cbv zeta.
  rewrite (date_ahead _ _ _ _ _ _ _ _ _ _ H).
  do 2 run_step. rewrite (provider_found _ _ _ _ _ _ _ _ _ _ H). cbv beta iota.
  do 2 run_step. rewrite (nonce_read _ _ _ _ _ _ _ _ _ _ H). cbv beta iota.
  do 2 run_step. rewrite (signer_given _ _ _ _ _ _ _ _ _ _ H). cbv beta iota.
  do 2 run_step. rewrite (amount_encoded _ _ _ _ _ _ _ _ _ _ H). cbv beta iota.
  do 2 run_step. rewrite (days_encoded _ _ _ _ _ _ _ _ _ _ H). cbv beta iota.
  do 2 run_step. rewrite (percent_encoded _ _ _ _ _ _ _ _ _ _ H). cbv beta iota.
  do 2 run_step. rewrite (value_written _ _ _ _ _ _ _ _ _ _ H). cbv beta iota.
  do 2 run_step. rewrite (request_sent _ _ _ _ _ _ _ _ _ _ H). cbv beta iota.
  do 2 run_step. rewrite (request_mined _ _ _ _ _ _ _ _ _ _ H). cbv beta iota.
  reflexivity.
Qed.

(** X15.  A request that the chain has confirmed is reported as failed
    when the balance cannot be read afterwards: a danger notification
    shows the reason of the failed read, or "Transaction failed" when it
    has none; the form keeps what was typed, and the list of loans is not
    fetched.  The request transaction has been sent and mined all the
    same.  The request is one with a calendar date in the future and a
    collateral that is not negative, for which the wallet gives the
    signer's address. *)
Theorem createLoanRequest_reports_failed_refresh
    (w : World) (snap s : State) (c : Contract) (from : string)
    (loanAmount collateralInWei days percent now nonce tx : Z) (e : Error) :
  contract snap = Some c ->
  request_confirmed w snap from loanAmount collateralInWei days percent now nonce tx ->
  (forall tr, w tr (result Z) (GetBalance (account snap)) = Err e) ->
  let r := run w (createLoanRequest snap) s [] in
  outcome r = Returned tt /\
  transactions (trace r)
  = [Called (CreateLoanRequestTx loanAmount days percent collateralInWei nonce
               (hexlify 1000000)) (Ok tx)] /\
  reads (trace r) = [] /\
  final r = toasted (reason_or e "Transaction failed") "danger" s /\
  formData (final r) = formData s.
Proof.
  intros Hc Hsent Hbalance r. subst r.
  unfold createLoanRequest.
  do 2 run_step. destruct (w [] unit PreventDefault).
  rewrite Hc. cbv beta iota. change ([] ++ ?l)%list with l.
  rewrite run_try_catch, (run_createLoanRequest_confirmed w snap s _ _ _ _ _ _ _ _ Hsent).
  unfold updateBalance, createLoanRequest_catch.
  do 3 run_step. rewrite (provider_found _ _ _ _ _ _ _ _ _ _ Hsent). cbv beta iota.
  do 2 run_step. rewrite Hbalance. cbv beta iota.
  do 3 run_step.
  repeat split; reflexivity.
Qed.

Lemma createLoanRequest_reports_failed_refresh_witness :
  let r := run (answering balanceOutage) (createLoanRequest tenDaySubmission)
               tenDaySubmission [] in
  outcome r = Returned tt /\
  transactions (trace r)
  = [Called (CreateLoanRequestTx 1000000000000000000 10 5 2000000000000000000 7
               (hexlify 1000000)) (Ok 1)] /\
  reads (trace r) = [] /\
  final r = toasted "missing response" "danger" tenDaySubmission /\
  formData (final r) = formData tenDaySubmission.
Proof.
  apply (createLoanRequest_reports_failed_refresh (answering balanceOutage)
           tenDaySubmission tenDaySubmission (mkContract contractAddress) alice
           1000000000000000000 2000000000000000000 10 5 newYear2025 7 1
           (fault "missing response"));
    try reflexivity.
  constructor; try (vm_compute; reflexivity).
  vm_compute. discriminate.
Defined.

(** ** Disconnecting *)

(** X16.  When the wallet reports that no account is left, the account
    is cleared and the list of loans stays as it was, whether or not the
    balance read that follows succeeds; a refresh from the render that
    follows does nothing at all: it makes no call and changes nothing, so
    the loans of the account that is gone stay in the table. *)
Theorem refresh_after_disconnect_is_idle
    (w : World) (s : State) (tr tr' : Trace) :
  let disconnected := final (run w (accountsChanged []) s tr) in
  account disconnected = None /\
  activeLoans disconnected = activeLoans s /\
  renderTable disconnected = renderTable s /\
  run w (loadActiveLoans disconnected) disconnected tr'
  = (Returned tt, disconnected, tr').
Proof.
  intros disconnected.
  assert (H : account disconnected = None /\ activeLoans disconnected = activeLoans s).
  { subst disconnected. unfold accountsChanged.
    do 4 run_step.
    match goal with
    | |- context [w ?t (result Z) ?call] => destruct (w t (result Z) call)
    end; cbv beta iota.
    - run_step. split; reflexivity.
    - split; reflexivity. }
  destruct H as [Haccount Hloans].
  split; [exact Haccount | ].
  split; [exact Hloans | ].
  split; [unfold renderTable; now rewrite Hloans | ].
  unfold loadActiveLoans. rewrite Haccount. simpl connected.
  destruct (contract disconnected); reflexivity.
Qed.
